(** * MCP server generator: requirement resolution and template expansion

    A shallow embedding of the TypeScript sources

      - [packages/core/src/patterns.ts]      (tool-pattern catalog, matcher)
      - [packages/core/src/integrations.ts]  (integration catalog, matcher)
      - the [AIGenerator] class              (requirement resolution)
      - [packages/core/src/index.ts]         ([MCPServerGenerator])
      - the [TemplateEngine] class           (rendering)

    Strings are Rocq [string]s, read as sequences of code units; the case
    conversions below act on the ASCII letters, so the development speaks
    about ASCII text.  JavaScript arrays are lists, the insertion-ordered
    [Set] is a duplicate-free list, plain objects used as dictionaries are
    [gmap]s, and the remote chat-completion service and the clock are an
    explicit [World] that is threaded through the asynchronous methods.

    Two things bound what the development says about the resolver.  The
    analysis that the chat service returns is described for replies that
    are [null] or an object whose members, where present, have the types
    the prompt asks for; other parseable replies are outside its scope.
    And the resolver imports [findIntegrations] from [./integrations],
    which exports no such function: the call raises a [TypeError], and
    the model raises with it. *)

From Stdlib Require Import ZArith Ascii String List Bool Lia Btauto.
From Stdlib Require Import Numbers.DecimalString.
From stdpp Require Import gmap strings list fin_maps.

#[local] Set Warnings "-register-all".

Local Open Scope string_scope.
Local Open Scope list_scope.

(** ** JavaScript string and array primitives *)

Module JS.

Definition is_upper (c : ascii) : bool :=
  Nat.leb 65 (nat_of_ascii c) && Nat.leb (nat_of_ascii c) 90.

Definition is_lower (c : ascii) : bool :=
  Nat.leb 97 (nat_of_ascii c) && Nat.leb (nat_of_ascii c) 122.

Definition is_digit (c : ascii) : bool :=
  Nat.leb 48 (nat_of_ascii c) && Nat.leb (nat_of_ascii c) 57.

(** The class [\s] on ASCII: space, tab, line feed, vertical tab, form
    feed and carriage return. *)
Definition is_space (c : ascii) : bool :=
  Nat.eqb (nat_of_ascii c) 32
  || (Nat.leb 9 (nat_of_ascii c) && Nat.leb (nat_of_ascii c) 13).

Definition lower_char (c : ascii) : ascii :=
  if is_upper c then ascii_of_nat (nat_of_ascii c + 32) else c.

Definition upper_char (c : ascii) : ascii :=
  if is_lower c then ascii_of_nat (nat_of_ascii c - 32) else c.

Fixpoint map_chars (f : ascii -> ascii) (s : string) : string :=
  match s with
  | EmptyString => EmptyString
  | String c s' => String (f c) (map_chars f s')
  end.

Fixpoint filter_chars (f : ascii -> bool) (s : string) : string :=
  match s with
  | EmptyString => EmptyString
  | String c s' =>
      if f c then String c (filter_chars f s') else filter_chars f s'
  end.

(** [String.prototype.toLowerCase] and [toUpperCase]. *)
Definition toLowerCase : string -> string := map_chars lower_char.
Definition toUpperCase : string -> string := map_chars upper_char.

(** [s.includes(t)]: [t] occurs in [s] as a contiguous substring. *)
Fixpoint includes (s t : string) : bool :=
  String.prefix t s
  || match s with
     | EmptyString => false
     | String _ s' => includes s' t
     end.

(** [s.slice(0, n)]. *)
Fixpoint slice0 (n : nat) (s : string) : string :=
  match n, s with
  | S n', String c s' => String c (slice0 n' s')
  | _, _ => EmptyString
  end.

(** [String.prototype.trim]. *)
Fixpoint trimStart (s : string) : string :=
  match s with
  | String c s' => if is_space c then trimStart s' else s
  | EmptyString => EmptyString
  end.

Fixpoint trimEnd (s : string) : string :=
  match s with
  | EmptyString => EmptyString
  | String c s' =>
      match trimEnd s' with
      | EmptyString => if is_space c then EmptyString else String c EmptyString
      | r => String c r
      end
  end.

Definition trim (s : string) : string := trimEnd (trimStart s).

(** Truthiness of a string: the empty string is falsy. *)
Definition truthy (s : string) : bool :=
  match s with EmptyString => false | _ => true end.

(** [a || b] on an optional string: [undefined] and [''] are falsy. *)
Definition or_else (a : option string) (b : string) : string :=
  match a with
  | Some s => if truthy s then s else b
  | None => b
  end.

(** [xs || []] on an optional array: only [undefined] is falsy. *)
Definition or_nil {A} (xs : option (list A)) : list A :=
  match xs with Some l => l | None => [] end.

(** [s.split(sep)] for a one-character separator. *)
Fixpoint split (sep : ascii) (s : string) : list string :=
  match s with
  | EmptyString => [EmptyString]
  | String c s' =>
      if Ascii.eqb c sep then EmptyString :: split sep s'
      else match split sep s' with
           | w :: ws => String c w :: ws
           | [] => [String c EmptyString]
           end
  end.

(** [xs.join(sep)]. *)
Fixpoint join (sep : string) (xs : list string) : string :=
  match xs with
  | [] => EmptyString
  | [x] => x
  | x :: rest => x +:+ sep +:+ join sep rest
  end.

(** [s.replace(/C+/g, r)] for a character class [C]: every maximal run
    of class members becomes one copy of [r]. *)
Fixpoint replace_runs (cls : ascii -> bool) (r : string) (s : string) : string :=
  match s with
  | EmptyString => EmptyString
  | String c s' =>
      if cls c then
        match s' with
        | String c' _ =>
            if cls c' then replace_runs cls r s'
            else r +:+ replace_runs cls r s'
        | EmptyString => r
        end
      else String c (replace_runs cls r s')
  end.

(** [s.replace(/([a-z])([A-Z])/g, '$1' + sep + '$2')].  A match consumes
    both letters, and scanning resumes behind the capital. *)
Fixpoint split_humps (sep : ascii) (s : string) : string :=
  match s with
  | EmptyString => EmptyString
  | String c1 s1 =>
      match s1 with
      | String c2 rest =>
          if is_lower c1 && is_upper c2
          then String c1 (String sep (String c2 (split_humps sep rest)))
          else String c1 (split_humps sep s1)
      | EmptyString => String c1 EmptyString
      end
  end.

(** [xs.findIndex(pred)], [None] standing for [-1]. *)
Fixpoint findIndex {A} (pred : A -> bool) (xs : list A) : option nat :=
  match xs with
  | [] => None
  | x :: rest =>
      if pred x then Some 0 else option_map S (findIndex pred rest)
  end.

(** [xs.filter((x, index, self) => keep x index self)]. *)
Fixpoint filteri_from {A} (keep : A -> nat -> bool) (i : nat) (xs : list A) : list A :=
  match xs with
  | [] => []
  | x :: rest =>
      if keep x i then x :: filteri_from keep (S i) rest
      else filteri_from keep (S i) rest
  end.

Definition filteri {A} (keep : A -> nat -> list A -> bool) (xs : list A) : list A :=
  filteri_from (fun x i => keep x i xs) 0 xs.

(** [xs.slice(0, n)]. *)
Definition slice {A} (n : nat) (xs : list A) : list A := firstn n xs.

(** [new Set<string>()], [set.add(x)] and [Array.from(set)]: a [Set]
    iterates in insertion order and ignores a value it already holds. *)
Definition StringSet := list string.

Definition Set_has (s : StringSet) (x : string) : bool :=
  existsb (String.eqb x) s.

Definition Set_add (s : StringSet) (x : string) : StringSet :=
  if Set_has s x then s else s ++ [x].

Definition Set_of (xs : list string) : StringSet :=
  fold_left Set_add xs [].

Definition Set_size (s : StringSet) : nat := List.length s.

Definition Array_from (s : StringSet) : list string := s.

(** Template-literal rendering of a number. *)
Definition number_to_string (z : Z) : string :=
  NilZero.string_of_int (Z.to_int z).

End JS.

(** ** JSON values

    Schemas and defaults are plain JSON; objects keep their keys in
    insertion order. *)

Inductive JSON : Type :=
| JNull
| JBool (b : bool)
| JNum (n : Z)
| JStr (s : string)
| JArr (items : list JSON)
| JObj (fields : list (string * JSON)).

(** ** Catalog types ([ToolPatternSchema], [IntegrationConfigSchema]) *)

Inductive Category : Type :=
| api | file | database | notification | processing | auth.

Definition category_name (c : Category) : string :=
  match c with
  | api => "api"
  | file => "file"
  | database => "database"
  | notification => "notification"
  | processing => "processing"
  | auth => "auth"
  end.

Inductive AuthType : Type :=
| auth_api_key | auth_oauth | auth_basic | auth_none.

(** The [template], [inputSchema] and [outputSchema] members of a pattern
    are text and schema blobs that no function below reads; the record
    keeps the members the resolver and the matcher consult. *)
Record ToolPattern : Type := {
  pattern_id : string;
  pattern_name : string;
  pattern_category : Category;
  pattern_description : string;
  pattern_actions : list string;
  pattern_dependencies : list string;
  pattern_examples : option (list string)
}.

(** One entry of [configSchema.properties]. *)
Record SchemaProperty : Type := {
  prop_type : string;
  prop_description : option string;
  prop_default : option JSON
}.

(** [configSchema]: [properties] may be absent. *)
Record ConfigSchema : Type := {
  schema_type : string;
  schema_properties : option (list (string * SchemaProperty));
  schema_required : list string
}.

(** [setupInstructions] is documentation text that no function below
    reads. *)
Record IntegrationConfig : Type := {
  integration_id : string;
  integration_name : string;
  integration_displayName : string;
  integration_description : string;
  integration_dependencies : list string;
  integration_authType : option AuthType;
  integration_environmentVariables : option (list string);
  integration_configSchema : ConfigSchema
}.

Definition prop (ty descr : string) : SchemaProperty :=
  {| prop_type := ty; prop_description := Some descr; prop_default := None |}.

Definition prop_with_default (ty descr : string) (d : JSON) : SchemaProperty :=
  {| prop_type := ty; prop_description := Some descr; prop_default := Some d |}.

Definition object_schema (props : list (string * SchemaProperty))
    (required : list string) : ConfigSchema :=
  {| schema_type := "object";
     schema_properties := Some props;
     schema_required := required |}.

(** ** [patterns.ts] *)

Module Patterns.

Definition api_request : ToolPattern := {|
  pattern_id := "api-request";
  pattern_name := "API Request Tool";
  pattern_category := api;
  pattern_description := "Make HTTP requests to REST APIs";
  pattern_actions := ["get"; "post"; "put"; "delete"; "patch"; "request"];
  pattern_dependencies := ["axios"; "zod"];
  pattern_examples :=
    Some ["fetch data from API"; "post to webhook"; "REST API calls"]
|}.

Definition file_operations : ToolPattern := {|
  pattern_id := "file-operations";
  pattern_name := "File Operations Tool";
  pattern_category := file;
  pattern_description := "Read, write, and manipulate files";
  pattern_actions :=
    ["read"; "write"; "delete"; "list"; "copy"; "move"; "exists"];
  pattern_dependencies := ["fs-extra"; "path"];
  pattern_examples :=
    Some ["read files"; "write data to file"; "manage directories";
          "file system operations"]
|}.

Definition database_query : ToolPattern := {|
  pattern_id := "database-query";
  pattern_name := "Database Query Tool";
  pattern_category := database;
  pattern_description := "Execute database queries and operations";
  pattern_actions := ["query"; "insert"; "update"; "delete"; "select"];
  pattern_dependencies := ["pg"; "mysql2"; "sqlite3"];
  pattern_examples :=
    Some ["run SQL queries"; "database operations"; "data retrieval"]
|}.

Definition notification_sender : ToolPattern := {|
  pattern_id := "notification-sender";
  pattern_name := "Notification Sender Tool";
  pattern_category := notification;
  pattern_description :=
    "Send notifications via email, Slack, or other channels";
  pattern_actions := ["send"; "email"; "slack"; "webhook"; "sms"];
  pattern_dependencies := ["nodemailer"; "@slack/web-api"; "twilio"];
  pattern_examples :=
    Some ["send emails"; "slack notifications"; "SMS alerts";
          "webhook calls"]
|}.

Definition data_processing : ToolPattern := {|
  pattern_id := "data-processing";
  pattern_name := "Data Processing Tool";
  pattern_category := processing;
  pattern_description := "Transform, filter, and process data";
  pattern_actions :=
    ["transform"; "filter"; "map"; "reduce"; "sort"; "group"];
  pattern_dependencies := ["lodash"; "moment"; "csv-parser"];
  pattern_examples :=
    Some ["process arrays"; "transform data"; "filter results";
          "data manipulation"]
|}.

Definition auth_handler : ToolPattern := {|
  pattern_id := "auth-handler";
  pattern_name := "Authentication Handler";
  pattern_category := auth;
  pattern_description := "Handle authentication and authorization";
  pattern_actions := ["login"; "logout"; "verify"; "refresh"; "oauth"];
  pattern_dependencies := ["jsonwebtoken"; "bcrypt"; "passport"];
  pattern_examples :=
    Some ["user authentication"; "JWT tokens"; "OAuth flows";
          "login systems"]
|}.

Definition TOOL_PATTERNS : list ToolPattern :=
  [api_request; file_operations; database_query; notification_sender;
   data_processing; auth_handler].

(** [a.toLowerCase().includes(k) || k.includes(a.toLowerCase())] *)
Definition term_matches (term keyword : string) : bool :=
  JS.includes (JS.toLowerCase term) keyword
  || JS.includes keyword (JS.toLowerCase term).

Definition findMatchingPatterns (keywords actions : list string)
    : list ToolPattern :=
  let allKeywords := map JS.toLowerCase (keywords ++ actions) in
  List.filter
    (fun pattern =>
       let actionMatch :=
         existsb (fun action =>
                    existsb (fun keyword => term_matches action keyword)
                            allKeywords)
                 (pattern_actions pattern) in
       let exampleMatch :=
         match pattern_examples pattern with
         | Some examples =>
             existsb (fun example =>
                        existsb (fun keyword => term_matches example keyword)
                                allKeywords)
                     examples
         | None => false
         end in
       let categoryMatch :=
         existsb
           (String.eqb
              (JS.toLowerCase (category_name (pattern_category pattern))))
           allKeywords in
       actionMatch || exampleMatch || categoryMatch)
    TOOL_PATTERNS.

Definition getPatternsByCategory (category : string) : list ToolPattern :=
  List.filter
    (fun p => String.eqb (category_name (pattern_category p)) category)
    TOOL_PATTERNS.

Definition getToolCategories : list string :=
  JS.Array_from
    (JS.Set_of
       (map (fun p => category_name (pattern_category p)) TOOL_PATTERNS)).

End Patterns.

(** ** [integrations.ts] *)

Module Integrations.

Definition github : IntegrationConfig := {|
  integration_id := "github";
  integration_name := "github-api";
  integration_displayName := "GitHub API";
  integration_description :=
    "Integrate with GitHub repositories, issues, and pull requests";
  integration_dependencies := ["@octokit/rest"; "@octokit/auth-app"];
  integration_authType := Some auth_api_key;
  integration_environmentVariables :=
    Some ["GITHUB_TOKEN"; "GITHUB_APP_ID"; "GITHUB_PRIVATE_KEY"];
  integration_configSchema :=
    object_schema
      [("token", prop "string" "GitHub personal access token");
       ("owner", prop "string" "Repository owner");
       ("repo", prop "string" "Repository name")]
      ["token"]
|}.

Definition slack : IntegrationConfig := {|
  integration_id := "slack";
  integration_name := "slack-api";
  integration_displayName := "Slack API";
  integration_description :=
    "Send messages and interact with Slack workspaces";
  integration_dependencies := ["@slack/web-api"; "@slack/bolt"];
  integration_authType := Some auth_api_key;
  integration_environmentVariables :=
    Some ["SLACK_BOT_TOKEN"; "SLACK_SIGNING_SECRET"];
  integration_configSchema :=
    object_schema
      [("token", prop "string" "Slack bot token");
       ("channel", prop "string" "Default channel")]
      ["token"]
|}.

Definition postgresql : IntegrationConfig := {|
  integration_id := "postgresql";
  integration_name := "postgresql-db";
  integration_displayName := "PostgreSQL Database";
  integration_description := "Connect to and query PostgreSQL databases";
  integration_dependencies := ["pg"; "@types/pg"];
  integration_authType := Some auth_basic;
  integration_environmentVariables :=
    Some ["DATABASE_URL"; "DB_HOST"; "DB_PORT"; "DB_NAME"; "DB_USER";
          "DB_PASSWORD"];
  integration_configSchema :=
    object_schema
      [("host", prop "string" "Database host");
       ("port", prop_with_default "number" "Database port" (JNum 5432));
       ("database", prop "string" "Database name");
       ("user", prop "string" "Database user");
       ("password", prop "string" "Database password");
       ("ssl", prop_with_default "boolean" "Use SSL connection" (JBool false))]
      ["host"; "database"; "user"; "password"]
|}.

Definition sendgrid : IntegrationConfig := {|
  integration_id := "sendgrid";
  integration_name := "sendgrid-email";
  integration_displayName := "SendGrid Email";
  integration_description := "Send emails using SendGrid service";
  integration_dependencies := ["@sendgrid/mail"];
  integration_authType := Some auth_api_key;
  integration_environmentVariables := Some ["SENDGRID_API_KEY"];
  integration_configSchema :=
    object_schema
      [("apiKey", prop "string" "SendGrid API key");
       ("fromEmail", prop "string" "Default sender email");
       ("fromName", prop "string" "Default sender name")]
      ["apiKey"; "fromEmail"]
|}.

Definition aws_s3 : IntegrationConfig := {|
  integration_id := "aws-s3";
  integration_name := "aws-s3-storage";
  integration_displayName := "AWS S3 Storage";
  integration_description :=
    "Upload, download, and manage files in AWS S3";
  integration_dependencies :=
    ["@aws-sdk/client-s3"; "@aws-sdk/s3-request-presigner"];
  integration_authType := Some auth_api_key;
  integration_environmentVariables :=
    Some ["AWS_ACCESS_KEY_ID"; "AWS_SECRET_ACCESS_KEY"; "AWS_REGION";
          "AWS_S3_BUCKET"];
  integration_configSchema :=
    object_schema
      [("accessKeyId", prop "string" "AWS access key ID");
       ("secretAccessKey", prop "string" "AWS secret access key");
       ("region",
        prop_with_default "string" "AWS region" (JStr "us-east-1"));
       ("bucket", prop "string" "S3 bucket name")]
      ["accessKeyId"; "secretAccessKey"; "bucket"]
|}.

Definition discord : IntegrationConfig := {|
  integration_id := "discord";
  integration_name := "discord-bot";
  integration_displayName := "Discord Bot";
  integration_description :=
    "Create Discord bot interactions and send messages";
  integration_dependencies := ["discord.js"];
  integration_authType := Some auth_api_key;
  integration_environmentVariables :=
    Some ["DISCORD_BOT_TOKEN"; "DISCORD_CLIENT_ID"];
  integration_configSchema :=
    object_schema
      [("token", prop "string" "Discord bot token");
       ("clientId", prop "string" "Discord application client ID");
       ("guildId", prop "string" "Discord server ID")]
      ["token"; "clientId"]
|}.

Definition twilio : IntegrationConfig := {|
  integration_id := "twilio";
  integration_name := "twilio-sms";
  integration_displayName := "Twilio SMS";
  integration_description := "Send SMS messages using Twilio";
  integration_dependencies := ["twilio"];
  integration_authType := Some auth_basic;
  integration_environmentVariables :=
    Some ["TWILIO_ACCOUNT_SID"; "TWILIO_AUTH_TOKEN"; "TWILIO_PHONE_NUMBER"];
  integration_configSchema :=
    object_schema
      [("accountSid", prop "string" "Twilio Account SID");
       ("authToken", prop "string" "Twilio Auth Token");
       ("phoneNumber", prop "string" "Twilio phone number")]
      ["accountSid"; "authToken"; "phoneNumber"]
|}.

Definition openai : IntegrationConfig := {|
  integration_id := "openai";
  integration_name := "openai-api";
  integration_displayName := "OpenAI API";
  integration_description :=
    "Integrate with OpenAI GPT models and other AI services";
  integration_dependencies := ["openai"];
  integration_authType := Some auth_api_key;
  integration_environmentVariables := Some ["OPENAI_API_KEY"];
  integration_configSchema :=
    object_schema
      [("apiKey", prop "string" "OpenAI API key");
       ("model",
        prop_with_default "string" "Default model" (JStr "gpt-3.5-turbo"));
       ("organization", prop "string" "OpenAI organization ID")]
      ["apiKey"]
|}.

Definition INTEGRATIONS : list IntegrationConfig :=
  [github; slack; postgresql; sendgrid; aws_s3; discord; twilio; openai].

Definition integration_matches (integration : IntegrationConfig)
    (keyword : string) : bool :=
  JS.includes (JS.toLowerCase (integration_id integration)) keyword
  || JS.includes (JS.toLowerCase (integration_name integration)) keyword
  || JS.includes (JS.toLowerCase (integration_displayName integration)) keyword
  || JS.includes (JS.toLowerCase (integration_description integration)) keyword.

Definition findMatchingIntegrations (keywords : list string)
    : list IntegrationConfig :=
  let lowerKeywords := map JS.toLowerCase keywords in
  List.filter
    (fun integration => existsb (integration_matches integration) lowerKeywords)
    INTEGRATIONS.

Definition getIntegrationById (id : string) : option IntegrationConfig :=
  List.find (fun integration => String.eqb (integration_id integration) id)
            INTEGRATIONS.

Definition getAllIntegrations : list IntegrationConfig := INTEGRATIONS.

Definition auth_name (a : AuthType) : string :=
  match a with
  | auth_api_key => "api-key"
  | auth_oauth => "oauth"
  | auth_basic => "basic"
  | auth_none => "none"
  end.

Definition getIntegrationsByAuthType (authType : string)
    : list IntegrationConfig :=
  List.filter
    (fun integration =>
       match integration_authType integration with
       | Some a => String.eqb (auth_name a) authType
       | None => false
       end)
    INTEGRATIONS.

End Integrations.

(** ** The [AIGenerator] class *)

Module AIGenerator.

(** The analysis object, as the prompt of [analyzeRequiredTools] asks for
    it.  It is parsed JSON, so any member may be missing; a member that is
    present has the type the prompt gives it.  A reply with a member of
    another type (a number for [summary], a string for [keyFeatures]) is
    not described here. *)
Record Analysis : Type := {
  summary : option string;
  primaryActions : option (list string);
  dataTypes : option (list string);
  services : option (list string);
  complexity : option string;
  toolCategories : option (list string);
  suggestedIntegrations : option (list string);
  keyFeatures : option (list string);
  estimatedTools : option Z
}.

(** What [JSON.parse] hands back for the analysis: an object, or the
    value [null], whose members cannot be read. *)
Inductive AnalysisValue : Type :=
| AnalysisObject (analysis : Analysis)
| AnalysisNull.

(** The parsed reply of the per-pattern request. *)
Record ToolData : Type := {
  data_name : string;
  data_description : string;
  data_inputSchema : JSON;
  data_outputSchema : JSON;
  data_implementation : string
}.

Record GeneratedTool : Type := {
  tool_id : string;
  tool_patternId : string;
  tool_name : string;
  tool_description : string;
  tool_inputSchema : JSON;
  tool_outputSchema : JSON;
  tool_implementation : string;
  tool_dependencies : list string
}.

Record Metadata : Type := {
  generatedAt : string;
  aiAnalysis : Analysis;
  originalDescription : string
}.

Record ServerConfig : Type := {
  config_name : string;
  config_description : string;
  config_patterns : list ToolPattern;
  config_integrations : list IntegrationConfig;
  config_customTools : list GeneratedTool;
  config_dependencies : list string;
  config_environmentVariables : gmap string string;
  config_metadata : Metadata
}.

(** *** The outside world

    Every [await this.openai.chat.completions.create(...)] is a request
    to a remote service and every [Date.now()] reads the clock.  The
    world records the requests sent so far and the current time. *)
Inductive Request : Type :=
| AnalysisRequest (description : string)
| ToolRequest (analysis : Analysis) (pattern : ToolPattern).

Record World : Type := {
  sent : list Request;
  now : Z
}.

(** The service behind [this.openai].  A reply is [None] when the
    request is rejected, carries no content, or carries text that
    [JSON.parse] refuses; all three end in the [catch] block (or the
    [return null]) of the calling method.  Replies may depend on the
    whole history, so the same prompt can be answered differently. *)
Record OpenAI : Type := {
  analysis_reply : World -> string -> option AnalysisValue;
  tool_reply : World -> Analysis -> ToolPattern -> option ToolData;
  elapsed : World -> Request -> Z;
  toISOString : Z -> string
}.

Definition M (A : Type) : Type := World -> A * World.

Definition ret {A} (a : A) : M A := fun w => (a, w).

Definition bind {A B} (m : M A) (k : A -> M B) : M B :=
  fun w => let (a, w') := m w in k a w'.

Notation "'let*' x ':=' m 'in' k" := (bind m (fun x => k))
  (at level 10, x name, m at level 100, k at level 200).

Definition Date_now : M Z := fun w => (now w, w).

Definition request {A} (req : Request) (reply : World -> A)
    (client : OpenAI) : M A :=
  fun w => (reply w,
            {| sent := sent w ++ [req];
               now := (now w + elapsed client w req)%Z |}).

(** *** Pure helpers *)

Definition createFallbackAnalysis (description : string) : Analysis :=
  let lowerDesc := JS.toLowerCase description in
  let services0 : list string := [] in
  let suggested0 : list string := [] in
  let categories0 : list string := [] in
  let '(services1, suggested1, categories1) :=
    if JS.includes lowerDesc "github"
    then (services0 ++ ["GitHub"], suggested0 ++ ["github"],
          categories0 ++ ["api"])
    else (services0, suggested0, categories0) in
  let '(services2, suggested2, categories2) :=
    if JS.includes lowerDesc "slack"
    then (services1 ++ ["Slack"], suggested1 ++ ["slack"],
          categories1 ++ ["notification"])
    else (services1, suggested1, categories1) in
  let '(suggested3, categories3) :=
    if JS.includes lowerDesc "database" || JS.includes lowerDesc "sql"
    then (suggested2 ++ ["postgresql"], categories2 ++ ["database"])
    else (suggested2, categories2) in
  let categories4 :=
    if JS.includes lowerDesc "file" || JS.includes lowerDesc "upload"
    then categories3 ++ ["file"]
    else categories3 in
  let '(suggested5, categories5) :=
    if JS.includes lowerDesc "email"
    then (suggested3 ++ ["sendgrid"], categories4 ++ ["notification"])
    else (suggested3, categories4) in
  let categories6 :=
    if Nat.eqb (List.length categories5) 0
    then categories5 ++ ["api"]
    else categories5 in
  {| summary :=
       Some (JS.slice0 100 description
             +:+ (if Nat.ltb 100 (String.length description)
                 then "..." else ""));
     primaryActions := Some [];
     dataTypes := Some [];
     services := Some services2;
     complexity := Some "simple";
     toolCategories := Some categories6;
     suggestedIntegrations := Some suggested5;
     keyFeatures := Some [];
     estimatedTools := Some 1%Z |}.

(** The [filter]/[findIndex] idiom that keeps the first entry of every
    [id]. *)
Definition uniqueBy {A} (id : A -> string) (xs : list A) : list A :=
  JS.filteri
    (fun x index self =>
       match JS.findIndex (fun p => String.eqb (id p) (id x)) self with
       | Some j => Nat.eqb index j
       | None => false
       end)
    xs.

Definition action_matches (pattern : ToolPattern) (action : string) : bool :=
  existsb
    (fun patternAction =>
       JS.includes (JS.toLowerCase patternAction) (JS.toLowerCase action)
       || JS.includes (JS.toLowerCase action) (JS.toLowerCase patternAction))
    (pattern_actions pattern).

(** The two [for] loops of [selectToolPatterns]: what is pushed onto
    [selectedPatterns]. *)
Definition matchedPatterns (analysis : Analysis) : list ToolPattern :=
  let categories := JS.or_nil (toolCategories analysis) in
  let actions := JS.or_nil (primaryActions analysis) in
  flat_map
    (fun category =>
       List.filter
         (fun pattern =>
            String.eqb (category_name (pattern_category pattern)) category)
         Patterns.TOOL_PATTERNS)
    categories
  ++ flat_map
       (fun action =>
          List.filter (fun pattern => action_matches pattern action)
                      Patterns.TOOL_PATTERNS)
       actions.

(** The tail of [selectToolPatterns], from "Remove duplicates" on.  The
    catalog is a non-empty constant, so [TOOL_PATTERNS[0]] is its head. *)
Definition limitPatterns (selectedPatterns : list ToolPattern)
    : list ToolPattern :=
  let uniquePatterns := uniqueBy pattern_id selectedPatterns in
  let uniquePatterns :=
    if Nat.eqb (List.length uniquePatterns) 0
    then uniquePatterns ++ firstn 1 Patterns.TOOL_PATTERNS
    else uniquePatterns in
  JS.slice 5 uniquePatterns.

Definition selectToolPatterns (analysis : Analysis) : list ToolPattern :=
  limitPatterns (matchedPatterns analysis).

Definition limitIntegrations (selectedIntegrations : list IntegrationConfig)
    : list IntegrationConfig :=
  JS.slice 3 (uniqueBy integration_id selectedIntegrations).

Definition generateServerName (analysis : Analysis) : string :=
  let summary := JS.or_else (summary analysis) "MCP Server" in
  let words := JS.slice 3 (JS.split " " summary) in
  let is_hyphen := Ascii.eqb "-" in
  let strip_leading s :=
    match s with
    | String c r => if is_hyphen c then r else s
    | EmptyString => s
    end in
  let strip_trailing :=
    fix strip (s : string) : string :=
      match s with
      | EmptyString => EmptyString
      | String c EmptyString => if is_hyphen c then EmptyString else s
      | String c r => String c (strip r)
      end in
  strip_trailing
    (strip_leading
       (JS.replace_runs is_hyphen "-"
          (JS.filter_chars
             (fun c => JS.is_lower c || JS.is_digit c || is_hyphen c)
             (JS.toLowerCase (JS.join "-" words)))))
  +:+ "-mcp-server".

Definition calculateDependencies (patterns : list ToolPattern)
    (integrations : list IntegrationConfig) : list string :=
  let dependencies : JS.StringSet := [] in
  let dependencies := JS.Set_add dependencies "@modelcontextprotocol/sdk" in
  let dependencies := JS.Set_add dependencies "zod" in
  let dependencies :=
    fold_left
      (fun deps pattern =>
         fold_left JS.Set_add (pattern_dependencies pattern) deps)
      patterns dependencies in
  let dependencies :=
    fold_left
      (fun deps integration =>
         fold_left JS.Set_add (integration_dependencies integration) deps)
      integrations dependencies in
  JS.Array_from dependencies.

Definition envKey (integration : IntegrationConfig) (key : string) : string :=
  JS.toUpperCase (integration_id integration) +:+ "_" +:+ JS.toUpperCase key.

Definition envValue (integration : IntegrationConfig) (key : string)
    (p : SchemaProperty) : string :=
  JS.or_else (prop_description p)
             (integration_displayName integration +:+ " " +:+ key).

Definition generateEnvironmentVariables
    (integrations : list IntegrationConfig) : gmap string string :=
  fold_left
    (fun envVars integration =>
       let schema := integration_configSchema integration in
       match schema_properties schema with
       | Some properties =>
           fold_left
             (fun (envVars : gmap string string) entry =>
                let '(key, p) := entry in
                <[envKey integration key := envValue integration key p]>
                  envVars)
             properties envVars
       | None => envVars
       end)
    integrations (∅ : gmap string string).

(** Reading a member of [null] raises this [TypeError]; it is the first
    thing [selectToolPatterns] does. *)
Definition null_member_error : string :=
  "Cannot read properties of null (reading 'toolCategories')".

(** The first [for] loop of [selectIntegrations]: what the suggested ids
    push onto [selectedIntegrations]. *)
Definition suggestedMatches (analysis : Analysis) : list IntegrationConfig :=
  let suggested := JS.or_nil (suggestedIntegrations analysis) in
  flat_map
    (fun integrationId =>
       match List.find
               (fun i => String.eqb (integration_id i) integrationId)
               Integrations.INTEGRATIONS with
       | Some integration => [integration]
       | None => []
       end)
    suggested.

Section Resolver.

(** Line 4 imports [findIntegrations] from [./integrations].  That module,
    [packages/core/src/integrations.ts], exports [INTEGRATIONS],
    [findMatchingIntegrations], [getIntegrationById], [getAllIntegrations]
    and [getIntegrationsByAuthType], and nothing called [findIntegrations]:
    the imported binding is [undefined], and the call in the second loop
    of [selectIntegrations] raises a [TypeError].  [not_a_function] is the
    message of that error, whose wording is the engine's (it names the
    callee the way the compiled module writes it). *)
Variable not_a_function : string.

(** [this.openai] *)
Variable openai : OpenAI.

(** The result is [inl message] when the method throws an error with that
    message: the second loop calls [findIntegrations] for the first
    service, if there is one. *)
Definition selectIntegrations (analysis : Analysis)
    : string + list IntegrationConfig :=
  let serviceNames := JS.or_nil (services analysis) in
  let selectedIntegrations := suggestedMatches analysis in
  match serviceNames with
  | [] => inr (limitIntegrations selectedIntegrations)
  | service :: _ => inl not_a_function
  end.

Definition analyzeRequiredTools (description : string) : M AnalysisValue :=
  let* response := request (AnalysisRequest description)
                      (fun w => analysis_reply openai w description)
                      openai in
  match response with
  | Some parsed => ret parsed
  | None => ret (AnalysisObject (createFallbackAnalysis description))
  end.

Definition generateCustomTool (analysis : Analysis) (pattern : ToolPattern)
    : M (option GeneratedTool) :=
  let* response := request (ToolRequest analysis pattern)
                      (fun w => tool_reply openai w analysis pattern)
                      openai in
  match response with
  | None => ret None
  | Some toolData =>
      let* t := Date_now in
      ret (Some {|
        tool_id := pattern_id pattern +:+ "_" +:+ JS.number_to_string t;
        tool_patternId := pattern_id pattern;
        tool_name := data_name toolData;
        tool_description := data_description toolData;
        tool_inputSchema := data_inputSchema toolData;
        tool_outputSchema := data_outputSchema toolData;
        tool_implementation := data_implementation toolData;
        tool_dependencies := pattern_dependencies pattern
      |})
  end.

(** The [for] loop of [generateCustomTools], [customTools] being the
    array built so far. *)
Fixpoint generateCustomTools_from (customTools : list GeneratedTool)
    (analysis : Analysis) (patterns : list ToolPattern)
    : M (list GeneratedTool) :=
  match patterns with
  | [] => ret customTools
  | pattern :: rest =>
      let* customTool := generateCustomTool analysis pattern in
      generateCustomTools_from
        (match customTool with
         | Some tool => customTools ++ [tool]
         | None => customTools
         end)
        analysis rest
  end.

Definition generateCustomTools (analysis : Analysis)
    (patterns : list ToolPattern) : M (list GeneratedTool) :=
  generateCustomTools_from [] analysis patterns.

(** The result is [inl message] when the method throws
    [new Error(message)]. *)
Definition generateServerConfig (description : string)
    : M (string + ServerConfig) :=
  let* parsed := analyzeRequiredTools description in
  match parsed with
  | AnalysisNull =>
      ret (inl ("AI Generation failed: " +:+ null_member_error))
  | AnalysisObject analysis =>
      let toolPatterns := selectToolPatterns analysis in
      match selectIntegrations analysis with
      | inl message => ret (inl ("AI Generation failed: " +:+ message))
      | inr integrations =>
          let* customTools := generateCustomTools analysis toolPatterns in
          let* t := Date_now in
          ret (inr {|
            config_name := generateServerName analysis;
            config_description := JS.or_else (summary analysis) description;
            config_patterns := toolPatterns;
            config_integrations := integrations;
            config_customTools := customTools;
            config_dependencies :=
              calculateDependencies toolPatterns integrations;
            config_environmentVariables :=
              generateEnvironmentVariables integrations;
            config_metadata := {|
              generatedAt := toISOString openai t;
              aiAnalysis := analysis;
              originalDescription := description
            |}
          |})
      end
  end.

End Resolver.

End AIGenerator.

(** ** Configuration types of the core package

    [index.ts] and the template engine share the [ServerConfig],
    [GeneratedTool] and [IntegrationConfig] interfaces that the engine also
    prints into the generated [types.ts]. *)

Module Core.

Record MethodParameter : Type := {
  parameter_name : string;
  parameter_type : string
}.

Record Method : Type := {
  method_name : string;
  method_description : string;
  method_parameters : option (list MethodParameter);
  method_returnType : string;
  method_implementation : option string
}.

Record GeneratedTool : Type := {
  tool_name : string;
  tool_description : string;
  tool_inputSchema : option JSON;
  tool_implementation : option string
}.

Record IntegrationConfig : Type := {
  integration_name : string;
  integration_description : string;
  integration_envVars : option (list string);
  integration_methods : option (list Method)
}.

Record ServerConfig : Type := {
  name : string;
  description : string;
  dependencies : list string;
  customTools : list GeneratedTool;
  integrations : list IntegrationConfig
}.

End Core.

(** ** The [TemplateEngine] class *)

Module TemplateEngine.
Import Core.

(** *** Naming helpers *)

Definition is_separator (c : ascii) : bool :=
  Ascii.eqb c "-" || Ascii.eqb c "_" || JS.is_space c.

(** [str.replace(/[-_\s]+(.)?/g, (_, c) => (c ? c.toUpperCase() : ''))] *)
Fixpoint capitalize_after_separators (s : string) : string :=
  match s with
  | EmptyString => EmptyString
  | String c s' =>
      if is_separator c then
        match s' with
        | String c' rest =>
            if is_separator c' then capitalize_after_separators s'
            else String (JS.upper_char c') (capitalize_after_separators rest)
        | EmptyString => EmptyString
        end
      else String c (capitalize_after_separators s')
  end.

Definition map_first (f : ascii -> ascii) (s : string) : string :=
  match s with
  | String c s' => String (f c) s'
  | EmptyString => EmptyString
  end.

Definition camelCase (str : string) : string :=
  map_first JS.lower_char (capitalize_after_separators str).

Definition pascalCase (str : string) : string :=
  map_first JS.upper_char (capitalize_after_separators str).

Definition kebabCase (str : string) : string :=
  JS.toLowerCase
    (JS.replace_runs (fun c => JS.is_space c || Ascii.eqb c "_") "-"
       (JS.split_humps "-" str)).

Definition constantCase (str : string) : string :=
  JS.toUpperCase
    (JS.replace_runs (fun c => Ascii.eqb c "-" || JS.is_space c) "_"
       (JS.split_humps "_" str)).

(** *** Handlebars

    The template texts are constants of the class; the Handlebars
    library expands one of them against a context object, calling the
    registered helpers. *)
Inductive Template : Type :=
| ServerIndexTemplate
| ToolsIndexTemplate
| ReadmeTemplate
| ToolFileTemplate
| IntegrationFileTemplate
| TypesFileTemplate.

Inductive Context : Type :=
| ConfigContext (config : ServerConfig)
| ToolContext (tool : GeneratedTool) (integrations : list IntegrationConfig)
| IntegrationContext (integration : IntegrationConfig).

Record Helpers : Type := {
  helper_camelCase : string -> string;
  helper_pascalCase : string -> string;
  helper_kebabCase : string -> string;
  helper_constantCase : string -> string;
  helper_stringify : JSON -> string
}.

(** *** The output directory

    Paths are strings; [path.join] glues its arguments with [/].  The
    file system maps full paths to file contents and remembers the
    directories made by [fs.ensureDir].  Input/output failures, which the
    engine passes on to its caller untouched, are outside the model: a
    write always lands. *)
Record FileSystem : Type := {
  dirs : gset string;
  files : gmap string string
}.

Definition empty_fs : FileSystem := {| dirs := ∅; files := ∅ |}.

Definition path_join (segments : list string) : string :=
  JS.join "/" segments.

Definition ensureDir (path : string) (fs : FileSystem) : FileSystem :=
  {| dirs := {[ path ]} ∪ dirs fs; files := files fs |}.

Definition writeFile (path content : string) (fs : FileSystem) : FileSystem :=
  {| dirs := dirs fs; files := <[ path := content ]> (files fs) |}.

Definition newline : string := String (ascii_of_nat 10) EmptyString.

(** [obj[key] = value] on a plain object. *)
Fixpoint object_set (obj : list (string * JSON)) (key : string) (value : JSON)
    : list (string * JSON) :=
  match obj with
  | [] => [(key, value)]
  | (k, v) :: rest =>
      if String.eqb k key then (k, value) :: rest
      else (k, v) :: object_set rest key value
  end.

Section Engine.

(** [Handlebars.create().compile(template)(context)], given the helper
    table, and [JSON.stringify(value, null, 2)]. *)
Variable handlebars : Helpers -> Template -> Context -> string.
Variable JSON_stringify : JSON -> string.

(** [registerHelpers] *)
Definition helpers : Helpers := {|
  helper_camelCase := camelCase;
  helper_pascalCase := pascalCase;
  helper_kebabCase := kebabCase;
  helper_constantCase := constantCase;
  helper_stringify := JSON_stringify
|}.

Definition compiled (template : Template) (context : Context) : string :=
  handlebars helpers template context.

Definition generateServerIndex (config : ServerConfig) (outputDir : string)
    (fs : FileSystem) : FileSystem :=
  let result := compiled ServerIndexTemplate (ConfigContext config) in
  writeFile (path_join [outputDir; "src"; "index.ts"]) result fs.

(** The object literal [packageJson]. *)
Definition packageJson (config : ServerConfig) : JSON :=
  JObj [("name", JStr (name config));
        ("version", JStr "1.0.0");
        ("description", JStr (description config));
        ("type", JStr "module");
        ("main", JStr "dist/index.js");
        ("scripts",
         JObj [("build", JStr "tsc");
               ("dev", JStr "tsc --watch");
               ("start", JStr "node dist/index.js");
               ("clean", JStr "rm -rf dist")]);
        ("dependencies",
         JObj (fold_left
                 (fun acc dep => object_set acc dep (JStr "latest"))
                 (dependencies config) []));
        ("devDependencies",
         JObj [("@types/node", JStr "^20.0.0");
               ("typescript", JStr "^5.0.0")])].

Definition generatePackageJson (config : ServerConfig) (outputDir : string)
    (fs : FileSystem) : FileSystem :=
  writeFile (path_join [outputDir; "package.json"])
            (JSON_stringify (packageJson config)) fs.

(** The object literal [tsConfig]. *)
Definition tsConfig : JSON :=
  JObj [("compilerOptions",
         JObj [("target", JStr "ES2020");
               ("module", JStr "ES2020");
               ("moduleResolution", JStr "node");
               ("esModuleInterop", JBool true);
               ("allowSyntheticDefaultImports", JBool true);
               ("strict", JBool true);
               ("skipLibCheck", JBool true);
               ("forceConsistentCasingInFileNames", JBool true);
               ("outDir", JStr "./dist");
               ("rootDir", JStr "./src");
               ("declaration", JBool true);
               ("sourceMap", JBool true)]);
        ("include", JArr [JStr "src/**/*"]);
        ("exclude", JArr [JStr "node_modules"; JStr "dist"])].

Definition generateTsConfig (outputDir : string) (fs : FileSystem)
    : FileSystem :=
  writeFile (path_join [outputDir; "tsconfig.json"])
            (JSON_stringify tsConfig) fs.

Definition generateToolsIndex (config : ServerConfig) (outputDir : string)
    (fs : FileSystem) : FileSystem :=
  let result := compiled ToolsIndexTemplate (ConfigContext config) in
  writeFile (path_join [outputDir; "src"; "tools"; "index.ts"]) result fs.

(** The template literal [envContent]. *)
Definition envContent (config : ServerConfig) : string :=
  let envVars :=
    JS.join newline
      (map (fun envVar => envVar +:+ "=")
           (flat_map
              (fun integration => JS.or_nil (integration_envVars integration))
              (integrations config))) in
  "# Environment variables for " +:+ name config +:+ newline
  +:+ "# Copy this file to .env and fill in your values" +:+ newline
  +:+ newline
  +:+ envVars +:+ newline.

Definition generateEnvFile (config : ServerConfig) (outputDir : string)
    (fs : FileSystem) : FileSystem :=
  writeFile (path_join [outputDir; ".env.example"]) (envContent config) fs.

Definition generateReadme (config : ServerConfig) (outputDir : string)
    (fs : FileSystem) : FileSystem :=
  let result := compiled ReadmeTemplate (ConfigContext config) in
  writeFile (path_join [outputDir; "README.md"]) result fs.

Definition generateToolFile (tool : GeneratedTool) (config : ServerConfig)
    (outputDir : string) (fs : FileSystem) : FileSystem :=
  let result :=
    compiled ToolFileTemplate (ToolContext tool (integrations config)) in
  let fileName := kebabCase (tool_name tool) +:+ ".ts" in
  writeFile (path_join [outputDir; "src"; "tools"; fileName]) result fs.

Definition generateToolFiles (config : ServerConfig) (outputDir : string)
    (fs : FileSystem) : FileSystem :=
  fold_left (fun fs tool => generateToolFile tool config outputDir fs)
            (customTools config) fs.

Definition generateIntegrationFile (integration : IntegrationConfig)
    (outputDir : string) (fs : FileSystem) : FileSystem :=
  let result :=
    compiled IntegrationFileTemplate (IntegrationContext integration) in
  let fileName := kebabCase (integration_name integration) +:+ ".ts" in
  writeFile (path_join [outputDir; "src"; "integrations"; fileName])
            result fs.

Definition generateIntegrationFiles (config : ServerConfig)
    (outputDir : string) (fs : FileSystem) : FileSystem :=
  fold_left
    (fun fs integration => generateIntegrationFile integration outputDir fs)
    (integrations config) fs.

Definition generateTypesFile (config : ServerConfig) (outputDir : string)
    (fs : FileSystem) : FileSystem :=
  let result := compiled TypesFileTemplate (ConfigContext config) in
  writeFile (path_join [outputDir; "src"; "types.ts"]) result fs.

Definition generateServer (config : ServerConfig) (outputDir : string)
    (fs : FileSystem) : FileSystem :=
  let fs := ensureDir outputDir fs in
  let fs := ensureDir (path_join [outputDir; "src"]) fs in
  let fs := ensureDir (path_join [outputDir; "src"; "tools"]) fs in
  let fs := ensureDir (path_join [outputDir; "src"; "integrations"]) fs in
  let fs := generateServerIndex config outputDir fs in
  let fs := generatePackageJson config outputDir fs in
  let fs := generateTsConfig outputDir fs in
  let fs := generateToolsIndex config outputDir fs in
  let fs := generateEnvFile config outputDir fs in
  let fs := generateReadme config outputDir fs in
  let fs := generateToolFiles config outputDir fs in
  let fs := generateIntegrationFiles config outputDir fs in
  generateTypesFile config outputDir fs.

End Engine.

End TemplateEngine.

(** ** The [MCPServerGenerator] class of [index.ts] *)

Module MCPServerGenerator.
Import Core.

Definition dquote : string := String (ascii_of_nat 34) EmptyString.

(** The class [[^a-zA-Z0-9\s-_]] keeps letters, digits, white space,
    hyphens and underscores. *)
Definition sanitizeName (name : string) : string :=
  JS.toLowerCase
    (JS.replace_runs JS.is_space "-"
       (JS.filter_chars
          (fun c =>
             JS.is_lower c || JS.is_upper c || JS.is_digit c
             || JS.is_space c || Ascii.eqb c "-" || Ascii.eqb c "_")
          (JS.trim name))).

Definition createBasicConfig (name description : string) : ServerConfig := {|
  name := sanitizeName name;
  description := description;
  dependencies := ["@modelcontextprotocol/sdk"; "zod"];
  customTools := [];
  integrations := []
|}.

Definition addTool (config : ServerConfig) (tool : GeneratedTool)
    : ServerConfig := {|
  name := name config;
  description := description config;
  dependencies := dependencies config;
  customTools := customTools config ++ [tool];
  integrations := integrations config
|}.

Definition addIntegration (config : ServerConfig)
    (integration : IntegrationConfig) : ServerConfig := {|
  name := name config;
  description := description config;
  dependencies := dependencies config;
  customTools := customTools config;
  integrations := integrations config ++ [integration]
|}.

Definition addDependency (config : ServerConfig) (dependency : string)
    : ServerConfig := {|
  name := name config;
  description := description config;
  dependencies :=
    JS.Array_from (JS.Set_of (dependencies config ++ [dependency]));
  customTools := customTools config;
  integrations := integrations config
|}.

(** [!s?.trim()] *)
Definition blank (s : string) : bool := negb (JS.truthy (JS.trim s)).

(** [!value] on a parsed JSON value that may be absent. *)
Definition JSON_falsy (value : option JSON) : bool :=
  match value with
  | None => true
  | Some JNull => true
  | Some (JBool b) => negb b
  | Some (JNum n) => Z.eqb n 0
  | Some (JStr s) => negb (JS.truthy s)
  | Some (JArr _) => false
  | Some (JObj _) => false
  end.

Definition when (condition : bool) (message : string) : list string :=
  if condition then [message] else [].

(** The body of [config.customTools.forEach((tool, index) => ...)]. *)
Definition validateTool (index : nat) (tool : GeneratedTool) : list string :=
  when (blank (tool_name tool))
       ("Tool at index " +:+ JS.number_to_string (Z.of_nat index)
        +:+ " is missing a name")
  ++ when (blank (tool_description tool))
          ("Tool " +:+ dquote +:+ tool_name tool +:+ dquote
           +:+ " is missing a description")
  ++ when (JSON_falsy (tool_inputSchema tool))
          ("Tool " +:+ dquote +:+ tool_name tool +:+ dquote
           +:+ " is missing input schema").

(** The body of [config.integrations.forEach((integration, index) => ...)];
    the duplicate checks sit inside this callback. *)
Definition validateIntegration (config : ServerConfig) (index : nat)
    (integration : IntegrationConfig) : list string :=
  let toolNames := map (fun t => JS.toLowerCase (tool_name t))
                       (customTools config) in
  let integrationNames :=
    map (fun i => JS.toLowerCase (integration_name i))
        (integrations config) in
  when (blank (integration_name integration))
       ("Integration at index " +:+ JS.number_to_string (Z.of_nat index)
        +:+ " is missing a name")
  ++ when (blank (integration_description integration))
          ("Integration " +:+ dquote +:+ integration_name integration
           +:+ dquote +:+ " is missing a description")
  ++ when (negb (Nat.eqb (List.length toolNames)
                         (JS.Set_size (JS.Set_of toolNames))))
          "Duplicate tool names detected"
  ++ when (negb (Nat.eqb (List.length integrationNames)
                         (JS.Set_size (JS.Set_of integrationNames))))
          "Duplicate integration names detected".

Definition validateConfig (config : ServerConfig) : list string :=
  when (blank (name config)) "Server name is required"
  ++ when (blank (description config)) "Server description is required"
  ++ concat (imap validateTool (customTools config))
  ++ concat (imap (validateIntegration config) (integrations config)).

(** [Object.keys(value)]: the property names of an object, the indices of
    an array or of a string, nothing for a number or a boolean; on [null]
    it raises a [TypeError], which is [None] here. *)
Definition Object_keys (value : JSON) : option (list string) :=
  let indices n := map (fun i => JS.number_to_string (Z.of_nat i)) (seq 0 n) in
  match value with
  | JNull => None
  | JBool _ => Some []
  | JNum _ => Some []
  | JStr s => Some (indices (String.length s))
  | JArr items => Some (indices (List.length items))
  | JObj fields => Some (map fst fields)
  end.

(** [None] when [Object.keys] raises. *)
Definition createTool (name description : string) (inputSchema : JSON)
    (implementation : option string) : option GeneratedTool :=
  match Object_keys inputSchema with
  | None => None
  | Some keys =>
      Some {|
        tool_name := sanitizeName name;
        tool_description := description;
        tool_inputSchema :=
          Some (JObj [("type", JStr "object");
                      ("properties", inputSchema);
                      ("required", JArr (map JStr keys))]);
        tool_implementation := implementation
      |}
  end.

Definition createIntegration (name description : string)
    (envVars : option (list string)) (methods : option (list Method))
    : IntegrationConfig := {|
  integration_name := sanitizeName name;
  integration_description := description;
  integration_envVars := envVars;
  integration_methods := methods
|}.

(** The [options] argument of [generateMCPServer]. *)
Record Options : Type := {
  options_tools : option (list GeneratedTool);
  options_integrations : option (list IntegrationConfig);
  options_dependencies : option (list string)
}.

(** The configuration [generateMCPServer] builds before it renders. *)
Definition buildConfig (name description : string) (options : Options)
    : ServerConfig :=
  let config := createBasicConfig name description in
  let config :=
    match options_tools options with
    | Some tools => fold_left addTool tools config
    | None => config
    end in
  let config :=
    match options_integrations options with
    | Some selected => fold_left addIntegration selected config
    | None => config
    end in
  match options_dependencies options with
  | Some deps => fold_left addDependency deps config
  | None => config
  end.

Section Generator.

Variable handlebars :
  TemplateEngine.Helpers -> TemplateEngine.Template ->
  TemplateEngine.Context -> string.
Variable JSON_stringify : JSON -> string.

(** Console output aside, [generateServer] hands over to the template
    engine. *)
Definition generateServer (config : ServerConfig) (outputDir : string)
    (fs : TemplateEngine.FileSystem) : TemplateEngine.FileSystem :=
  TemplateEngine.generateServer handlebars JSON_stringify config outputDir fs.

(** [inl message] when the method throws [new Error(message)]. *)
Definition generateValidatedServer (config : ServerConfig)
    (outputDir : string) (fs : TemplateEngine.FileSystem)
    : string + TemplateEngine.FileSystem :=
  let errors := validateConfig config in
  if Nat.ltb 0 (List.length errors)
  then inl ("Configuration validation failed:" +:+ TemplateEngine.newline
            +:+ JS.join TemplateEngine.newline errors)
  else inr (generateServer config outputDir fs).

Definition generateMCPServer (name description outputDir : string)
    (options : Options) (fs : TemplateEngine.FileSystem)
    : string + TemplateEngine.FileSystem :=
  generateValidatedServer (buildConfig name description options) outputDir fs.

End Generator.

End MCPServerGenerator.

(** ** Reference definitions

    Specification-side notions that the statements below compare the code
    with. *)

Module Reference.

(** Keep, from left to right, the first entry of every [id] that is not
    among [seen]. *)
Fixpoint firsts {A} (id : A -> string) (seen : list string) (xs : list A)
    : list A :=
  match xs with
  | [] => []
  | x :: rest =>
      (if existsb (fun s => String.eqb s (id x)) seen then [] else [x])
      ++ firsts id (seen ++ [id x]) rest
  end.

(** The resolver returned [cfg] for [description], started in world [w]. *)
Definition resolved (not_a_function : string)
    (openai : AIGenerator.OpenAI) (description : string)
    (w : AIGenerator.World) (cfg : AIGenerator.ServerConfig) : Prop :=
  fst (AIGenerator.generateServerConfig not_a_function openai description w)
  = inr cfg.

(** The resolver threw an error with [message]. *)
Definition raised (not_a_function : string)
    (openai : AIGenerator.OpenAI) (description : string)
    (w : AIGenerator.World) (message : string) : Prop :=
  fst (AIGenerator.generateServerConfig not_a_function openai description w)
  = inl message.

(** The fallback analysis of [description] names a service: the text
    mentions [github] or [slack]. *)
Definition names_a_service (description : string) : bool :=
  JS.includes (JS.toLowerCase description) "github"
  || JS.includes (JS.toLowerCase description) "slack".

(** The message of V8 for the call of an undefined plain name. *)
Definition call_error : string := "findIntegrations is not a function".

(** A chat service that never answers. *)
Definition offline : AIGenerator.OpenAI := {|
  AIGenerator.analysis_reply := fun _ _ => None;
  AIGenerator.tool_reply := fun _ _ _ => None;
  AIGenerator.elapsed := fun _ _ => 1%Z;
  AIGenerator.toISOString := JS.number_to_string
|}.

(** A chat service whose analysis is unavailable and that answers every
    per-pattern request with the same tool. *)
Definition repetitive : AIGenerator.OpenAI := {|
  AIGenerator.analysis_reply := fun _ _ => None;
  AIGenerator.tool_reply := fun _ _ _ =>
    Some {| AIGenerator.data_name := "notify";
            AIGenerator.data_description := "Send a notification";
            AIGenerator.data_inputSchema := JObj [("type", JStr "object")];
            AIGenerator.data_outputSchema := JObj [("type", JStr "object")];
            AIGenerator.data_implementation := "return {};" |};
  AIGenerator.elapsed := fun _ _ => 1%Z;
  AIGenerator.toISOString := JS.number_to_string
|}.

Definition boot : AIGenerator.World :=
  {| AIGenerator.sent := []; AIGenerator.now := 1700000000000%Z |}.

(** Scenario A of the specification. *)
Definition scenarioA : string :=
  "send Slack notifications when a GitHub issue is created".

(** A description that names no service. *)
Definition report_request : string := "upload the sql dump and email me".

(** Scenario B of the specification: seven patterns with pairwise distinct
    ids (the catalog and one more), and five catalog integrations. *)
Definition seven_patterns : list ToolPattern :=
  Patterns.TOOL_PATTERNS
  ++ [ {| pattern_id := "cache-store";
          pattern_name := "Cache Store Tool";
          pattern_category := processing;
          pattern_description := "Store and fetch cached values";
          pattern_actions := ["cache"; "evict"];
          pattern_dependencies := ["lru-cache"];
          pattern_examples := None |} ].

Definition five_integrations : list IntegrationConfig :=
  firstn 5 Integrations.INTEGRATIONS.

(** The local keyword table of the fallback analysis, as the specification
    gives it: each row lists the substrings that trigger it and the
    category it contributes. *)
Definition keyword_table : list (list string * string) :=
  [(["github"], "api");
   (["slack"], "notification");
   (["database"; "sql"], "database");
   (["file"; "upload"], "file");
   (["email"], "notification")].

(** The categories the table yields for a description: those of the rows
    with a trigger occurring in the case-folded text, or [api] when no row
    fires. *)
Definition table_categories (description : string) : list string :=
  let text := JS.toLowerCase description in
  let hits :=
    map snd
      (List.filter (fun row => existsb (JS.includes text) (fst row))
                   keyword_table) in
  match hits with
  | [] => ["api"]
  | _ :: _ => hits
  end.

(** The entries [generateEnvironmentVariables] writes, in writing order. *)
Definition envEntries (integrations : list IntegrationConfig)
    : list (string * string) :=
  flat_map
    (fun integration =>
       match schema_properties (integration_configSchema integration) with
       | Some properties =>
           map (fun entry : string * SchemaProperty =>
                  (AIGenerator.envKey integration (fst entry),
                   AIGenerator.envValue integration (fst entry) (snd entry)))
               properties
       | None => []
       end)
    integrations.

Definition write_entry (envVars : gmap string string)
    (entry : string * string) : gmap string string :=
  <[fst entry := snd entry]> envVars.

(** [t] occurs in [s] as a contiguous substring. *)
Definition occurs_in (t s : string) : Prop :=
  exists pre post, s = pre +:+ t +:+ post.

(** The matcher as the specification words it: containment in either
    direction, after case folding, against every listed member. *)
Definition contains_either_way (candidate keyword : string) : bool :=
  JS.includes (JS.toLowerCase candidate) (JS.toLowerCase keyword)
  || JS.includes (JS.toLowerCase keyword) (JS.toLowerCase candidate).

Definition spec_pattern_match (keywords : list string) (p : ToolPattern) : bool :=
  existsb
    (fun keyword =>
       existsb (fun action => contains_either_way action keyword)
               (pattern_actions p)
       || existsb (fun example => contains_either_way example keyword)
                  (JS.or_nil (pattern_examples p))
       || contains_either_way (category_name (pattern_category p)) keyword)
    keywords.

Definition spec_integration_match (keywords : list string)
    (i : IntegrationConfig) : bool :=
  existsb
    (fun keyword =>
       contains_either_way (integration_id i) keyword
       || contains_either_way (integration_name i) keyword
       || contains_either_way (integration_displayName i) keyword
       || contains_either_way (integration_description i) keyword)
    keywords.

Definition spec_findPatterns (keywords actions : list string)
    : list ToolPattern :=
  List.filter (spec_pattern_match (keywords ++ actions)) Patterns.TOOL_PATTERNS.

Definition spec_findIntegrations (keywords : list string)
    : list IntegrationConfig :=
  List.filter (spec_integration_match keywords) Integrations.INTEGRATIONS.

(** Scenario D of the specification. *)
Definition weather_tool (name : string) : Core.GeneratedTool := {|
  Core.tool_name := name;
  Core.tool_description := "Current weather for a city";
  Core.tool_inputSchema :=
    Some (JObj [("type", JStr "object");
                ("properties", JObj [("city", JObj [("type", JStr "string")])]);
                ("required", JArr [JStr "city"])]);
  Core.tool_implementation := None
|}.

Definition weather_config : Core.ServerConfig :=
  MCPServerGenerator.createBasicConfig "Weather Server" "Weather tools".

Definition weather_integration : Core.IntegrationConfig := {|
  Core.integration_name := "open-meteo";
  Core.integration_description := "Forecast service";
  Core.integration_envVars := Some ["METEO_KEY"];
  Core.integration_methods := None
|}.

(** A path below the output directory. *)
Definition under (outputDir relative : string) : string :=
  outputDir +:+ "/" +:+ relative.

(** The files of a rendered project, by path relative to the output
    directory, in writing order. *)
Definition relative_files
    (handlebars : TemplateEngine.Helpers -> TemplateEngine.Template ->
                  TemplateEngine.Context -> string)
    (JSON_stringify : JSON -> string) (config : Core.ServerConfig)
    : list (string * string) :=
  let compiled := TemplateEngine.compiled handlebars JSON_stringify in
  [("src/index.ts",
    compiled TemplateEngine.ServerIndexTemplate
             (TemplateEngine.ConfigContext config));
   ("package.json", JSON_stringify (TemplateEngine.packageJson config));
   ("tsconfig.json", JSON_stringify TemplateEngine.tsConfig);
   ("src/tools/index.ts",
    compiled TemplateEngine.ToolsIndexTemplate
             (TemplateEngine.ConfigContext config));
   (".env.example", TemplateEngine.envContent config);
   ("README.md",
    compiled TemplateEngine.ReadmeTemplate
             (TemplateEngine.ConfigContext config))]
  ++ map (fun tool =>
            ("src/tools/" +:+ TemplateEngine.kebabCase (Core.tool_name tool)
             +:+ ".ts",
             compiled TemplateEngine.ToolFileTemplate
                      (TemplateEngine.ToolContext
                         tool (Core.integrations config))))
         (Core.customTools config)
  ++ map (fun integration =>
            ("src/integrations/"
             +:+ TemplateEngine.kebabCase (Core.integration_name integration)
             +:+ ".ts",
             compiled TemplateEngine.IntegrationFileTemplate
                      (TemplateEngine.IntegrationContext integration)))
         (Core.integrations config)
  ++ [("src/types.ts",
       compiled TemplateEngine.TypesFileTemplate
                (TemplateEngine.ConfigContext config))].

(** The rendered tree: a later write to a path replaces an earlier one. *)
Definition relative_tree
    (handlebars : TemplateEngine.Helpers -> TemplateEngine.Template ->
                  TemplateEngine.Context -> string)
    (JSON_stringify : JSON -> string) (config : Core.ServerConfig)
    : gmap string string :=
  fold_left write_entry (relative_files handlebars JSON_stringify config) ∅.

Definition relative_folders : gset string :=
  {[ "src"; "src/tools"; "src/integrations" ]}.

(** The message [validateConfig] files for repeated tool names. *)
Definition duplicate_tools : string := "Duplicate tool names detected".

(** Every character of [s] satisfies [P]. *)
Fixpoint all_chars (P : ascii -> bool) (s : string) : bool :=
  match s with
  | EmptyString => true
  | String c s' => P c && all_chars P s'
  end.

(** No two neighbouring characters of [s] are both in the class [cls]. *)
Fixpoint no_adjacent (cls : ascii -> bool) (s : string) : bool :=
  match s with
  | EmptyString => true
  | String c s' =>
      match s' with
      | EmptyString => true
      | String c' _ => negb (cls c && cls c') && no_adjacent cls s'
      end
  end.

Definition first_char (s : string) : option ascii :=
  match s with
  | EmptyString => None
  | String c _ => Some c
  end.

Fixpoint last_char (s : string) : option ascii :=
  match s with
  | EmptyString => None
  | String c EmptyString => Some c
  | String _ s' => last_char s'
  end.

(** The characters a generated server name is made of. *)
Definition name_char (c : ascii) : bool :=
  JS.is_lower c || JS.is_digit c || Ascii.eqb "-" c.

(** The characters [sanitizeName] lets through. *)
Definition slug_char (c : ascii) : bool :=
  JS.is_lower c || JS.is_digit c || Ascii.eqb c "-" || Ascii.eqb c "_".

(** The two halves of [/^-|-$/g]: a hyphen at the start, a hyphen at
    the end. *)
Definition strip_leading_hyphen (s : string) : string :=
  match s with
  | String c r => if Ascii.eqb "-" c then r else s
  | EmptyString => s
  end.

Fixpoint strip_trailing_hyphen (s : string) : string :=
  match s with
  | EmptyString => EmptyString
  | String c EmptyString => if Ascii.eqb "-" c then EmptyString else s
  | String c r => String c (strip_trailing_hyphen r)
  end.

(** [value[key]] on a JSON object. *)
Definition member (key : string) (value : JSON) : option JSON :=
  match value with
  | JObj fields =>
      option_map snd (List.find (fun field => String.eqb (fst field) key) fields)
  | _ => None
  end.

(** The value the last entry for [key] carries, if there is one. *)
Fixpoint assoc_last (key : string) (entries : list (string * string))
    : option string :=
  match entries with
  | [] => None
  | (k, v) :: rest =>
      match assoc_last key rest with
      | Some v' => Some v'
      | None => if String.eqb k key then Some v else None
      end
  end.

End Reference.

(** Case analysis on the seven substring tests of the fallback analysis. *)
Ltac fallback_cases description :=
  destruct (JS.includes (JS.toLowerCase description) "github"),
    (JS.includes (JS.toLowerCase description) "slack"),
    (JS.includes (JS.toLowerCase description) "database"),
    (JS.includes (JS.toLowerCase description) "sql"),
    (JS.includes (JS.toLowerCase description) "file"),
    (JS.includes (JS.toLowerCase description) "upload"),
    (JS.includes (JS.toLowerCase description) "email").

(** * Properties *)

(** ** Facts about the primitives *)

Section PrimitiveFacts.

Lemma prefix_app_iff (t s : string) :
  String.prefix t s = true <-> exists post, s = t +:+ post.
Proof.
  revert s. induction t as [|c t IH]; intros s.
  - split; [intros _; exists s; reflexivity | destruct s; reflexivity].
  - destruct s as [|d s]; simpl.
    + split; [discriminate | intros [post Hpost]; discriminate].
    + destruct (ascii_dec c d) as [->|Hne].
      * rewrite IH. split; intros [post Hpost]; exists post.
        -- now rewrite Hpost.
        -- now inversion Hpost.
      * split; [discriminate |].
        intros [post Hpost]. inversion Hpost. congruence.
Qed.

(** [includes] decides occurrence as a contiguous substring. *)
Lemma includes_spec (s t : string) :
  JS.includes s t = true <-> exists pre post, s = pre +:+ t +:+ post.
Proof.
  induction s as [|c s IH]; cbn [JS.includes].
  - rewrite orb_false_r, prefix_app_iff. split.
    + intros [post Hpost]. exists "", post. exact Hpost.
    + intros (pre & post & H). destruct pre; simpl in H.
      * exists post. exact H.
      * discriminate.
  - rewrite orb_true_iff, IH, prefix_app_iff. split.
    + intros [[post Hpost] | (pre & post & Hs)].
      * exists "", post. exact Hpost.
      * exists (String c pre), post. simpl. now rewrite Hs.
    + intros (pre & post & H). destruct pre as [|d pre]; simpl in H.
      * left. exists post. exact H.
      * right. inversion H. exists pre, post. reflexivity.
Qed.

Lemma Set_has_In (s : JS.StringSet) (x : string) :
  JS.Set_has s x = true <-> In x s.
Proof.
  unfold JS.Set_has. rewrite existsb_exists. split.
  - intros (y & Hy & Heq). apply String.eqb_eq in Heq. now subst.
  - intros H. exists x. split; [exact H | apply String.eqb_refl].
Qed.

Lemma Set_add_In (s : JS.StringSet) (x y : string) :
  In y (JS.Set_add s x) <-> In y s \/ y = x.
Proof.
  unfold JS.Set_add. destruct (JS.Set_has s x) eqn:Hhas.
  - apply Set_has_In in Hhas. split; [tauto |].
    intros [H | ->]; assumption.
  - rewrite in_app_iff. simpl. intuition congruence.
Qed.

Lemma Set_add_NoDup (s : JS.StringSet) (x : string) :
  List.NoDup s -> List.NoDup (JS.Set_add s x).
Proof.
  intros Hs. unfold JS.Set_add. destruct (JS.Set_has s x) eqn:Hhas; [exact Hs |].
  assert (Hnot : ~ In x s).
  { intros Hin. apply Set_has_In in Hin. congruence. }
  clear Hhas. induction s as [|y s IH]; simpl.
  - constructor; [intros [] | constructor].
  - inversion Hs as [|? ? Hy Hs']; subst. constructor.
    + rewrite in_app_iff. simpl. intros [H | [H | []]]; [tauto |].
      apply Hnot. left. now symmetry.
    + apply IH; [exact Hs' |]. intros H. apply Hnot. now right.
Qed.

(** Adding a batch of values to a set. *)
Lemma Set_add_all_In (xs : list string) (s : JS.StringSet) (y : string) :
  In y (fold_left JS.Set_add xs s) <-> In y s \/ In y xs.
Proof.
  revert s. induction xs as [|x xs IH]; intros s; simpl.
  - tauto.
  - rewrite IH, Set_add_In. intuition congruence.
Qed.

Lemma Set_add_all_NoDup (xs : list string) (s : JS.StringSet) :
  List.NoDup s -> List.NoDup (fold_left JS.Set_add xs s).
Proof.
  revert s. induction xs as [|x xs IH]; intros s Hs; simpl.
  - exact Hs.
  - apply IH, Set_add_NoDup, Hs.
Qed.

(** The size of [new Set(xs)] is [xs.length] exactly when [xs] has no
    repetition. *)
Lemma Set_add_all_length (xs : list string) (s : JS.StringSet) :
  List.length (fold_left JS.Set_add xs s) <= List.length s + List.length xs.
Proof.
  revert s. induction xs as [|x xs IH]; intros s; simpl.
  - lia.
  - specialize (IH (JS.Set_add s x)). unfold JS.Set_add in *.
    destruct (JS.Set_has s x); [lia |].
    rewrite length_app in IH. simpl in IH. lia.
Qed.

Lemma Set_add_all_length_dup (xs : list string) (s : JS.StringSet) :
  List.NoDup s ->
  List.length (fold_left JS.Set_add xs s) = List.length s + List.length xs
  <-> List.NoDup xs /\ (forall x, In x xs -> ~ In x s).
Proof.
  revert s. induction xs as [|x xs IH]; intros s Hs; simpl.
  - split; [intros _; split; [constructor | intros ? []] | lia].
  - destruct (JS.Set_has s x) eqn:Hhas.
    + assert (Hx : JS.Set_add s x = s) by (unfold JS.Set_add; now rewrite Hhas).
      rewrite Hx. apply Set_has_In in Hhas. split.
      * intros Hlen. pose proof (Set_add_all_length xs s). lia.
      * intros [_ Hfresh]. exfalso. apply (Hfresh x); auto.
    + assert (Hx : JS.Set_add s x = s ++ [x])
        by (unfold JS.Set_add; now rewrite Hhas).
      assert (Hnot : ~ In x s).
      { intros Hin. apply Set_has_In in Hin. congruence. }
      pose proof (Set_add_NoDup s x Hs) as Hs'.
      specialize (IH (JS.Set_add s x) Hs'). rewrite Hx in *.
      rewrite length_app in IH. simpl in IH.
      replace (List.length s + S (List.length xs))
        with (List.length s + 1 + List.length xs) by lia.
      rewrite IH. split.
      * intros [Hnd Hfresh]. split.
        -- constructor; [| exact Hnd]. intros Hin.
           apply (Hfresh x Hin). rewrite in_app_iff. simpl. auto.
        -- intros y [<- | Hy]; [exact Hnot |].
           intros Hin. apply (Hfresh y Hy). rewrite in_app_iff. auto.
      * intros [Hnd Hfresh]. inversion Hnd as [|? ? Hx' Hnd']; subst.
        split; [exact Hnd' |]. intros y Hy.
        rewrite in_app_iff. simpl. intros [Hin | [<- | []]].
        -- apply (Hfresh y); auto.
        -- contradiction.
Qed.

Lemma Set_of_size_NoDup (xs : list string) :
  JS.Set_size (JS.Set_of xs) = List.length xs <-> List.NoDup xs.
Proof.
  unfold JS.Set_size, JS.Set_of.
  pose proof (Set_add_all_length_dup xs [] (List.NoDup_nil _)) as H.
  simpl in H. rewrite H. split; [tauto |].
  intros Hnd. split; [exact Hnd | intros ? _ []].
Qed.

End PrimitiveFacts.

(** ** Deduplication by identifier *)

Section UniqueBy.

Context {A : Type} (id : A -> string).

Lemma existsb_seen (seen : list string) (x : string) :
  existsb (fun s => String.eqb s x) seen = true <-> In x seen.
Proof.
  rewrite existsb_exists. split.
  - intros (y & Hy & Heq). apply String.eqb_eq in Heq. now subst.
  - intros H. exists x. split; [exact H | apply String.eqb_refl].
Qed.

Lemma findIndex_fresh (p : A -> bool) (pre : list A) (x : A) (rest : list A) :
  existsb p pre = false -> p x = true ->
  JS.findIndex p (pre ++ x :: rest) = Some (List.length pre).
Proof.
  induction pre as [|y pre IH]; simpl; intros Hpre Hx.
  - now rewrite Hx.
  - apply orb_false_iff in Hpre as [Hy Hpre].
    rewrite Hy, IH by assumption. reflexivity.
Qed.

Lemma findIndex_seen (p : A -> bool) (pre rest : list A) :
  existsb p pre = true ->
  exists j, JS.findIndex p (pre ++ rest) = Some j /\ j < List.length pre.
Proof.
  induction pre as [|y pre IH]; simpl; intros Hpre; [discriminate |].
  destruct (p y) eqn:Hy.
  - exists 0. split; [reflexivity | lia].
  - simpl in Hpre. destruct (IH Hpre) as (j & Hj & Hlt).
    exists (S j). rewrite Hj. split; [reflexivity | lia].
Qed.

Lemma existsb_map_id (pre : list A) (x : A) :
  existsb (fun p => String.eqb (id p) (id x)) pre
  = existsb (fun s => String.eqb s (id x)) (map id pre).
Proof. induction pre as [|y pre IH]; simpl; [reflexivity | now rewrite IH]. Qed.

Lemma filteri_from_firsts (self pre xs : list A) :
  self = pre ++ xs ->
  JS.filteri_from
    (fun x index =>
       match JS.findIndex (fun p => String.eqb (id p) (id x)) self with
       | Some j => Nat.eqb index j
       | None => false
       end)
    (List.length pre) xs
  = Reference.firsts id (map id pre) xs.
Proof.
  revert pre. induction xs as [|x xs IH]; intros pre Hself; [reflexivity |].
  cbn [JS.filteri_from Reference.firsts].
  specialize (IH (pre ++ [x])).
  rewrite length_app, Nat.add_1_r, map_app in IH. cbn [map] in IH.
  rewrite IH by (rewrite Hself, <- app_assoc; reflexivity).
  rewrite <- existsb_map_id.
  destruct (existsb (fun p => String.eqb (id p) (id x)) pre) eqn:Hpre.
  - destruct (findIndex_seen _ pre (x :: xs) Hpre) as (j & Hj & Hlt).
    rewrite Hself, Hj.
    destruct (Nat.eqb_spec (List.length pre) j); [lia | reflexivity].
  - rewrite Hself, (findIndex_fresh _ pre x xs Hpre (String.eqb_refl _)).
    now rewrite Nat.eqb_refl.
Qed.

(** The [filter]/[findIndex] idiom keeps the first entry of every id. *)
Lemma uniqueBy_firsts (xs : list A) :
  AIGenerator.uniqueBy id xs = Reference.firsts id [] xs.
Proof.
  unfold AIGenerator.uniqueBy, JS.filteri.
  exact (filteri_from_firsts xs [] xs eq_refl).
Qed.

Lemma firsts_In (seen : list string) (xs : list A) (y : A) :
  In y (Reference.firsts id seen xs) -> In y xs /\ ~ In (id y) seen.
Proof.
  revert seen. induction xs as [|x xs IH]; intros seen; simpl; [tauto |].
  rewrite in_app_iff. intros [Hy | Hy].
  - destruct (existsb _ seen) eqn:Hseen; [destruct Hy |].
    destruct Hy as [<- | []]. split; [now left |].
    intros Hin. apply existsb_seen in Hin. congruence.
  - destruct (IH _ Hy) as [Hin Hnot]. split; [now right |].
    intros Hs. apply Hnot. rewrite in_app_iff. now left.
Qed.

Lemma firsts_NoDup (seen : list string) (xs : list A) :
  List.NoDup (map id (Reference.firsts id seen xs)).
Proof.
  revert seen. induction xs as [|x xs IH]; intros seen; simpl; [constructor |].
  destruct (existsb _ seen); simpl; [apply IH |].
  constructor; [| apply IH].
  rewrite in_map_iff. intros (y & Heq & Hy).
  apply firsts_In in Hy as [_ Hnot]. apply Hnot.
  rewrite in_app_iff, Heq. right. now left.
Qed.

Lemma firsts_covers (seen : list string) (xs : list A) (x : A) :
  In x xs ->
  In (id x) seen
  \/ exists y, In y (Reference.firsts id seen xs) /\ id y = id x.
Proof.
  revert seen. induction xs as [|z xs IH]; intros seen; simpl; [tauto |].
  intros [-> | Hx].
  - destruct (existsb _ seen) eqn:Hseen.
    + left. now apply existsb_seen.
    + right. exists x. split; [now left | reflexivity].
  - destruct (IH (seen ++ [id z]) Hx) as [Hin | (y & Hy & Heq)].
    + apply in_app_iff in Hin as [Hin | [Hz | []]]; [now left |].
      destruct (existsb (fun s => String.eqb s (id z)) seen) eqn:Hseen.
      * left. rewrite <- Hz. now apply existsb_seen.
      * right. exists z. split; [now left | exact Hz].
    + right. exists y. split; [| exact Heq].
      apply in_app_iff. now right.
Qed.

Lemma firsts_sublist (seen : list string) (xs : list A) :
  sublist (Reference.firsts id seen xs) xs.
Proof.
  revert seen. induction xs as [|x xs IH]; intros seen; simpl; [constructor |].
  destruct (existsb _ seen); simpl.
  - apply sublist_cons, IH.
  - apply sublist_skip, IH.
Qed.

Lemma uniqueBy_NoDup (xs : list A) :
  List.NoDup (map id (AIGenerator.uniqueBy id xs)).
Proof. rewrite uniqueBy_firsts. apply firsts_NoDup. Qed.

Lemma uniqueBy_In (xs : list A) (y : A) :
  In y (AIGenerator.uniqueBy id xs) -> In y xs.
Proof. rewrite uniqueBy_firsts. intros H. now apply firsts_In in H. Qed.

Lemma uniqueBy_covers (xs : list A) (x : A) :
  In x xs -> exists y, In y (AIGenerator.uniqueBy id xs) /\ id y = id x.
Proof.
  rewrite uniqueBy_firsts. intros H.
  destruct (firsts_covers [] xs x H) as [[] | Hy]. exact Hy.
Qed.

Lemma uniqueBy_sublist (xs : list A) :
  sublist (AIGenerator.uniqueBy id xs) xs.
Proof. rewrite uniqueBy_firsts. apply firsts_sublist. Qed.

End UniqueBy.

(** ** The resolver, step by step *)

Section ResolverFacts.

Import AIGenerator.

Variable not_a_function : string.
Variable openai : OpenAI.

Lemma generateCustomTool_sent (analysis : Analysis) (pattern : ToolPattern)
    (w : World) :
  sent (snd (generateCustomTool openai analysis pattern w))
  = sent w ++ [ToolRequest analysis pattern].
Proof.
  unfold generateCustomTool, bind, request, Date_now, ret.
  destruct (tool_reply openai w analysis pattern); reflexivity.
Qed.

Lemma generateCustomTool_Some (analysis : Analysis) (pattern : ToolPattern)
    (w : World) (tool : GeneratedTool) :
  fst (generateCustomTool openai analysis pattern w) = Some tool ->
  tool_patternId tool = pattern_id pattern
  /\ tool_dependencies tool = pattern_dependencies pattern
  /\ exists toolData,
       tool_reply openai w analysis pattern = Some toolData
       /\ tool_name tool = data_name toolData.
Proof.
  unfold generateCustomTool, bind, request, Date_now, ret.
  destruct (tool_reply openai w analysis pattern) as [toolData|]; simpl;
    [| discriminate].
  intros [= <-]. simpl. repeat split. now exists toolData.
Qed.

Lemma generateCustomTool_answered (analysis : Analysis) (pattern : ToolPattern)
    (w : World) :
  is_Some (tool_reply openai w analysis pattern) ->
  is_Some (fst (generateCustomTool openai analysis pattern w)).
Proof.
  unfold generateCustomTool, bind, request, Date_now, ret.
  intros [toolData ->]. simpl. eauto.
Qed.

Lemma generateCustomTool_unanswered (analysis : Analysis)
    (pattern : ToolPattern) (w : World) :
  tool_reply openai w analysis pattern = None ->
  fst (generateCustomTool openai analysis pattern w) = None.
Proof.
  unfold generateCustomTool, bind, request, Date_now, ret.
  now intros ->.
Qed.

(** The loop asks once per pattern, in order, and appends what it gets. *)
Lemma generateCustomTools_from_spec (analysis : Analysis)
    (patterns : list ToolPattern) (customTools : list GeneratedTool)
    (w : World) :
  let result := generateCustomTools_from openai customTools analysis patterns w in
  sent (snd result) = sent w ++ map (ToolRequest analysis) patterns
  /\ exists new,
       fst result = customTools ++ new
       /\ sublist (map tool_patternId new) (map pattern_id patterns)
       /\ (forall pattern,
             In pattern patterns ->
             (forall w', is_Some (tool_reply openai w' analysis pattern)) ->
             exists tool, In tool new
                          /\ tool_patternId tool = pattern_id pattern).
Proof.
  revert customTools w.
  induction patterns as [|pattern rest IH]; intros customTools w; simpl.
  - split; [now rewrite app_nil_r |].
    exists []. rewrite app_nil_r. repeat split; [constructor | intros ? []].
  - unfold bind.
    pose proof (generateCustomTool_sent analysis pattern w) as Hsent.
    pose proof (generateCustomTool_Some analysis pattern w) as Hsome.
    pose proof (generateCustomTool_answered analysis pattern w) as Hans.
    destruct (generateCustomTool openai analysis pattern w) as [made w1].
    simpl in Hsent, Hsome, Hans.
    match goal with
    | |- context [generateCustomTools_from openai ?acc analysis rest w1] =>
        destruct (IH acc w1) as (Hlog & new & Hnew & Hsub & Hcover)
    end.
    split.
    { rewrite Hlog, Hsent, <- app_assoc. reflexivity. }
    destruct made as [tool|].
    + destruct (Hsome tool eq_refl) as (Hid & _ & _).
      exists (tool :: new). split; [| split].
      * rewrite Hnew, <- app_assoc. reflexivity.
      * simpl. rewrite Hid. now apply sublist_skip.
      * intros p [<- | Hp] Hreply.
        -- exists tool. split; [now left | exact Hid].
        -- destruct (Hcover p Hp Hreply) as (t & Ht & Htid).
           exists t. split; [now right | exact Htid].
    + exists new. split; [exact Hnew | split].
      * simpl. now apply sublist_cons.
      * intros p [<- | Hp] Hreply.
        -- destruct (Hans (Hreply w)) as [t Ht]. discriminate.
        -- exact (Hcover p Hp Hreply).
Qed.

(** [selectIntegrations] returns for an analysis without services, and
    only for such a one. *)
Lemma selectIntegrations_returns (analysis : Analysis)
    (selected : list IntegrationConfig) :
  selectIntegrations not_a_function analysis = inr selected
  <-> JS.or_nil (services analysis) = []
      /\ selected = limitIntegrations (suggestedMatches analysis).
Proof.
  unfold selectIntegrations. cbv zeta.
  destruct (JS.or_nil (services analysis)) as [|service rest].
  - split; [intros [= <-]; now split | intros [_ ->]; reflexivity].
  - split; [discriminate | intros [Hnil _]; discriminate Hnil].
Qed.

Lemma selectIntegrations_raises (analysis : Analysis) :
  JS.or_nil (services analysis) <> [] ->
  selectIntegrations not_a_function analysis = inl not_a_function.
Proof.
  unfold selectIntegrations. cbv zeta.
  now destruct (JS.or_nil (services analysis)).
Qed.

(** What a returned configuration is made of. *)
Lemma resolved_inv (description : string) (w : World) (cfg : ServerConfig) :
  Reference.resolved not_a_function openai description w cfg ->
  exists analysis w1,
    analyzeRequiredTools openai description w = (AnalysisObject analysis, w1)
    /\ config_patterns cfg = selectToolPatterns analysis
    /\ config_integrations cfg = limitIntegrations (suggestedMatches analysis)
    /\ config_customTools cfg
       = fst (generateCustomTools openai analysis (selectToolPatterns analysis) w1)
    /\ config_dependencies cfg
       = calculateDependencies (config_patterns cfg) (config_integrations cfg)
    /\ config_environmentVariables cfg
       = generateEnvironmentVariables (config_integrations cfg)
    /\ aiAnalysis (config_metadata cfg) = analysis.
Proof.
  unfold Reference.resolved, generateServerConfig, bind.
  destruct (analyzeRequiredTools openai description w) as [parsed w1].
  destruct parsed as [analysis|]; [| discriminate].
  destruct (selectIntegrations not_a_function analysis) as [message|selected]
    eqn:Hselect; [discriminate |].
  apply selectIntegrations_returns in Hselect as [_ ->].
  destruct (generateCustomTools openai analysis (selectToolPatterns analysis) w1)
    as [tools w2] eqn:Htools.
  unfold Date_now, ret. simpl. intros [= <-]. simpl.
  exists analysis, w1. rewrite Htools. repeat split; reflexivity.
Qed.

(** A returned configuration was made from an analysis without services. *)
Lemma resolved_names_no_service (description : string) (w : World)
    (cfg : ServerConfig) :
  Reference.resolved not_a_function openai description w cfg ->
  JS.or_nil (services (aiAnalysis (config_metadata cfg))) = [].
Proof.
  unfold Reference.resolved, generateServerConfig, bind.
  destruct (analyzeRequiredTools openai description w) as [parsed w1].
  destruct parsed as [analysis|]; [| discriminate].
  destruct (selectIntegrations not_a_function analysis) as [message|selected]
    eqn:Hselect; [discriminate |].
  apply selectIntegrations_returns in Hselect as [Hnone _].
  destruct (generateCustomTools openai analysis (selectToolPatterns analysis) w1)
    as [tools w2].
  unfold Date_now, ret. simpl. now intros [= <-].
Qed.

(** An object without services is all the resolver needs to return. *)
Lemma resolved_object (description : string) (w w1 : World)
    (analysis : Analysis) :
  analyzeRequiredTools openai description w = (AnalysisObject analysis, w1) ->
  JS.or_nil (services analysis) = [] ->
  exists cfg, Reference.resolved not_a_function openai description w cfg.
Proof.
  intros Han Hnone. unfold Reference.resolved, generateServerConfig, bind.
  rewrite Han.
  rewrite (proj2 (selectIntegrations_returns analysis _) (conj Hnone eq_refl)).
  destruct (generateCustomTools openai analysis (selectToolPatterns analysis) w1)
    as [tools w2].
  unfold Date_now, ret. simpl. eexists. reflexivity.
Qed.

(** With a service in the analysis the resolver throws as soon as it has
    selected the patterns: nothing was sent but the analysis request. *)
Lemma generateServerConfig_raises (description : string) (w w1 : World)
    (analysis : Analysis) :
  analyzeRequiredTools openai description w = (AnalysisObject analysis, w1) ->
  JS.or_nil (services analysis) <> [] ->
  generateServerConfig not_a_function openai description w
  = (inl ("AI Generation failed: " +:+ not_a_function), w1).
Proof.
  intros Han Hsome. unfold generateServerConfig, bind. rewrite Han.
  now rewrite (selectIntegrations_raises analysis Hsome).
Qed.

Lemma analyzeRequiredTools_world (description : string) (w : World) :
  snd (analyzeRequiredTools openai description w)
  = {| sent := sent w ++ [AnalysisRequest description];
       now := (now w + elapsed openai w (AnalysisRequest description))%Z |}.
Proof.
  unfold analyzeRequiredTools, bind, request, ret.
  now destruct (analysis_reply openai w description) as [parsed|].
Qed.

Lemma analyzeRequiredTools_fallback (description : string) (w : World) :
  analysis_reply openai w description = None ->
  fst (analyzeRequiredTools openai description w)
  = AnalysisObject (createFallbackAnalysis description).
Proof.
  intros Hreply. unfold analyzeRequiredTools, bind, request, ret.
  now rewrite Hreply.
Qed.

End ResolverFacts.

(** ** Selection of patterns and integrations *)

Section Selection.

Import AIGenerator.

Lemma sublist_In {A} (l k : list A) (x : A) :
  sublist l k -> In x l -> In x k.
Proof.
  induction 1 as [|y l k _ IH|y l k _ IH]; simpl; [tauto | | ].
  - intros [-> | H]; [now left | right; auto].
  - intros H. right. auto.
Qed.

Lemma sublist_map_NoDup {A B} (f : A -> B) (l k : list A) :
  sublist l k -> List.NoDup (map f k) -> List.NoDup (map f l).
Proof.
  induction 1 as [|y l k Hsub IH|y l k Hsub IH]; simpl; intros Hnd.
  - constructor.
  - inversion Hnd as [|? ? Hy Hk]; subst. constructor; [| auto].
    rewrite in_map_iff. intros (z & Hz & Hin). apply Hy.
    rewrite in_map_iff. exists z. split; [exact Hz |].
    eapply sublist_In; eassumption.
  - inversion Hnd; subst. auto.
Qed.

(** Distinct keys on a list make the key function injective on it. *)
Lemma NoDup_map_In_inj {A B} (g : A -> B) (l : list A) (x y : A) :
  List.NoDup (map g l) -> In x l -> In y l -> g x = g y -> x = y.
Proof.
  induction l as [|z l IH]; simpl; [tauto |].
  intros Hnd Hx Hy Heq. inversion Hnd as [|? ? Hz Hl]; subst.
  destruct Hx as [-> | Hx], Hy as [-> | Hy]; [reflexivity | | | auto].
  - exfalso. apply Hz. rewrite Heq. now apply in_map.
  - exfalso. apply Hz. rewrite <- Heq. now apply in_map.
Qed.

(** Re-keying a duplicate-free list that lives inside a catalog. *)
Lemma NoDup_rekey {A B C} (f : A -> B) (g : A -> C) (catalog l : list A) :
  List.NoDup (map g catalog) ->
  (forall x, In x l -> In x catalog) ->
  List.NoDup (map f l) -> List.NoDup (map g l).
Proof.
  intros Hcat Hin. induction l as [|x l IH]; simpl; intros Hnd.
  - constructor.
  - inversion Hnd as [|? ? Hx Hl]; subst. constructor.
    + rewrite in_map_iff. intros (y & Heq & Hy). apply Hx.
      assert (y = x) as ->.
      { apply (NoDup_map_In_inj g catalog); auto. apply Hin. now right.
        apply Hin. now left. }
      now apply in_map.
    + apply IH; [| exact Hl]. intros y Hy. apply Hin. now right.
Qed.

Lemma firsts_distinct {A} (id : A -> string) (seen : list string)
    (xs : list A) :
  List.NoDup (map id xs) ->
  (forall x, In x xs -> ~ In (id x) seen) ->
  Reference.firsts id seen xs = xs.
Proof.
  revert seen. induction xs as [|x xs IH]; intros seen Hnd Hfresh; simpl.
  - reflexivity.
  - inversion Hnd as [|? ? Hx Hxs]; subst.
    destruct (existsb (fun s => String.eqb s (id x)) seen) eqn:Hseen.
    + apply existsb_seen in Hseen. exfalso. apply (Hfresh x); [now left | exact Hseen].
    + simpl. f_equal. apply IH; [exact Hxs |].
      intros y Hy Hin. apply in_app_iff in Hin as [Hin | [Heq | []]].
      * apply (Hfresh y); [now right | exact Hin].
      * apply Hx. rewrite Heq. now apply in_map.
Qed.

Lemma uniqueBy_distinct {A} (id : A -> string) (xs : list A) :
  List.NoDup (map id xs) -> uniqueBy id xs = xs.
Proof.
  intros Hnd. rewrite uniqueBy_firsts.
  apply firsts_distinct; [exact Hnd | intros ? _ []].
Qed.

Lemma firsts_head {A} (id : A -> string) (x : A) (xs : list A) :
  Reference.firsts id [] (x :: xs) = x :: Reference.firsts id [id x] xs.
Proof. reflexivity. Qed.

Lemma limitPatterns_unfold (selected : list ToolPattern) :
  limitPatterns selected
  = match selected with
    | [] => [Patterns.api_request]
    | _ :: _ => firstn 5 (Reference.firsts pattern_id [] selected)
    end.
Proof.
  unfold limitPatterns. rewrite uniqueBy_firsts.
  destruct selected as [|p rest]; [reflexivity |].
  rewrite firsts_head. reflexivity.
Qed.

Lemma limitPatterns_length (selected : list ToolPattern) :
  List.length (limitPatterns selected) <= 5.
Proof. unfold limitPatterns, JS.slice. rewrite length_take. lia. Qed.

Lemma limitIntegrations_length (selected : list IntegrationConfig) :
  List.length (limitIntegrations selected) <= 3.
Proof. unfold limitIntegrations, JS.slice. rewrite length_take. lia. Qed.

Lemma limitPatterns_nonempty (selected : list ToolPattern) :
  limitPatterns selected <> [].
Proof.
  rewrite limitPatterns_unfold. destruct selected as [|p rest]; [discriminate |].
  rewrite firsts_head. discriminate.
Qed.

Lemma limitPatterns_In (selected : list ToolPattern) (p : ToolPattern) :
  In p (limitPatterns selected) ->
  In p selected \/ (selected = [] /\ p = Patterns.api_request).
Proof.
  rewrite limitPatterns_unfold. destruct selected as [|q rest].
  - intros [<- | []]. right. split; reflexivity.
  - intros Hin. left.
    apply (sublist_In _ _ _ (sublist_take _ 5)) in Hin.
    now apply firsts_In in Hin.
Qed.

Lemma limitPatterns_NoDup (selected : list ToolPattern) :
  List.NoDup (map pattern_id (limitPatterns selected)).
Proof.
  rewrite limitPatterns_unfold. destruct selected as [|q rest].
  - repeat constructor. intros [].
  - apply (sublist_map_NoDup _ _ _ (sublist_take _ 5)), firsts_NoDup.
Qed.

Lemma limitIntegrations_NoDup (selected : list IntegrationConfig) :
  List.NoDup (map integration_id (limitIntegrations selected)).
Proof.
  unfold limitIntegrations, JS.slice.
  apply (sublist_map_NoDup _ _ _ (sublist_take _ 3)), uniqueBy_NoDup.
Qed.

Lemma limitIntegrations_In (selected : list IntegrationConfig)
    (i : IntegrationConfig) :
  In i (limitIntegrations selected) -> In i selected.
Proof.
  unfold limitIntegrations, JS.slice. intros Hin.
  apply (sublist_In _ _ _ (sublist_take _ 3)) in Hin.
  now apply uniqueBy_In in Hin.
Qed.

Lemma matchedPatterns_catalog (analysis : Analysis) (p : ToolPattern) :
  In p (matchedPatterns analysis) -> In p Patterns.TOOL_PATTERNS.
Proof.
  unfold matchedPatterns. rewrite in_app_iff, !in_flat_map.
  intros [(c & _ & Hp) | (a & _ & Hp)]; now apply filter_In in Hp.
Qed.

Lemma selectToolPatterns_catalog (analysis : Analysis) (p : ToolPattern) :
  In p (selectToolPatterns analysis) -> In p Patterns.TOOL_PATTERNS.
Proof.
  intros Hin. apply limitPatterns_In in Hin as [Hin | [_ ->]].
  - now apply matchedPatterns_catalog in Hin.
  - now left.
Qed.

Lemma suggestedMatches_In (analysis : Analysis) (i : IntegrationConfig) :
  In i (suggestedMatches analysis) ->
  In i Integrations.INTEGRATIONS
  /\ In (integration_id i) (JS.or_nil (suggestedIntegrations analysis)).
Proof.
  unfold suggestedMatches. cbv zeta. rewrite in_flat_map.
  intros (id & Hid & Hi).
  destruct (List.find _ Integrations.INTEGRATIONS) as [j|] eqn:Hfind;
    [| destruct Hi].
  destruct Hi as [<- | []]. apply find_some in Hfind as [Hj Heq].
  apply String.eqb_eq in Heq. split; [exact Hj | now rewrite Heq].
Qed.

Lemma selectIntegrations_catalog (analysis : Analysis) (i : IntegrationConfig) :
  In i (limitIntegrations (suggestedMatches analysis)) ->
  In i Integrations.INTEGRATIONS.
Proof.
  intros Hin. apply limitIntegrations_In in Hin.
  now apply suggestedMatches_In in Hin.
Qed.

Lemma catalog_pattern_ids_fold :
  List.NoDup
    (map (fun p => JS.toLowerCase (pattern_id p)) Patterns.TOOL_PATTERNS).
Proof. apply NoDup_ListNoDup, (bool_decide_unpack _). vm_compute. exact I. Qed.

Lemma catalog_integration_ids_fold :
  List.NoDup
    (map (fun i => JS.toLowerCase (integration_id i)) Integrations.INTEGRATIONS).
Proof. apply NoDup_ListNoDup, (bool_decide_unpack _). vm_compute. exact I. Qed.

End Selection.

(** ** Dependencies *)

Section Dependencies.

Import AIGenerator.

Lemma add_dependencies_In {B} (deps_of : B -> list string) (bs : list B)
    (s : JS.StringSet) (y : string) :
  In y (fold_left (fun deps b => fold_left JS.Set_add (deps_of b) deps) bs s)
  <-> In y s \/ exists b, In b bs /\ In y (deps_of b).
Proof.
  revert s. induction bs as [|b bs IH]; intros s; simpl.
  - split; [tauto | intros [H | (b & [] & _)]; exact H].
  - rewrite IH, Set_add_all_In. split.
    + intros [[H | H] | (b' & Hb' & Hy)]; eauto.
    + intros [H | (b' & [<- | Hb'] & Hy)]; eauto.
Qed.

Lemma add_dependencies_NoDup {B} (deps_of : B -> list string) (bs : list B)
    (s : JS.StringSet) :
  List.NoDup s ->
  List.NoDup
    (fold_left (fun deps b => fold_left JS.Set_add (deps_of b) deps) bs s).
Proof.
  revert s. induction bs as [|b bs IH]; intros s Hs; simpl; [exact Hs |].
  apply IH, Set_add_all_NoDup, Hs.
Qed.

(** [calculateDependencies] returns the union of its three sources, each
    name once. *)
Lemma calculateDependencies_union (patterns : list ToolPattern)
    (integrations : list IntegrationConfig) :
  List.NoDup (calculateDependencies patterns integrations)
  /\ forall dep,
       In dep (calculateDependencies patterns integrations)
       <-> dep = "@modelcontextprotocol/sdk" \/ dep = "zod"
           \/ (exists p, In p patterns /\ In dep (pattern_dependencies p))
           \/ (exists i, In i integrations
                         /\ In dep (integration_dependencies i)).
Proof.
  unfold calculateDependencies, JS.Array_from. split.
  - apply add_dependencies_NoDup, add_dependencies_NoDup.
    repeat apply Set_add_NoDup. constructor.
  - intros dep. rewrite !add_dependencies_In, !Set_add_In. simpl.
    intuition auto.
Qed.

End Dependencies.

(** ** The claims about the resolver *)

Section ResolverClaims.

Import AIGenerator.

Lemma fallback_services (description : string) :
  services (createFallbackAnalysis description)
  = Some ((if JS.includes (JS.toLowerCase description) "github"
           then ["GitHub"] else [])
          ++ (if JS.includes (JS.toLowerCase description) "slack"
              then ["Slack"] else [])).
Proof. unfold createFallbackAnalysis. fallback_cases description; reflexivity. Qed.

Lemma fallback_names_a_service (description : string) :
  JS.or_nil (services (createFallbackAnalysis description)) = []
  <-> Reference.names_a_service description = false.
Proof.
  rewrite fallback_services. unfold Reference.names_a_service.
  cbn [JS.or_nil].
  destruct (JS.includes (JS.toLowerCase description) "github"),
    (JS.includes (JS.toLowerCase description) "slack");
    cbn; split; congruence.
Qed.

(** C2.  The dependency list of a resolved configuration is, as a set and
    without repetition, the union of the two core dependencies
    ([@modelcontextprotocol/sdk] and [zod]), the declared dependencies of
    every selected pattern and those of every selected integration: it
    contains each of them and nothing else. *)
Theorem resolved_dependencies_are_the_union
    (not_a_function : string) (openai : OpenAI)
    (description : string) (w : World) (cfg : ServerConfig) :
  Reference.resolved not_a_function openai description w cfg ->
  List.NoDup (config_dependencies cfg)
  /\ forall dep,
       In dep (config_dependencies cfg)
       <-> dep = "@modelcontextprotocol/sdk" \/ dep = "zod"
           \/ (exists p, In p (config_patterns cfg)
                         /\ In dep (pattern_dependencies p))
           \/ (exists i, In i (config_integrations cfg)
                         /\ In dep (integration_dependencies i)).
Proof.
  intros Hres.
  destruct (resolved_inv _ _ _ _ _ Hres) as (a & w1 & _ & _ & _ & _ & Hdeps & _).
  rewrite Hdeps. apply calculateDependencies_union.
Qed.

Lemma resolved_dependencies_are_the_union_witness :
  exists cfg,
    Reference.resolved Reference.call_error Reference.offline
      Reference.report_request Reference.boot cfg
    /\ List.NoDup (config_dependencies cfg)
    /\ (In "@sendgrid/mail" (config_dependencies cfg)
        <-> "@sendgrid/mail" = "@modelcontextprotocol/sdk"
            \/ "@sendgrid/mail" = "zod"
            \/ (exists p, In p (config_patterns cfg)
                          /\ In "@sendgrid/mail" (pattern_dependencies p))
            \/ (exists i, In i (config_integrations cfg)
                          /\ In "@sendgrid/mail" (integration_dependencies i))).
Proof.
  eexists. split; [reflexivity |].
  split.
  - apply (proj1 (resolved_dependencies_are_the_union
                    Reference.call_error Reference.offline
                    Reference.report_request Reference.boot _ eq_refl)).
  - apply (proj2 (resolved_dependencies_are_the_union
                    Reference.call_error Reference.offline
                    Reference.report_request Reference.boot _ eq_refl)).
Defined.

(** C10.  Pattern selection never returns the empty list: when nothing in
    the catalog matches, the first catalog pattern, [api-request], is the
    selection, and otherwise the matches are deduplicated and cut to five.
    Whether a synthesis is then attempted depends on the services of the
    analysis.  When the analysis reply names a service, the call of
    [findIntegrations] raises between pattern selection and synthesis: the
    resolver throws, and the analysis request is the only one it has sent.
    The same happens when the analysis fails and the description mentions
    [github] or [slack], since the fallback then names a service.  When
    the analysis fails and the description mentions neither, the resolver
    returns a configuration and has sent one synthesis request per selected
    pattern, so at least one. *)
Theorem resolver_selects_a_pattern_but_may_raise_before_synthesis
    (not_a_function : string) (openai : OpenAI) (description : string)
    (w : World) (analysis : Analysis) :
  (selectToolPatterns analysis <> []
   /\ selectToolPatterns analysis
      = match matchedPatterns analysis with
        | [] => [Patterns.api_request]
        | _ :: _ =>
            firstn 5 (Reference.firsts pattern_id [] (matchedPatterns analysis))
        end
   /\ nth_error Patterns.TOOL_PATTERNS 0 = Some Patterns.api_request
   /\ pattern_id Patterns.api_request = "api-request")
  /\ (analysis_reply openai w description = Some (AnalysisObject analysis) ->
      JS.or_nil (services analysis) <> [] ->
      let run := generateServerConfig not_a_function openai description w in
      fst run = inl ("AI Generation failed: " +:+ not_a_function)
      /\ sent (snd run) = sent w ++ [AnalysisRequest description])
  /\ (analysis_reply openai w description = None ->
      let run := generateServerConfig not_a_function openai description w in
      let fallback := createFallbackAnalysis description in
      if Reference.names_a_service description
      then
        fst run = inl ("AI Generation failed: " +:+ not_a_function)
        /\ sent (snd run) = sent w ++ [AnalysisRequest description]
      else
        (exists cfg,
            fst run = inr cfg
            /\ config_patterns cfg = selectToolPatterns fallback)
        /\ sent (snd run)
           = sent w
             ++ AnalysisRequest description
                :: map (ToolRequest fallback) (selectToolPatterns fallback)
        /\ List.length (sent w) + 2 <= List.length (sent (snd run))).
Proof.
  split.
  { split; [apply limitPatterns_nonempty |].
    split; [apply limitPatterns_unfold |].
    split; reflexivity. }
  pose proof (analyzeRequiredTools_world openai description w) as Hworld.
  split.
  - intros Hreply Hservices. cbv zeta.
    assert (Hrun : analyzeRequiredTools openai description w
                   = (AnalysisObject analysis,
                      snd (analyzeRequiredTools openai description w))).
    { unfold analyzeRequiredTools, bind, request, ret.
      now rewrite Hreply. }
    rewrite (generateServerConfig_raises not_a_function openai description
               w _ analysis Hrun Hservices).
    cbn [fst snd]. split; [reflexivity |]. now rewrite Hworld.
  - intros Hreply. cbv zeta.
    pose proof (analyzeRequiredTools_fallback openai description w Hreply)
      as Hfb.
    destruct (analyzeRequiredTools openai description w) as [parsed w1] eqn:Han.
    cbn [fst snd] in Hfb, Hworld. subst parsed.
    destruct (Reference.names_a_service description) eqn:Hnames.
    + rewrite (generateServerConfig_raises not_a_function openai description
                 w w1 _ Han).
      * cbn [fst snd]. split; [reflexivity |]. now rewrite Hworld.
      * intros Hnone. apply fallback_names_a_service in Hnone. congruence.
    + apply fallback_names_a_service in Hnames.
      unfold generateServerConfig, bind. rewrite Han.
      rewrite (proj2 (selectIntegrations_returns not_a_function _ _)
                 (conj Hnames eq_refl)).
      destruct (generateCustomTools_from_spec openai
                  (createFallbackAnalysis description)
                  (selectToolPatterns (createFallbackAnalysis description))
                  [] w1) as [Hlog _].
      unfold generateCustomTools.
      destruct (generateCustomTools_from openai []
                  (createFallbackAnalysis description)
                  (selectToolPatterns (createFallbackAnalysis description)) w1)
        as [tools w2].
      cbn [fst snd] in Hlog. unfold Date_now, ret. cbn [fst snd].
      split; [eexists; split; reflexivity |].
      rewrite Hlog, Hworld. cbn [sent]. rewrite <- app_assoc.
      split; [reflexivity |].
      rewrite !length_app, length_map. cbn [List.length app].
      pose proof (limitPatterns_nonempty
                    (matchedPatterns (createFallbackAnalysis description)))
        as Hsome.
      unfold selectToolPatterns.
      destruct (limitPatterns
                  (matchedPatterns (createFallbackAnalysis description)))
        as [|p rest]; [congruence |].
      cbn [List.length]. lia.
Qed.

Lemma resolver_selects_a_pattern_but_may_raise_before_synthesis_witness :
  selectToolPatterns (createFallbackAnalysis "track GitHub issues")
  = [Patterns.api_request]
  /\ fst (generateServerConfig Reference.call_error Reference.offline
            "track GitHub issues" Reference.boot)
     = inl "AI Generation failed: findIntegrations is not a function"
  /\ sent (snd (generateServerConfig Reference.call_error Reference.offline
                  "track GitHub issues" Reference.boot))
     = [AnalysisRequest "track GitHub issues"].
Proof.
  split; [reflexivity |].
  exact (proj2 (proj2 (resolver_selects_a_pattern_but_may_raise_before_synthesis
                         Reference.call_error Reference.offline
                         "track GitHub issues" Reference.boot
                         (createFallbackAnalysis "track GitHub issues")))
               eq_refl).
Defined.

(** C4.  A resolved configuration has at most five selected patterns, no
    more tools than patterns (so at most five), and at most three
    integrations.  Candidates behind a cap are dropped: of candidates with
    pairwise distinct ids exactly the leading five patterns, and the
    leading three integrations, are kept. *)
Theorem resolved_within_caps
    (not_a_function : string) (openai : OpenAI)
    (description : string) (w : World) (cfg : ServerConfig) :
  Reference.resolved not_a_function openai description w cfg ->
  List.length (config_patterns cfg) <= 5
  /\ List.length (config_customTools cfg) <= List.length (config_patterns cfg)
  /\ List.length (config_customTools cfg) <= 5
  /\ List.length (config_integrations cfg) <= 3
  /\ (forall selected : list ToolPattern,
        List.length (limitPatterns selected) <= 5
        /\ (List.NoDup (map pattern_id selected) -> selected <> [] ->
            limitPatterns selected = firstn 5 selected))
  /\ (forall selected : list IntegrationConfig,
        List.length (limitIntegrations selected) <= 3
        /\ (List.NoDup (map integration_id selected) ->
            limitIntegrations selected = firstn 3 selected)).
Proof.
  intros Hres.
  destruct (resolved_inv _ _ _ _ _ Hres)
    as (a & w1 & _ & Hpat & Hint & Htools & _).
  assert (Hp : List.length (config_patterns cfg) <= 5).
  { rewrite Hpat. apply limitPatterns_length. }
  assert (Ht : List.length (config_customTools cfg)
               <= List.length (config_patterns cfg)).
  { rewrite Htools, Hpat. unfold generateCustomTools.
    destruct (generateCustomTools_from_spec openai a (selectToolPatterns a) [] w1)
      as (_ & new & -> & Hsub & _).
    apply sublist_length in Hsub. rewrite !length_map in Hsub. exact Hsub. }
  repeat split; try lia.
  - rewrite Hint. apply limitIntegrations_length.
  - apply limitPatterns_length.
  - intros Hnd Hne. rewrite limitPatterns_unfold.
    destruct selected; [congruence |].
    rewrite <- uniqueBy_firsts, uniqueBy_distinct by exact Hnd. reflexivity.
  - apply limitIntegrations_length.
  - intros Hnd. unfold limitIntegrations, JS.slice.
    now rewrite uniqueBy_distinct.
Qed.

Lemma resolved_within_caps_witness :
  exists cfg,
    Reference.resolved Reference.call_error Reference.offline
      Reference.report_request Reference.boot cfg
    /\ List.length (config_patterns cfg) <= 5
    /\ List.length (config_integrations cfg) <= 3
    /\ List.length Reference.seven_patterns = 7
    /\ limitPatterns Reference.seven_patterns
       = firstn 5 Reference.seven_patterns
    /\ List.length Reference.five_integrations = 5
    /\ limitIntegrations Reference.five_integrations
       = firstn 3 Reference.five_integrations.
Proof.
  eexists. split; [reflexivity |].
  pose proof (resolved_within_caps
                Reference.call_error Reference.offline
                Reference.report_request Reference.boot _ eq_refl)
    as (Hp & _ & _ & Hi & Hseven & Hfive).
  split; [exact Hp |]. split; [exact Hi |].
  split; [reflexivity |]. split; [| split; [reflexivity |]].
  - apply (proj2 (Hseven Reference.seven_patterns)); [| discriminate].
    apply NoDup_ListNoDup, (bool_decide_unpack _). vm_compute. exact I.
  - apply (proj2 (Hfive Reference.five_integrations)).
    apply NoDup_ListNoDup, (bool_decide_unpack _). vm_compute. exact I.
Defined.

Lemma sublist_ListNoDup {A} (l k : list A) :
  sublist l k -> List.NoDup k -> List.NoDup l.
Proof.
  intros Hsub Hnd. rewrite <- (map_id l). rewrite <- (map_id k) in Hnd.
  exact (sublist_map_NoDup (fun x => x) l k Hsub Hnd).
Qed.

(** C1, as amended.  A resolved configuration has no two integrations with
    the same id and no two selected patterns with the same id, both up to
    letter case, and no two tools generated from the same pattern: the
    pattern ids of the tools are a subsequence of those of the selected
    patterns.  Tool names are the ones the synthesis service returned. *)
Theorem resolved_integrations_and_patterns_distinct
    (not_a_function : string) (openai : OpenAI)
    (description : string) (w : World) (cfg : ServerConfig) :
  Reference.resolved not_a_function openai description w cfg ->
  List.NoDup (map (fun i => JS.toLowerCase (integration_id i))
                  (config_integrations cfg))
  /\ List.NoDup (map (fun p => JS.toLowerCase (pattern_id p))
                     (config_patterns cfg))
  /\ List.NoDup (map tool_patternId (config_customTools cfg))
  /\ sublist (map tool_patternId (config_customTools cfg))
             (map pattern_id (config_patterns cfg)).
Proof.
  intros Hres.
  destruct (resolved_inv _ _ _ _ _ Hres)
    as (a & w1 & _ & Hpat & Hint & Htools & _).
  assert (Hsub : sublist (map tool_patternId (config_customTools cfg))
                         (map pattern_id (config_patterns cfg))).
  { rewrite Htools, Hpat. unfold generateCustomTools.
    destruct (generateCustomTools_from_spec openai a (selectToolPatterns a) [] w1)
      as (_ & new & -> & Hsub & _). exact Hsub. }
  assert (Hids : List.NoDup (map pattern_id (config_patterns cfg))).
  { rewrite Hpat. apply limitPatterns_NoDup. }
  repeat split.
  - apply (NoDup_rekey integration_id _ Integrations.INTEGRATIONS).
    + apply catalog_integration_ids_fold.
    + rewrite Hint. intros i. apply selectIntegrations_catalog.
    + rewrite Hint. apply limitIntegrations_NoDup.
  - apply (NoDup_rekey pattern_id _ Patterns.TOOL_PATTERNS).
    + apply catalog_pattern_ids_fold.
    + rewrite Hpat. apply selectToolPatterns_catalog.
    + exact Hids.
  - exact (sublist_ListNoDup _ _ Hsub Hids).
  - exact Hsub.
Qed.

Lemma resolved_integrations_and_patterns_distinct_witness :
  exists cfg,
    Reference.resolved Reference.call_error Reference.repetitive
      Reference.report_request Reference.boot cfg
    /\ List.NoDup (map (fun i => JS.toLowerCase (integration_id i))
                       (config_integrations cfg))
    /\ List.NoDup (map tool_patternId (config_customTools cfg)).
Proof.
  eexists. split; [reflexivity |].
  pose proof (resolved_integrations_and_patterns_distinct
                Reference.call_error Reference.repetitive
                Reference.report_request Reference.boot _ eq_refl)
    as (Hi & _ & Ht & _).
  split; [exact Hi | exact Ht].
Defined.

(** C1, as stated, fails: nothing keeps the synthesis service from giving
    two tools the same name, and the resolver does not compare names.  The
    description names no service, so the resolver returns. *)
Lemma resolved_tool_names_may_repeat :
  exists cfg,
    Reference.resolved Reference.call_error Reference.repetitive
      Reference.report_request Reference.boot cfg
    /\ JS.or_nil (services (createFallbackAnalysis Reference.report_request))
       = []
    /\ map tool_name (config_customTools cfg) = ["notify"; "notify"; "notify"]
    /\ ~ List.NoDup (map (fun t => JS.toLowerCase (tool_name t))
                         (config_customTools cfg)).
Proof.
  eexists. split; [reflexivity |]. split; [reflexivity |].
  split; [reflexivity |].
  intros Hnd. inversion Hnd as [|? ? Hin _]; subst. apply Hin. now left.
Qed.

(** The fallback analysis, member by member. *)
Lemma createFallbackAnalysis_fields (description : string) :
  exists serviceNames suggested,
    createFallbackAnalysis description
    = {| summary :=
           Some (JS.slice0 100 description
                 +:+ (if Nat.ltb 100 (String.length description)
                      then "..." else ""));
         primaryActions := Some [];
         dataTypes := Some [];
         services := Some serviceNames;
         complexity := Some "simple";
         toolCategories := Some (Reference.table_categories description);
         suggestedIntegrations := Some suggested;
         keyFeatures := Some [];
         estimatedTools := Some 1%Z |}.
Proof.
  unfold createFallbackAnalysis, Reference.table_categories,
    Reference.keyword_table.
  cbv beta iota zeta delta [List.filter existsb fst snd map].
  fallback_cases description; eexists; eexists; reflexivity.
Qed.

(** The catalog patterns of the table's categories, checked row
    combination by row combination. *)
Lemma table_patterns_bool (description : string) :
  let cats := Reference.table_categories description in
  let selected :=
    limitPatterns
      (flat_map
         (fun category =>
            List.filter
              (fun pattern =>
                 String.eqb (category_name (pattern_category pattern)) category)
              Patterns.TOOL_PATTERNS)
         cats ++ []) in
  forallb
    (fun p => existsb (String.eqb (category_name (pattern_category p))) cats)
    selected
  && forallb
       (fun c =>
          existsb (fun p => String.eqb (category_name (pattern_category p)) c)
                  selected)
       cats
  = true.
Proof.
  unfold Reference.table_categories, Reference.keyword_table.
  cbn [List.filter fst snd map].
  destruct (existsb (JS.includes (JS.toLowerCase description)) ["github"]),
    (existsb (JS.includes (JS.toLowerCase description)) ["slack"]),
    (existsb (JS.includes (JS.toLowerCase description)) ["database"; "sql"]),
    (existsb (JS.includes (JS.toLowerCase description)) ["file"; "upload"]),
    (existsb (JS.includes (JS.toLowerCase description)) ["email"]);
    vm_compute; reflexivity.
Qed.

Lemma fallback_patterns (description : string) :
  let selected := selectToolPatterns (createFallbackAnalysis description) in
  (forall p, In p selected ->
             In (category_name (pattern_category p))
                (Reference.table_categories description))
  /\ (forall c, In c (Reference.table_categories description) ->
                exists p, In p selected /\ category_name (pattern_category p) = c).
Proof.
  destruct (createFallbackAnalysis_fields description) as (svc & sug & ->).
  unfold selectToolPatterns, matchedPatterns.
  cbn [toolCategories primaryActions JS.or_nil flat_map].
  pose proof (table_patterns_bool description) as Hbool. cbv zeta in Hbool.
  apply andb_true_iff in Hbool as [Hsel Hcats].
  rewrite forallb_forall in Hsel, Hcats. cbv zeta. split.
  - intros p Hp. specialize (Hsel p Hp).
    apply existsb_exists in Hsel as (c & Hc & Heq).
    apply String.eqb_eq in Heq. now rewrite Heq.
  - intros c Hc. specialize (Hcats c Hc).
    apply existsb_exists in Hcats as (p & Hp & Heq).
    apply String.eqb_eq in Heq. now exists p.
Qed.

(** C3.  When the analysis request fails (no answer, or an answer that
    does not parse), the resolver falls back to the local keyword table.
    For a description that mentions neither [github] nor [slack] it still
    returns a configuration: its analysis has complexity [simple], its
    tool categories are exactly the ones the table gives ([api] when no
    row fires), and the selected patterns are the catalog patterns of
    these categories.  For a description that mentions [github] or [slack]
    the fallback names a service, the call of [findIntegrations] raises,
    and the resolver throws instead of returning, the analysis request
    being the only one sent. *)
Theorem analysis_failure_raises_for_a_named_service
    (not_a_function : string) (openai : OpenAI)
    (description : string) (w : World) :
  analysis_reply openai w description = None ->
  if Reference.names_a_service description
  then
    Reference.raised not_a_function openai description w
      ("AI Generation failed: " +:+ not_a_function)
    /\ sent (snd (generateServerConfig not_a_function openai description w))
       = sent w ++ [AnalysisRequest description]
  else
    exists cfg,
      Reference.resolved not_a_function openai description w cfg
      /\ complexity (aiAnalysis (config_metadata cfg)) = Some "simple"
      /\ toolCategories (aiAnalysis (config_metadata cfg))
         = Some (Reference.table_categories description)
      /\ (forall p, In p (config_patterns cfg) ->
                    In (category_name (pattern_category p))
                       (Reference.table_categories description))
      /\ (forall c, In c (Reference.table_categories description) ->
                    exists p, In p (config_patterns cfg)
                              /\ category_name (pattern_category p) = c).
Proof.
  intros Hreply.
  pose proof (analyzeRequiredTools_fallback openai description w Hreply) as Hfb.
  pose proof (analyzeRequiredTools_world openai description w) as Hworld.
  destruct (analyzeRequiredTools openai description w) as [parsed w1] eqn:Han.
  cbn [fst snd] in Hfb, Hworld. subst parsed.
  destruct (Reference.names_a_service description) eqn:Hnames.
  - unfold Reference.raised.
    rewrite (generateServerConfig_raises not_a_function openai description
               w w1 _ Han).
    + cbn [fst snd]. split; [reflexivity |]. now rewrite Hworld.
    + intros Hnone. apply fallback_names_a_service in Hnone. congruence.
  - destruct (resolved_object not_a_function openai description w w1 _ Han)
      as [cfg Hres]; [now apply fallback_names_a_service |].
    exists cfg. split; [exact Hres |].
    destruct (resolved_inv _ _ _ _ _ Hres)
      as (a & w2 & Han' & Hpat & _ & _ & _ & _ & Hmeta).
    rewrite Han in Han'. injection Han' as <- <-.
    rewrite Hmeta, Hpat.
    destruct (createFallbackAnalysis_fields description) as (svc & sug & Hfields).
    split; [now rewrite Hfields |]. split; [now rewrite Hfields |].
    apply fallback_patterns.
Qed.

Lemma analysis_failure_raises_for_a_named_service_witness :
  Reference.raised Reference.call_error Reference.offline
    "track GitHub issues" Reference.boot
    "AI Generation failed: findIntegrations is not a function"
  /\ sent (snd (generateServerConfig Reference.call_error Reference.offline
                  "track GitHub issues" Reference.boot))
     = [AnalysisRequest "track GitHub issues"].
Proof.
  exact (analysis_failure_raises_for_a_named_service
           Reference.call_error Reference.offline
           "track GitHub issues" Reference.boot eq_refl).
Defined.

Lemma fallback_scenarioA :
  createFallbackAnalysis Reference.scenarioA
  = {| summary := Some Reference.scenarioA;
       primaryActions := Some [];
       dataTypes := Some [];
       services := Some ["GitHub"; "Slack"];
       complexity := Some "simple";
       toolCategories := Some ["api"; "notification"];
       suggestedIntegrations := Some ["github"; "slack"];
       keyFeatures := Some [];
       estimatedTools := Some 1%Z |}.
Proof. vm_compute. reflexivity. Qed.

(** C7.  For scenario A with the analysis unavailable, the fallback
    suggests the integrations [github] and [slack] and the categories
    [api] and [notification], and the resolver selects the patterns
    [api-request] and [notification-sender] and finds both suggested
    integrations in the catalog.  The fallback also names the services
    [GitHub] and [Slack]; the call of [findIntegrations] for the first of
    them raises, so the resolver throws and there is no resulting
    configuration, whatever the synthesis service would have answered. *)
Theorem scenarioA_raises
    (not_a_function : string) (openai : OpenAI) (w : World) :
  analysis_reply openai w Reference.scenarioA = None ->
  suggestedIntegrations (createFallbackAnalysis Reference.scenarioA)
  = Some ["github"; "slack"]
  /\ toolCategories (createFallbackAnalysis Reference.scenarioA)
     = Some ["api"; "notification"]
  /\ services (createFallbackAnalysis Reference.scenarioA)
     = Some ["GitHub"; "Slack"]
  /\ selectToolPatterns (createFallbackAnalysis Reference.scenarioA)
     = [Patterns.api_request; Patterns.notification_sender]
  /\ suggestedMatches (createFallbackAnalysis Reference.scenarioA)
     = [Integrations.github; Integrations.slack]
  /\ Reference.raised not_a_function openai Reference.scenarioA w
       ("AI Generation failed: " +:+ not_a_function)
  /\ sent (snd (generateServerConfig not_a_function openai
                  Reference.scenarioA w))
     = sent w ++ [AnalysisRequest Reference.scenarioA]
  /\ forall cfg,
       ~ Reference.resolved not_a_function openai Reference.scenarioA w cfg.
Proof.
  intros Hreply.
  pose proof (analyzeRequiredTools_fallback openai _ w Hreply) as Hfb.
  pose proof (analyzeRequiredTools_world openai Reference.scenarioA w)
    as Hworld.
  destruct (analyzeRequiredTools openai Reference.scenarioA w)
    as [parsed w1] eqn:Han.
  cbn [fst snd] in Hfb, Hworld. subst parsed.
  assert (Hrun : generateServerConfig not_a_function openai
                   Reference.scenarioA w
                 = (inl ("AI Generation failed: " +:+ not_a_function), w1)).
  { apply (generateServerConfig_raises not_a_function openai _ w w1 _ Han).
    rewrite fallback_scenarioA. discriminate. }
  unfold Reference.raised, Reference.resolved. rewrite Hrun. cbn [fst snd].
  rewrite fallback_scenarioA.
  split; [reflexivity |]. split; [reflexivity |]. split; [reflexivity |].
  split; [vm_compute; reflexivity |]. split; [vm_compute; reflexivity |].
  split; [reflexivity |]. split; [now rewrite Hworld |].
  intros cfg Hcfg. discriminate Hcfg.
Qed.

Lemma scenarioA_raises_witness :
  Reference.raised Reference.call_error Reference.repetitive
    Reference.scenarioA Reference.boot
    "AI Generation failed: findIntegrations is not a function"
  /\ sent (snd (generateServerConfig Reference.call_error Reference.repetitive
                  Reference.scenarioA Reference.boot))
     = [AnalysisRequest Reference.scenarioA]
  /\ forall cfg,
       ~ Reference.resolved Reference.call_error Reference.repetitive
           Reference.scenarioA Reference.boot cfg.
Proof.
  destruct (scenarioA_raises Reference.call_error Reference.repetitive
              Reference.boot eq_refl)
    as (_ & _ & _ & _ & _ & Hraised & Hsent & Hnone).
  split; [exact Hraised |]. split; [exact Hsent | exact Hnone].
Defined.

Lemma generateEnvironmentVariables_from (integrations : list IntegrationConfig)
    (envVars : gmap string string) :
  fold_left
    (fun envVars integration =>
       match schema_properties (integration_configSchema integration) with
       | Some properties =>
           fold_left
             (fun (envVars : gmap string string) entry =>
                let '(key, p) := entry in
                <[envKey integration key := envValue integration key p]>
                  envVars)
             properties envVars
       | None => envVars
       end)
    integrations envVars
  = fold_left Reference.write_entry (Reference.envEntries integrations) envVars.
Proof.
  revert envVars. induction integrations as [|i rest IH]; intros envVars;
    [reflexivity |].
  cbn [fold_left Reference.envEntries flat_map]. rewrite fold_left_app, IH.
  f_equal.
  destruct (schema_properties (integration_configSchema i)) as [props|];
    [| reflexivity].
  clear IH. revert envVars.
  induction props as [|[key p] props IHp]; intros envVars; [reflexivity |].
  cbn [fold_left map]. apply IHp.
Qed.

Lemma generateEnvironmentVariables_entries
    (integrations : list IntegrationConfig) :
  generateEnvironmentVariables integrations
  = fold_left Reference.write_entry (Reference.envEntries integrations) ∅.
Proof. apply generateEnvironmentVariables_from. Qed.

Lemma write_entries_lookup_inv (entries : list (string * string))
    (envVars : gmap string string) (name value : string) :
  fold_left Reference.write_entry entries envVars !! name = Some value ->
  envVars !! name = Some value \/ In (name, value) entries.
Proof.
  revert envVars. induction entries as [|[k v] entries IH]; intros envVars;
    simpl; [tauto |].
  intros Hlook. destruct (IH _ Hlook) as [Hm | Hin]; [| tauto].
  unfold Reference.write_entry in Hm. simpl in Hm.
  destruct (decide (k = name)) as [-> | Hne].
  - rewrite lookup_insert_eq in Hm. injection Hm as ->. right. now left.
  - rewrite lookup_insert_ne in Hm by exact Hne. now left.
Qed.

Lemma write_entries_lookup (entries : list (string * string))
    (envVars : gmap string string) (name value : string) :
  envVars !! name = Some value \/ In (name, value) entries ->
  (forall value', In (name, value') entries -> value' = value) ->
  fold_left Reference.write_entry entries envVars !! name = Some value.
Proof.
  revert envVars. induction entries as [|[k v] entries IH]; intros envVars;
    simpl; intros Hhave Hfun.
  - destruct Hhave as [H | []]. exact H.
  - apply IH; [| intros v' Hv'; apply Hfun; now right].
    unfold Reference.write_entry. simpl.
    destruct (decide (k = name)) as [-> | Hne].
    + left. rewrite lookup_insert_eq. f_equal. apply Hfun. now left.
    + rewrite lookup_insert_ne by exact Hne.
      destruct Hhave as [H | [H | H]]; [now left | | now right].
      injection H as -> _. contradiction.
Qed.

Lemma envEntries_In (integrations : list IntegrationConfig)
    (name value : string) :
  In (name, value) (Reference.envEntries integrations)
  <-> exists i props key p,
        In i integrations
        /\ schema_properties (integration_configSchema i) = Some props
        /\ In (key, p) props
        /\ name = envKey i key /\ value = envValue i key p.
Proof.
  unfold Reference.envEntries. rewrite in_flat_map. split.
  - intros (i & Hi & Hin).
    destruct (schema_properties (integration_configSchema i)) as [props|] eqn:Hp;
      [| destruct Hin].
    apply in_map_iff in Hin as ([key p] & Heq & Hkp). simpl in Heq.
    injection Heq as <- <-. exists i, props, key, p. auto.
  - intros (i & props & key & p & Hi & Hp & Hkp & -> & ->).
    exists i. split; [exact Hi |]. rewrite Hp.
    apply in_map_iff. exists (key, p). auto.
Qed.

(** No two schema properties of the catalog share a variable name. *)
Lemma catalog_envEntries_distinct :
  List.NoDup (map fst (Reference.envEntries Integrations.INTEGRATIONS)).
Proof. apply NoDup_ListNoDup, (bool_decide_unpack _). vm_compute. exact I. Qed.

Lemma catalog_envEntries_functional (name value value' : string) :
  In (name, value) (Reference.envEntries Integrations.INTEGRATIONS) ->
  In (name, value') (Reference.envEntries Integrations.INTEGRATIONS) ->
  value' = value.
Proof.
  intros H H'.
  pose proof (NoDup_map_In_inj fst _ _ _ catalog_envEntries_distinct H H' eq_refl)
    as Heq.
  now injection Heq.
Qed.

(** C5.  For every selected integration and every property its
    configuration schema declares, the environment variables of a resolved
    configuration hold one entry whose name is the upper-cased integration
    id, an underscore and the upper-cased property name, and whose value is
    the property's description (or, without one, the display name followed
    by the property name); there are no other entries.  An integration
    with id [sendgrid] and the properties [apiKey] and [fromEmail] gives
    the names [SENDGRID_APIKEY] and [SENDGRID_FROMEMAIL] and no others. *)
Theorem resolved_environment_variables
    (not_a_function : string) (openai : OpenAI)
    (description : string) (w : World) (cfg : ServerConfig) :
  Reference.resolved not_a_function openai description w cfg ->
  (forall i props key p,
      In i (config_integrations cfg) ->
      schema_properties (integration_configSchema i) = Some props ->
      In (key, p) props ->
      config_environmentVariables cfg
        !! (JS.toUpperCase (integration_id i) +:+ "_" +:+ JS.toUpperCase key)
      = Some (JS.or_else (prop_description p)
                         (integration_displayName i +:+ " " +:+ key)))
  /\ (forall name value,
        config_environmentVariables cfg !! name = Some value ->
        exists i props key p,
          In i (config_integrations cfg)
          /\ schema_properties (integration_configSchema i) = Some props
          /\ In (key, p) props
          /\ name = JS.toUpperCase (integration_id i) +:+ "_"
                    +:+ JS.toUpperCase key
          /\ value = JS.or_else (prop_description p)
                                (integration_displayName i +:+ " " +:+ key))
  /\ (forall i p1 p2,
        integration_id i = "sendgrid" ->
        schema_properties (integration_configSchema i)
        = Some [("apiKey", p1); ("fromEmail", p2)] ->
        dom (generateEnvironmentVariables [i])
        = ({[ "SENDGRID_APIKEY"; "SENDGRID_FROMEMAIL" ]} : gset string)).
Proof.
  intros Hres.
  destruct (resolved_inv _ _ _ _ _ Hres)
    as (a & w1 & _ & _ & Hint & _ & _ & Henv & _).
  rewrite Henv, generateEnvironmentVariables_entries.
  assert (Hsub : forall name value,
             In (name, value) (Reference.envEntries (config_integrations cfg)) ->
             In (name, value) (Reference.envEntries Integrations.INTEGRATIONS)).
  { intros name value Hin.
    apply envEntries_In in Hin as (i & props & key & p & Hi & Hrest).
    apply envEntries_In. exists i, props, key, p. split; [| exact Hrest].
    rewrite Hint in Hi. eapply selectIntegrations_catalog; eassumption. }
  split; [| split].
  - intros i props key p Hi Hprops Hkp.
    apply write_entries_lookup.
    + right. apply envEntries_In. exists i, props, key, p. auto.
    + intros value' Hin'. apply (catalog_envEntries_functional (envKey i key)).
      * apply Hsub, envEntries_In. exists i, props, key, p. auto.
      * apply Hsub, Hin'.
  - intros name value Hlook.
    apply write_entries_lookup_inv in Hlook as [Hempty | Hin].
    + rewrite lookup_empty in Hempty. discriminate.
    + now apply envEntries_In in Hin.
  - intros i p1 p2 Hid Hprops. unfold generateEnvironmentVariables.
    cbn [fold_left]. rewrite Hprops. cbn [fold_left].
    unfold envKey. rewrite Hid.
    rewrite !dom_insert_L, dom_empty_L.
    change (JS.toUpperCase "sendgrid" +:+ "_" +:+ JS.toUpperCase "apiKey")
      with "SENDGRID_APIKEY".
    change (JS.toUpperCase "sendgrid" +:+ "_" +:+ JS.toUpperCase "fromEmail")
      with "SENDGRID_FROMEMAIL".
    set_solver.
Qed.

Lemma resolved_environment_variables_witness :
  exists cfg,
    Reference.resolved Reference.call_error Reference.offline
      "email the weekly report" Reference.boot cfg
    /\ config_environmentVariables cfg !! "SENDGRID_FROMEMAIL"
       = Some "Default sender email".
Proof.
  eexists. split; [reflexivity |].
  pose proof (resolved_environment_variables
                Reference.call_error Reference.offline
                "email the weekly report" Reference.boot _ eq_refl)
    as (Hentry & _).
  apply (Hentry Integrations.sendgrid _ "fromEmail"
           (prop "string" "Default sender email")
           (or_introl eq_refl) eq_refl).
  right. left. reflexivity.
Defined.

End ResolverClaims.

(** ** The matcher *)

Section Matcher.

Lemma filter_sublist {A} (f : A -> bool) (l : list A) :
  sublist (List.filter f l) l.
Proof.
  induction l as [|x l IH]; simpl; [constructor |].
  destruct (f x); [now apply sublist_skip | now apply sublist_cons].
Qed.

Lemma existsb_map_exists {A B} (f : B -> bool) (g : A -> B) (l : list A) :
  existsb f (map g l) = true <-> exists x, In x l /\ f (g x) = true.
Proof.
  rewrite existsb_exists. split.
  - intros (y & Hy & Hf). apply in_map_iff in Hy as (x & <- & Hx). eauto.
  - intros (x & Hx & Hf). exists (g x). split; [now apply in_map | exact Hf].
Qed.

Lemma term_matches_spec (term keyword : string) :
  Patterns.term_matches term (JS.toLowerCase keyword) = true
  <-> Reference.occurs_in (JS.toLowerCase keyword) (JS.toLowerCase term)
      \/ Reference.occurs_in (JS.toLowerCase term) (JS.toLowerCase keyword).
Proof.
  unfold Patterns.term_matches, Reference.occurs_in.
  now rewrite orb_true_iff, !includes_spec.
Qed.

Lemma terms_match_spec (terms keywords : list string) :
  existsb
    (fun term =>
       existsb (fun keyword => Patterns.term_matches term keyword)
               (map JS.toLowerCase keywords))
    terms = true
  <-> exists k term,
        In k keywords /\ In term terms
        /\ (Reference.occurs_in (JS.toLowerCase k) (JS.toLowerCase term)
            \/ Reference.occurs_in (JS.toLowerCase term) (JS.toLowerCase k)).
Proof.
  rewrite existsb_exists. split.
  - intros (term & Hterm & Hex).
    apply existsb_map_exists in Hex as (k & Hk & Hm).
    apply term_matches_spec in Hm. eauto.
  - intros (k & term & Hk & Hterm & Hm). exists term. split; [exact Hterm |].
    apply existsb_map_exists. exists k. split; [exact Hk |].
    now apply term_matches_spec.
Qed.

Lemma category_matches_spec (category : string) (keywords : list string) :
  existsb (String.eqb category) (map JS.toLowerCase keywords) = true
  <-> exists k, In k keywords /\ category = JS.toLowerCase k.
Proof.
  rewrite existsb_map_exists. split; intros (k & Hk & Heq); exists k;
    (split; [exact Hk |]); now apply String.eqb_eq.
Qed.

Lemma integration_matches_spec (i : IntegrationConfig) (keyword : string) :
  Integrations.integration_matches i (JS.toLowerCase keyword) = true
  <-> Reference.occurs_in (JS.toLowerCase keyword)
        (JS.toLowerCase (integration_id i))
      \/ Reference.occurs_in (JS.toLowerCase keyword)
           (JS.toLowerCase (integration_name i))
      \/ Reference.occurs_in (JS.toLowerCase keyword)
           (JS.toLowerCase (integration_displayName i))
      \/ Reference.occurs_in (JS.toLowerCase keyword)
           (JS.toLowerCase (integration_description i)).
Proof.
  unfold Integrations.integration_matches, Reference.occurs_in.
  rewrite !orb_true_iff, !includes_spec. tauto.
Qed.

(** C6, as amended.  [findMatchingPatterns] selects a catalog pattern
    exactly when some query keyword (keywords, then actions) and some
    action or example phrase of the pattern contain one another after case
    folding, or the keyword equals the pattern's category name after case
    folding.  [findMatchingIntegrations] selects a catalog integration
    exactly when some case-folded keyword occurs in the case-folded id,
    name, display name or description.  Both results are subsequences of
    the catalog, in catalog order. *)
Theorem matchers_select_by_containment (keywords actions : list string) :
  (forall p,
      In p (Patterns.findMatchingPatterns keywords actions)
      <-> In p Patterns.TOOL_PATTERNS
          /\ ((exists k action,
                  In k (keywords ++ actions) /\ In action (pattern_actions p)
                  /\ (Reference.occurs_in (JS.toLowerCase k)
                        (JS.toLowerCase action)
                      \/ Reference.occurs_in (JS.toLowerCase action)
                           (JS.toLowerCase k)))
              \/ (exists k example,
                     In k (keywords ++ actions)
                     /\ In example (JS.or_nil (pattern_examples p))
                     /\ (Reference.occurs_in (JS.toLowerCase k)
                           (JS.toLowerCase example)
                         \/ Reference.occurs_in (JS.toLowerCase example)
                              (JS.toLowerCase k)))
              \/ (exists k,
                     In k (keywords ++ actions)
                     /\ JS.toLowerCase (category_name (pattern_category p))
                        = JS.toLowerCase k)))
  /\ sublist (Patterns.findMatchingPatterns keywords actions)
             Patterns.TOOL_PATTERNS
  /\ (forall i,
        In i (Integrations.findMatchingIntegrations keywords)
        <-> In i Integrations.INTEGRATIONS
            /\ exists k,
                 In k keywords
                 /\ (Reference.occurs_in (JS.toLowerCase k)
                       (JS.toLowerCase (integration_id i))
                     \/ Reference.occurs_in (JS.toLowerCase k)
                          (JS.toLowerCase (integration_name i))
                     \/ Reference.occurs_in (JS.toLowerCase k)
                          (JS.toLowerCase (integration_displayName i))
                     \/ Reference.occurs_in (JS.toLowerCase k)
                          (JS.toLowerCase (integration_description i))))
  /\ sublist (Integrations.findMatchingIntegrations keywords)
             Integrations.INTEGRATIONS.
Proof.
  split; [| split; [apply filter_sublist | split; [| apply filter_sublist]]].
  - intros p. unfold Patterns.findMatchingPatterns. cbv zeta.
    rewrite filter_In, !orb_true_iff, terms_match_spec, category_matches_spec.
    assert (Hex :
      match pattern_examples p with
      | Some examples =>
          existsb
            (fun example =>
               existsb (fun keyword => Patterns.term_matches example keyword)
                       (map JS.toLowerCase (keywords ++ actions)))
            examples
      | None => false
      end = true
      <-> exists k example,
            In k (keywords ++ actions)
            /\ In example (JS.or_nil (pattern_examples p))
            /\ (Reference.occurs_in (JS.toLowerCase k) (JS.toLowerCase example)
                \/ Reference.occurs_in (JS.toLowerCase example)
                     (JS.toLowerCase k))).
    { destruct (pattern_examples p) as [examples|]; simpl.
      - apply terms_match_spec.
      - split; [discriminate | intros (k & e & _ & [] & _)]. }
    rewrite Hex. tauto.
  - intros i. unfold Integrations.findMatchingIntegrations. cbv zeta.
    rewrite filter_In, existsb_map_exists.
    split; intros [Hi (k & Hk & Hm)]; (split; [exact Hi |]); exists k;
      (split; [exact Hk |]); now apply integration_matches_spec.
Qed.

(** C6, as stated, fails: a keyword that contains an integration's id does
    not select the integration, and a keyword that contains a pattern's
    category name does not select the pattern. *)
Lemma matcher_containment_is_one_way :
  (In Integrations.github (Reference.spec_findIntegrations ["github issues"])
   /\ ~ In Integrations.github
          (Integrations.findMatchingIntegrations ["github issues"]))
  /\ (In Patterns.database_query (Reference.spec_findPatterns ["databases"] [])
      /\ ~ In Patterns.database_query
             (Patterns.findMatchingPatterns ["databases"] [])).
Proof.
  split; split.
  - vm_compute. now left.
  - vm_compute. intros [].
  - vm_compute. now left.
  - vm_compute. intros [].
Qed.

End Matcher.

(** ** Editing and validating a configuration *)

Section Validation.

Import Core MCPServerGenerator.

Lemma In_concat_imap {A B} (f : nat -> A -> list B) (l : list A) (x : B) :
  In x (concat (imap f l)) <-> exists i y, l !! i = Some y /\ In x (f i y).
Proof.
  revert f. induction l as [|a l IH]; intros f; simpl.
  - split; [tauto | intros (i & y & Hl & _); discriminate].
  - rewrite in_app_iff, IH. split.
    + intros [H | (i & y & Hl & H)].
      * exists 0, a. auto.
      * exists (S i), y. auto.
    + intros (i & y & Hl & H). destruct i as [|i].
      * injection Hl as <-. now left.
      * right. exists i, y. auto.
Qed.

Lemma when_In (condition : bool) (message x : string) :
  In x (when condition message) <-> condition = true /\ x = message.
Proof.
  unfold when. destruct condition; simpl; intuition congruence.
Qed.

Lemma validateTool_not_duplicate (index : nat) (tool : GeneratedTool) :
  ~ In Reference.duplicate_tools (validateTool index tool).
Proof.
  unfold validateTool. rewrite !in_app_iff, !when_In.
  intros [[_ H] | [[_ H] | [_ H]]]; discriminate.
Qed.

Lemma validateIntegration_duplicate (config : ServerConfig) (index : nat)
    (integration : IntegrationConfig) :
  In Reference.duplicate_tools (validateIntegration config index integration)
  <-> ~ List.NoDup (map (fun t => JS.toLowerCase (tool_name t))
                        (customTools config)).
Proof.
  unfold validateIntegration. cbv zeta. rewrite !in_app_iff, !when_In.
  rewrite <- Set_of_size_NoDup. rewrite negb_true_iff, Nat.eqb_neq.
  split.
  - intros [[_ H] | [[_ H] | [[H _] | [_ H]]]]; try discriminate.
    intros Heq. apply H. now symmetry.
  - intros H. right. right. left. split; [| reflexivity].
    intros Heq. apply H. now symmetry.
Qed.

Lemma validateConfig_duplicate (config : ServerConfig) :
  In Reference.duplicate_tools (validateConfig config)
  <-> integrations config <> []
      /\ ~ List.NoDup (map (fun t => JS.toLowerCase (tool_name t))
                           (customTools config)).
Proof.
  unfold validateConfig. rewrite !in_app_iff, !when_In, !In_concat_imap.
  split.
  - intros [[_ H] | [[_ H] | [(i & t & _ & H) | (i & y & Hl & H)]]];
      try discriminate.
    + now apply validateTool_not_duplicate in H.
    + split; [| now apply validateIntegration_duplicate in H].
      intros Hnil. rewrite Hnil in Hl. discriminate.
  - intros [Hne Hdup]. right. right. right.
    destruct (integrations config) as [|y rest] eqn:Hints; [congruence |].
    exists 0, y. split; [reflexivity |].
    apply validateIntegration_duplicate. exact Hdup.
Qed.

End Validation.

Section EditingClaims.

Import Core MCPServerGenerator.

(** C8, as amended.  [addTool], [addIntegration] and [addDependency] each
    return a new configuration that differs from the given one in the one
    member they extend, and none of them validates or rejects anything:
    the tool or integration is appended as it is, and the dependency is
    added unless it is already listed.  Repeated tool names are a matter
    for [validateConfig]: on a configuration with at least one integration
    it reports them, comparing names up to letter case, and
    [generateValidatedServer] then fails without rendering, its message
    listing what [validateConfig] reported. *)
Theorem add_operations_return_unvalidated_copies
    (config : ServerConfig) (tool : GeneratedTool)
    (integration : IntegrationConfig) (dependency : string) :
  (customTools (addTool config tool) = customTools config ++ [tool]
   /\ name (addTool config tool) = name config
   /\ description (addTool config tool) = description config
   /\ dependencies (addTool config tool) = dependencies config
   /\ integrations (addTool config tool) = integrations config)
  /\ (integrations (addIntegration config integration)
      = integrations config ++ [integration]
      /\ name (addIntegration config integration) = name config
      /\ description (addIntegration config integration) = description config
      /\ dependencies (addIntegration config integration) = dependencies config
      /\ customTools (addIntegration config integration) = customTools config)
  /\ (List.NoDup (dependencies (addDependency config dependency))
      /\ (forall d,
            In d (dependencies (addDependency config dependency))
            <-> In d (dependencies config) \/ d = dependency)
      /\ name (addDependency config dependency) = name config
      /\ description (addDependency config dependency) = description config
      /\ customTools (addDependency config dependency) = customTools config
      /\ integrations (addDependency config dependency) = integrations config)
  /\ (integrations config <> [] ->
      (In Reference.duplicate_tools (validateConfig config)
       <-> ~ List.NoDup (map (fun t => JS.toLowerCase (tool_name t))
                             (customTools config))))
  /\ (forall handlebars JSON_stringify outputDir fs,
        validateConfig config <> [] ->
        generateValidatedServer handlebars JSON_stringify config outputDir fs
        = inl ("Configuration validation failed:" +:+ TemplateEngine.newline
               +:+ JS.join TemplateEngine.newline (validateConfig config))).
Proof.
  split; [repeat split |]. split; [repeat split |]. split; [| split].
  - split; [| split; [| repeat split]].
    + apply Set_add_all_NoDup. constructor.
    + intros d. unfold addDependency. cbn [dependencies].
      unfold JS.Array_from, JS.Set_of. rewrite Set_add_all_In, in_app_iff.
      simpl. intuition congruence.
  - intros Hne. rewrite validateConfig_duplicate. tauto.
  - intros handlebars JSON_stringify outputDir fs Herrors.
    unfold generateValidatedServer. cbv zeta.
    destruct (validateConfig config) as [|e errors]; [congruence |].
    reflexivity.
Qed.

Lemma add_operations_return_unvalidated_copies_witness :
  In Reference.duplicate_tools
     (validateConfig
        (addIntegration
           (addTool
              (addTool Reference.weather_config
                       (Reference.weather_tool "Get Weather"))
              (Reference.weather_tool "get weather"))
           Reference.weather_integration)).
Proof.
  pose proof (add_operations_return_unvalidated_copies
                (addIntegration
                   (addTool
                      (addTool Reference.weather_config
                               (Reference.weather_tool "Get Weather"))
                      (Reference.weather_tool "get weather"))
                   Reference.weather_integration)
                (Reference.weather_tool "Get Weather")
                Reference.weather_integration "zod")
    as (_ & _ & _ & Hdup & _).
  apply Hdup; [discriminate |].
  intros Hnd. inversion Hnd as [|? ? Hin _]; subst. apply Hin. now left.
Defined.

(** C8, as stated, fails: adding a tool named [Get Weather] twice raises
    nothing.  Both additions return a configuration, the second one holds
    the tool twice, and (there being no integration) even validation
    reports no error, so that rendering goes ahead; the same holds when
    the two names differ in letter case only. *)
Lemma addTool_twice_raises_nothing :
  map tool_name
      (customTools
         (addTool
            (addTool Reference.weather_config
                     (Reference.weather_tool "Get Weather"))
            (Reference.weather_tool "Get Weather")))
  = ["Get Weather"; "Get Weather"]
  /\ validateConfig
       (addTool
          (addTool Reference.weather_config
                   (Reference.weather_tool "Get Weather"))
          (Reference.weather_tool "Get Weather"))
     = []
  /\ validateConfig
       (addTool
          (addTool Reference.weather_config
                   (Reference.weather_tool "Get Weather"))
          (Reference.weather_tool "get weather"))
     = []
  /\ (forall handlebars JSON_stringify outputDir fs,
        generateValidatedServer handlebars JSON_stringify
          (addTool
             (addTool Reference.weather_config
                      (Reference.weather_tool "Get Weather"))
             (Reference.weather_tool "Get Weather"))
          outputDir fs
        = inr (generateServer handlebars JSON_stringify
                 (addTool
                    (addTool Reference.weather_config
                             (Reference.weather_tool "Get Weather"))
                    (Reference.weather_tool "Get Weather"))
                 outputDir fs)).
Proof.
  split; [reflexivity |]. split; [vm_compute; reflexivity |].
  split; [vm_compute; reflexivity |].
  intros handlebars JSON_stringify outputDir fs.
  unfold generateValidatedServer. cbv zeta.
  replace (validateConfig
             (addTool
                (addTool Reference.weather_config
                         (Reference.weather_tool "Get Weather"))
                (Reference.weather_tool "Get Weather")))
    with (@nil string) by (vm_compute; reflexivity).
  reflexivity.
Qed.

End EditingClaims.

(** ** Rendering *)

Section Rendering.

Import Core TemplateEngine.

Variable handlebars : Helpers -> Template -> Context -> string.
Variable JSON_stringify : JSON -> string.

Lemma under_inj (outputDir : string) :
  Inj (=) (=) (Reference.under outputDir).
Proof.
  intros r1 r2 Heq. unfold Reference.under in Heq.
  apply (inj (String.app outputDir)) in Heq.
  now apply (inj (String.app "/")) in Heq.
Qed.

#[local] Existing Instance under_inj.

Lemma kmap_write_entries (outputDir : string) (entries : list (string * string))
    (tree : gmap string string) :
  kmap (M2 := gmap string) (Reference.under outputDir)
       (fold_left Reference.write_entry entries tree)
  = fold_left Reference.write_entry
      (map (fun entry => (Reference.under outputDir (fst entry), snd entry))
           entries)
      (kmap (M2 := gmap string) (Reference.under outputDir) tree).
Proof.
  revert tree. induction entries as [|[path content] entries IH]; intros tree;
    [reflexivity |].
  cbn [fold_left map]. rewrite IH. f_equal.
  unfold Reference.write_entry. cbn [fst snd]. apply kmap_insert. apply _.
Qed.

Lemma generateToolFiles_files (config : ServerConfig) (outputDir : string)
    (tools : list GeneratedTool) (fs : FileSystem) :
  let out :=
    fold_left
      (fun fs tool =>
         generateToolFile handlebars JSON_stringify tool config outputDir fs)
      tools fs in
  dirs out = dirs fs
  /\ files out
     = fold_left Reference.write_entry
         (map (fun tool =>
                 (Reference.under outputDir
                    ("src/tools/" +:+ kebabCase (tool_name tool) +:+ ".ts"),
                  compiled handlebars JSON_stringify ToolFileTemplate
                           (ToolContext tool (integrations config))))
              tools)
         (files fs).
Proof.
  revert fs. induction tools as [|tool tools IH]; intros fs; [now split |].
  cbn [fold_left map]. cbv zeta in IH.
  destruct (IH (generateToolFile handlebars JSON_stringify tool config
                  outputDir fs)) as [Hd Hf].
  split; [exact Hd | exact Hf].
Qed.

Lemma generateIntegrationFiles_files (outputDir : string)
    (selected : list IntegrationConfig) (fs : FileSystem) :
  let out :=
    fold_left
      (fun fs integration =>
         generateIntegrationFile handlebars JSON_stringify integration
           outputDir fs)
      selected fs in
  dirs out = dirs fs
  /\ files out
     = fold_left Reference.write_entry
         (map (fun integration =>
                 (Reference.under outputDir
                    ("src/integrations/"
                     +:+ kebabCase (integration_name integration) +:+ ".ts"),
                  compiled handlebars JSON_stringify IntegrationFileTemplate
                           (IntegrationContext integration)))
              selected)
         (files fs).
Proof.
  revert fs. induction selected as [|i selected IH]; intros fs; [now split |].
  cbn [fold_left map]. cbv zeta in IH.
  destruct (IH (generateIntegrationFile handlebars JSON_stringify i
                  outputDir fs)) as [Hd Hf].
  split; [exact Hd | exact Hf].
Qed.

(** What one run leaves in the output directory. *)
Lemma generateServer_tree (config : ServerConfig) (outputDir : string) :
  let out := generateServer handlebars JSON_stringify config outputDir empty_fs in
  files out
  = kmap (M2 := gmap string) (Reference.under outputDir)
         (Reference.relative_tree handlebars JSON_stringify config)
  /\ dirs out
     = {[ outputDir ]}
       ∪ set_map (D := gset string) (Reference.under outputDir)
                 Reference.relative_folders.
Proof.
  cbv zeta. unfold generateServer. cbv zeta.
  unfold generateTypesFile, generateIntegrationFiles, generateToolFiles.
  match goal with
  | |- context [fold_left _ (integrations config) ?fs] =>
      destruct (generateIntegrationFiles_files outputDir (integrations config) fs)
        as [Hdi Hfi]
  end.
  match type of Hfi with
  | context [fold_left _ (customTools config) ?fs] =>
      destruct (generateToolFiles_files config outputDir (customTools config) fs)
        as [Hdt Hft]
  end.
  cbv zeta in Hdi, Hfi, Hdt, Hft. split.
  - cbn [files writeFile]. rewrite Hfi, Hft.
    unfold Reference.relative_tree, Reference.relative_files.
    rewrite kmap_write_entries, kmap_empty.
    rewrite !map_app, !fold_left_app, !map_map.
    reflexivity.
  - cbn [dirs writeFile]. rewrite Hdi, Hdt. cbn.
    unfold Reference.relative_folders.
    rewrite !set_map_union_L, !set_map_singleton_L.
    unfold Reference.under, path_join. cbn.
    apply set_eq. intros path.
    rewrite !elem_of_union, !elem_of_singleton, elem_of_empty. tauto.
Qed.

(** C9.  Rendering a configuration into two empty output directories
    leaves the same tree in both: the files of either run are the files of
    one tree of relative paths, placed below the run's output directory,
    and so are the folders; every relative path holds the same content, or
    nothing, in both. *)
Theorem rendering_is_deterministic (config : ServerConfig)
    (outputDir1 outputDir2 : string) :
  let out1 :=
    generateServer handlebars JSON_stringify config outputDir1 empty_fs in
  let out2 :=
    generateServer handlebars JSON_stringify config outputDir2 empty_fs in
  files out1
  = kmap (M2 := gmap string) (Reference.under outputDir1)
         (Reference.relative_tree handlebars JSON_stringify config)
  /\ files out2
     = kmap (M2 := gmap string) (Reference.under outputDir2)
            (Reference.relative_tree handlebars JSON_stringify config)
  /\ dirs out1
     = {[ outputDir1 ]}
       ∪ set_map (D := gset string) (Reference.under outputDir1)
                 Reference.relative_folders
  /\ dirs out2
     = {[ outputDir2 ]}
       ∪ set_map (D := gset string) (Reference.under outputDir2)
                 Reference.relative_folders
  /\ forall relative,
       files out1 !! Reference.under outputDir1 relative
       = files out2 !! Reference.under outputDir2 relative.
Proof.
  cbv zeta.
  destruct (generateServer_tree config outputDir1) as [Hf1 Hd1].
  destruct (generateServer_tree config outputDir2) as [Hf2 Hd2].
  cbv zeta in Hf1, Hd1, Hf2, Hd2.
  repeat split; try assumption.
  intros relative. rewrite Hf1, Hf2, !lookup_kmap; [reflexivity | apply _ ..].
Qed.

End Rendering.

(** * Further properties of the code *)

(** ** The matcher and the catalog lookups *)

Section MatcherMore.

Lemma includes_empty (s : string) : JS.includes s "" = true.
Proof. destruct s; reflexivity. Qed.

Lemma string_app_empty_r (s : string) : s +:+ "" = s.
Proof.
  induction s as [|c s IH]; [reflexivity |].
  change (String c (s +:+ "") = String c s). now rewrite IH.
Qed.

Lemma includes_refl (s : string) : JS.includes s s = true.
Proof.
  apply includes_spec. exists "", "". simpl. now rewrite string_app_empty_r.
Qed.

Lemma filter_all {A} (f : A -> bool) (l : list A) :
  (forall x, In x l -> f x = true) -> List.filter f l = l.
Proof.
  induction l as [|x l IH]; simpl; intros Hall; [reflexivity |].
  rewrite (Hall x) by now left. f_equal. apply IH. intros y Hy. apply Hall.
  now right.
Qed.

Lemma existsb_existsb_app {A B} (g : A -> B -> bool) (terms : list A)
    (k1 k2 : list B) :
  existsb (fun a => existsb (g a) (k1 ++ k2)) terms
  = existsb (fun a => existsb (g a) k1) terms
    || existsb (fun a => existsb (g a) k2) terms.
Proof.
  induction terms as [|a terms IH]; simpl; [reflexivity |].
  rewrite IH, existsb_app. btauto.
Qed.

(** The test [findMatchingPatterns] applies to one pattern, for a list of
    case-folded keywords. *)
Lemma findMatchingPatterns_filter (keywords actions : list string) :
  Patterns.findMatchingPatterns keywords actions
  = List.filter
      (fun pattern =>
         existsb
           (fun action =>
              existsb (fun keyword => Patterns.term_matches action keyword)
                      (map JS.toLowerCase (keywords ++ actions)))
           (pattern_actions pattern)
         || match pattern_examples pattern with
            | Some examples =>
                existsb
                  (fun example =>
                     existsb
                       (fun keyword => Patterns.term_matches example keyword)
                       (map JS.toLowerCase (keywords ++ actions)))
                  examples
            | None => false
            end
         || existsb
              (String.eqb
                 (JS.toLowerCase (category_name (pattern_category pattern))))
              (map JS.toLowerCase (keywords ++ actions)))
      Patterns.TOOL_PATTERNS.
Proof. reflexivity. Qed.

Lemma catalog_patterns_have_actions (p : ToolPattern) :
  In p Patterns.TOOL_PATTERNS -> pattern_actions p <> [].
Proof.
  intros Hp. repeat (destruct Hp as [<- | Hp]; [discriminate |]). destruct Hp.
Qed.

(** X1.  An empty keyword is a substring of everything: as soon as the
    query (keywords or actions) holds the empty string, [findMatchingPatterns]
    returns the whole pattern catalog and [findMatchingIntegrations] the
    whole integration catalog. *)
Theorem empty_keyword_selects_the_whole_catalog (keywords actions : list string) :
  In "" (keywords ++ actions) ->
  Patterns.findMatchingPatterns keywords actions = Patterns.TOOL_PATTERNS
  /\ Integrations.findMatchingIntegrations (keywords ++ actions)
     = Integrations.INTEGRATIONS.
Proof.
  intros Hempty.
  assert (Hlow : In "" (map JS.toLowerCase (keywords ++ actions))).
  { apply in_map_iff. exists "". split; [reflexivity | exact Hempty]. }
  split.
  - rewrite findMatchingPatterns_filter. apply filter_all. intros p Hp.
    apply orb_true_iff. left. apply orb_true_iff. left.
    pose proof (catalog_patterns_have_actions p Hp) as Hacts.
    destruct (pattern_actions p) as [|action rest]; [congruence |].
    cbn [existsb]. apply orb_true_iff. left.
    apply existsb_exists. exists "". split; [exact Hlow |].
    unfold Patterns.term_matches. now rewrite includes_empty.
  - unfold Integrations.findMatchingIntegrations. apply filter_all.
    intros i _. apply existsb_exists. exists "". split; [exact Hlow |].
    unfold Integrations.integration_matches. now rewrite includes_empty.
Qed.

Lemma empty_keyword_selects_the_whole_catalog_witness :
  Patterns.findMatchingPatterns ["weather"; ""] [] = Patterns.TOOL_PATTERNS
  /\ Integrations.findMatchingIntegrations (["weather"; ""] ++ [])
     = Integrations.INTEGRATIONS.
Proof.
  apply (empty_keyword_selects_the_whole_catalog ["weather"; ""] []).
  right. left. reflexivity.
Defined.

(** X2.  The [actions] argument of [findMatchingPatterns] is one more list
    of keywords, and a query is the union of its keywords: a pattern (an
    integration) is selected for two keyword lists put together exactly
    when it is selected for one of them.  The empty query selects
    nothing. *)
Theorem matchers_answer_keyword_by_keyword
    (keywords actions more : list string) :
  Patterns.findMatchingPatterns keywords actions
  = Patterns.findMatchingPatterns (keywords ++ actions) []
  /\ (forall p,
        In p (Patterns.findMatchingPatterns (keywords ++ more) [])
        <-> In p (Patterns.findMatchingPatterns keywords [])
            \/ In p (Patterns.findMatchingPatterns more []))
  /\ (forall i,
        In i (Integrations.findMatchingIntegrations (keywords ++ more))
        <-> In i (Integrations.findMatchingIntegrations keywords)
            \/ In i (Integrations.findMatchingIntegrations more))
  /\ Patterns.findMatchingPatterns [] [] = []
  /\ Integrations.findMatchingIntegrations [] = [].
Proof.
  split; [| split; [| split; [| split; reflexivity]]].
  - rewrite !findMatchingPatterns_filter, !app_nil_r. reflexivity.
  - intros p. rewrite !findMatchingPatterns_filter, !app_nil_r, !filter_In.
    rewrite map_app, !existsb_existsb_app, existsb_app.
    destruct (pattern_examples p) as [examples|].
    + rewrite existsb_existsb_app, !orb_true_iff. tauto.
    + rewrite !orb_true_iff. tauto.
  - intros i. unfold Integrations.findMatchingIntegrations. cbv zeta.
    rewrite !filter_In, map_app, existsb_app, orb_true_iff. tauto.
Qed.

(** X3.  Every catalog entry is found by its own terms, whatever their
    letter case: a pattern by its category name and by any of its actions,
    an integration by its id, name, display name or description. *)
Theorem catalog_entries_are_found_by_their_own_terms (keyword : string) :
  (forall p,
      In p Patterns.TOOL_PATTERNS ->
      JS.toLowerCase keyword
      = JS.toLowerCase (category_name (pattern_category p))
      \/ (exists action,
             In action (pattern_actions p)
             /\ JS.toLowerCase keyword = JS.toLowerCase action) ->
      In p (Patterns.findMatchingPatterns [keyword] []))
  /\ (forall i,
        In i Integrations.INTEGRATIONS ->
        JS.toLowerCase keyword = JS.toLowerCase (integration_id i)
        \/ JS.toLowerCase keyword = JS.toLowerCase (integration_name i)
        \/ JS.toLowerCase keyword = JS.toLowerCase (integration_displayName i)
        \/ JS.toLowerCase keyword = JS.toLowerCase (integration_description i) ->
        In i (Integrations.findMatchingIntegrations [keyword])).
Proof.
  split.
  - intros p Hp Hterm. rewrite findMatchingPatterns_filter. apply filter_In.
    split; [exact Hp |]. cbn [app map existsb].
    destruct Hterm as [Hcat | (action & Haction & Heq)].
    + apply orb_true_iff. right. rewrite Hcat, String.eqb_refl. reflexivity.
    + apply orb_true_iff. left. apply orb_true_iff. left.
      apply existsb_exists. exists action. split; [exact Haction |].
      unfold Patterns.term_matches. rewrite Heq, includes_refl. reflexivity.
  - intros i Hi Hterm. unfold Integrations.findMatchingIntegrations.
    apply filter_In. split; [exact Hi |]. cbn [map existsb].
    unfold Integrations.integration_matches.
    destruct Hterm as [-> | [-> | [-> | ->]]]; rewrite includes_refl;
      repeat rewrite orb_true_r; reflexivity.
Qed.

Lemma catalog_entries_are_found_by_their_own_terms_witness :
  In Integrations.github (Integrations.findMatchingIntegrations ["GitHub"])
  /\ In Patterns.notification_sender
        (Patterns.findMatchingPatterns ["SMS"] []).
Proof.
  destruct (catalog_entries_are_found_by_their_own_terms "GitHub") as [_ Hi].
  destruct (catalog_entries_are_found_by_their_own_terms "SMS") as [Hp _].
  split.
  - apply Hi; [left; reflexivity | left; reflexivity].
  - apply Hp; [do 3 right; left; reflexivity |].
    right. exists "sms". split; [| reflexivity]. do 4 right. left. reflexivity.
Defined.

Lemma catalog_integration_ids :
  List.NoDup (map integration_id Integrations.INTEGRATIONS).
Proof. apply NoDup_ListNoDup, (bool_decide_unpack _). vm_compute. exact I. Qed.

Lemma catalog_pattern_ids :
  List.NoDup (map pattern_id Patterns.TOOL_PATTERNS).
Proof. apply NoDup_ListNoDup, (bool_decide_unpack _). vm_compute. exact I. Qed.

Lemma find_by_id_spec {A} (id : A -> string) (catalog : list A) (key : string) :
  List.NoDup (map id catalog) ->
  (forall x,
      List.find (fun y => String.eqb (id y) key) catalog = Some x
      <-> In x catalog /\ id x = key)
  /\ (List.find (fun y => String.eqb (id y) key) catalog = None
      <-> forall x, In x catalog -> id x <> key).
Proof.
  intros Hnd. split.
  - intros x. split.
    + intros Hfind. apply find_some in Hfind as [Hin Heq].
      apply String.eqb_eq in Heq. auto.
    + intros [Hin Heq].
      destruct (List.find (fun y => String.eqb (id y) key) catalog) as [y|] eqn:Hf.
      * apply find_some in Hf as [Hy Hyk]. apply String.eqb_eq in Hyk.
        f_equal. apply (NoDup_map_In_inj id catalog); congruence.
      * pose proof (find_none _ _ Hf x Hin) as Hno. cbv beta in Hno.
        rewrite Heq, String.eqb_refl in Hno. discriminate.
  - split.
    + intros Hf x Hin Heq. pose proof (find_none _ _ Hf x Hin) as Hno.
      cbv beta in Hno. rewrite Heq, String.eqb_refl in Hno. discriminate.
    + intros Hno.
      destruct (List.find (fun y => String.eqb (id y) key) catalog) as [y|] eqn:Hf;
        [| reflexivity].
      apply find_some in Hf as [Hy Hyk]. apply String.eqb_eq in Hyk.
      now destruct (Hno y Hy).
Qed.

(** X4.  [getIntegrationById] is a lookup by key: it returns an integration
    exactly when that is the catalog entry with the given id, [undefined]
    exactly when no entry has the id (ids are compared as they are, letter
    case included), and looking up the id of any entry that
    [getAllIntegrations] lists gives that entry back. *)
Theorem getIntegrationById_is_a_lookup (id : string) :
  (forall i,
      Integrations.getIntegrationById id = Some i
      <-> In i Integrations.INTEGRATIONS /\ integration_id i = id)
  /\ (Integrations.getIntegrationById id = None
      <-> forall i, In i Integrations.INTEGRATIONS -> integration_id i <> id)
  /\ (forall i,
        In i Integrations.getAllIntegrations ->
        Integrations.getIntegrationById (integration_id i) = Some i).
Proof.
  unfold Integrations.getIntegrationById, Integrations.getAllIntegrations.
  destruct (find_by_id_spec integration_id Integrations.INTEGRATIONS id
              catalog_integration_ids) as [Hsome Hnone].
  split; [exact Hsome |]. split; [exact Hnone |].
  intros i Hi.
  apply (find_by_id_spec integration_id Integrations.INTEGRATIONS
           (integration_id i) catalog_integration_ids).
  split; [exact Hi | reflexivity].
Qed.

Lemma getIntegrationById_is_a_lookup_witness :
  Integrations.getIntegrationById "twilio" = Some Integrations.twilio
  /\ Integrations.getIntegrationById "Twilio" = None.
Proof.
  split.
  - apply (getIntegrationById_is_a_lookup "twilio"). split; [| reflexivity].
    do 6 right. left. reflexivity.
  - apply (getIntegrationById_is_a_lookup "Twilio").
    intros i Hi.
    repeat (destruct Hi as [<- | Hi]; [discriminate |]). destruct Hi.
Defined.

(** X5.  The categories partition the pattern catalog:
    [getToolCategories] lists every category name that occurs in the
    catalog, each once; [getPatternsByCategory] returns the catalog patterns
    of exactly that category name; and it returns something exactly for the
    names [getToolCategories] lists. *)
Theorem categories_partition_the_catalog (category : string) :
  List.NoDup Patterns.getToolCategories
  /\ (In category Patterns.getToolCategories
      <-> exists p, In p Patterns.TOOL_PATTERNS
                    /\ category_name (pattern_category p) = category)
  /\ (forall p,
        In p (Patterns.getPatternsByCategory category)
        <-> In p Patterns.TOOL_PATTERNS
            /\ category_name (pattern_category p) = category)
  /\ (Patterns.getPatternsByCategory category <> []
      <-> In category Patterns.getToolCategories)
  /\ sublist (Patterns.getPatternsByCategory category) Patterns.TOOL_PATTERNS.
Proof.
  assert (Hcats : In category Patterns.getToolCategories
                  <-> exists p, In p Patterns.TOOL_PATTERNS
                                /\ category_name (pattern_category p) = category).
  { unfold Patterns.getToolCategories, JS.Array_from, JS.Set_of.
    rewrite Set_add_all_In, in_map_iff. split.
    - intros [[] | (p & Hc & Hp)]. eauto.
    - intros (p & Hp & Hc). right. eauto. }
  assert (Hby : forall p,
             In p (Patterns.getPatternsByCategory category)
             <-> In p Patterns.TOOL_PATTERNS
                 /\ category_name (pattern_category p) = category).
  { intros p. unfold Patterns.getPatternsByCategory.
    now rewrite filter_In, String.eqb_eq. }
  split; [apply Set_add_all_NoDup; constructor |].
  split; [exact Hcats |]. split; [exact Hby |].
  split; [| apply filter_sublist].
  rewrite Hcats. split.
  - intros Hne.
    destruct (Patterns.getPatternsByCategory category) as [|p rest] eqn:Hl;
      [congruence |].
    exists p. apply Hby. now left.
  - intros (p & Hp) Hnil. apply Hby in Hp. now rewrite Hnil in Hp.
Qed.

End MatcherMore.

(** ** More about the resolver *)

Section ResolverMore.

Import AIGenerator.

Lemma firsts_app_distinct {A} (id : A -> string) (seen : list string)
    (l rest : list A) :
  List.NoDup (map id l) ->
  (forall x, In x l -> ~ In (id x) seen) ->
  Reference.firsts id seen (l ++ rest)
  = l ++ Reference.firsts id (seen ++ map id l) rest.
Proof.
  revert seen. induction l as [|x l IH]; intros seen Hnd Hfresh.
  - cbn [app map]. now rewrite app_nil_r.
  - cbn [app map Reference.firsts]. inversion Hnd as [|? ? Hx Hl]; subst.
    destruct (existsb (fun s => String.eqb s (id x)) seen) eqn:Hseen.
    + apply existsb_seen in Hseen. exfalso.
      apply (Hfresh x); [now left | exact Hseen].
    + cbn [app]. f_equal. rewrite IH.
      * now rewrite <- app_assoc.
      * exact Hl.
      * intros y Hy Hin. apply in_app_iff in Hin as [Hin | [Heq | []]].
        -- apply (Hfresh y); [now right | exact Hin].
        -- apply Hx. rewrite Heq. now apply in_map.
Qed.

(** The integrations the first loop of [selectIntegrations] pushes. *)
Lemma suggested_lookups (analysis : Analysis) :
  (forall id, In id (JS.or_nil (suggestedIntegrations analysis)) ->
              exists i, In i Integrations.INTEGRATIONS /\ integration_id i = id) ->
  map integration_id (suggestedMatches analysis)
  = JS.or_nil (suggestedIntegrations analysis).
Proof.
  unfold suggestedMatches. cbv zeta.
  induction (JS.or_nil (suggestedIntegrations analysis)) as [|id rest IH];
    intros Hknown; [reflexivity |].
  cbn [flat_map]. rewrite map_app, IH by (intros; apply Hknown; now right).
  destruct (Hknown id (or_introl eq_refl)) as (i & Hi & Hid).
  destruct (find_by_id_spec integration_id Integrations.INTEGRATIONS id
              catalog_integration_ids) as [Hsome _].
  rewrite (proj2 (Hsome i) (conj Hi Hid)). cbn [map app]. now rewrite Hid.
Qed.

Lemma limitIntegrations_ids (selected : list IntegrationConfig) :
  List.NoDup (map integration_id selected) ->
  map integration_id (limitIntegrations selected)
  = firstn 3 (map integration_id selected).
Proof.
  intros Hnd. unfold limitIntegrations, JS.slice.
  rewrite uniqueBy_distinct by exact Hnd. symmetry. apply firstn_map.
Qed.

(** X6.  For an analysis that names no service, the only kind for which
    [selectIntegrations] returns, the selection follows the suggestions:
    when the suggested ids are pairwise distinct catalog ids, the ids of
    the selected integrations are exactly the first three suggestions, in
    order. *)
Theorem suggested_integrations_are_selected_in_order
    (not_a_function : string) (analysis : Analysis) :
  JS.or_nil (services analysis) = [] ->
  List.NoDup (JS.or_nil (suggestedIntegrations analysis)) ->
  (forall id, In id (JS.or_nil (suggestedIntegrations analysis)) ->
              exists i, In i Integrations.INTEGRATIONS /\ integration_id i = id) ->
  exists selected,
    selectIntegrations not_a_function analysis = inr selected
    /\ map integration_id selected
       = firstn 3 (JS.or_nil (suggestedIntegrations analysis)).
Proof.
  intros Hnone Hnd Hknown.
  exists (limitIntegrations (suggestedMatches analysis)). split.
  - now apply selectIntegrations_returns.
  - pose proof (suggested_lookups analysis Hknown) as Hids.
    rewrite limitIntegrations_ids; rewrite Hids; [reflexivity | exact Hnd].
Qed.

Lemma suggested_integrations_are_selected_in_order_witness :
  exists selected,
    selectIntegrations Reference.call_error
      (createFallbackAnalysis Reference.report_request)
    = inr selected
    /\ map integration_id selected = ["postgresql"; "sendgrid"].
Proof.
  apply (suggested_integrations_are_selected_in_order Reference.call_error
           (createFallbackAnalysis Reference.report_request)).
  - reflexivity.
  - apply NoDup_ListNoDup, (bool_decide_unpack _). vm_compute. exact I.
  - intros id Hid. vm_compute in Hid.
    destruct Hid as [<- | [<- | []]].
    + exists Integrations.postgresql. split; [do 2 right; now left | reflexivity].
    + exists Integrations.sendgrid. split; [do 3 right; now left | reflexivity].
Defined.



(** X8.  [selectToolPatterns] selects a catalog pattern only for a reason:
    its category is among the analysis' tool categories, or one of its
    actions and one of the analysis' primary actions contain one another
    (letter case aside), or nothing matched at all and it is the default
    [api-request].  Conversely a pattern that matched is selected unless
    the cap of five is reached. *)
Theorem selected_patterns_are_matched_or_default (analysis : Analysis)
    (p : ToolPattern) :
  (In p (selectToolPatterns analysis) ->
   In p Patterns.TOOL_PATTERNS
   /\ (In (category_name (pattern_category p))
          (JS.or_nil (toolCategories analysis))
       \/ (exists action,
              In action (JS.or_nil (primaryActions analysis))
              /\ action_matches p action = true)
       \/ (matchedPatterns analysis = [] /\ p = Patterns.api_request)))
  /\ (In p (matchedPatterns analysis) ->
      In p (selectToolPatterns analysis)
      \/ List.length (selectToolPatterns analysis) = 5).
Proof.
  split.
  - intros Hin. split; [now apply selectToolPatterns_catalog in Hin |].
    apply limitPatterns_In in Hin as [Hin | Hdefault]; [| now right; right].
    unfold matchedPatterns in Hin. rewrite in_app_iff, !in_flat_map in Hin.
    destruct Hin as [(c & Hc & Hp) | (action & Ha & Hp)].
    + left. apply filter_In in Hp as [_ Heq]. apply String.eqb_eq in Heq.
      now rewrite Heq.
    + right. left. exists action. apply filter_In in Hp as [_ Hm]. auto.
  - intros Hin. unfold selectToolPatterns. rewrite limitPatterns_unfold.
    destruct (matchedPatterns analysis) as [|q rest] eqn:Hm; [destruct Hin |].
    rewrite <- Hm in *. rewrite <- uniqueBy_firsts.
    destruct (le_lt_dec (List.length (uniqueBy pattern_id (matchedPatterns analysis))) 5)
      as [Hle | Hgt].
    + left. rewrite firstn_all2 by exact Hle.
      destruct (uniqueBy_covers pattern_id _ p Hin) as (y & Hy & Hid).
      assert (y = p) as <-; [| exact Hy].
      apply (NoDup_map_In_inj pattern_id Patterns.TOOL_PATTERNS);
        [apply catalog_pattern_ids | | | exact Hid].
      * apply uniqueBy_In in Hy. now apply matchedPatterns_catalog in Hy.
      * now apply matchedPatterns_catalog in Hin.
    + right. rewrite length_take. lia.
Qed.

Lemma selected_patterns_are_matched_or_default_witness :
  In Patterns.file_operations
     (selectToolPatterns
        (createFallbackAnalysis "upload the sql dump and email me"))
  \/ List.length
       (selectToolPatterns
          (createFallbackAnalysis "upload the sql dump and email me")) = 5.
Proof.
  apply (selected_patterns_are_matched_or_default
           (createFallbackAnalysis "upload the sql dump and email me")
           Patterns.file_operations).
  vm_compute. right. left. reflexivity.
Defined.

(** Every tool the loop adds was made from one of the patterns and from a
    reply of the service. *)
Lemma generateCustomTools_from_origin (openai : OpenAI) (analysis : Analysis)
    (patterns : list ToolPattern) (customTools : list GeneratedTool)
    (w : World) (tool : GeneratedTool) :
  In tool (fst (generateCustomTools_from openai customTools analysis patterns w)) ->
  In tool customTools
  \/ exists pattern w' toolData,
       In pattern patterns
       /\ tool_reply openai w' analysis pattern = Some toolData
       /\ tool_patternId tool = pattern_id pattern
       /\ tool_dependencies tool = pattern_dependencies pattern
       /\ tool_name tool = data_name toolData.
Proof.
  revert customTools w.
  induction patterns as [|pattern rest IH]; intros customTools w; simpl.
  - now left.
  - unfold bind.
    pose proof (generateCustomTool_Some openai analysis pattern w) as Hsome.
    destruct (generateCustomTool openai analysis pattern w) as [made w1].
    simpl in Hsome. intros Hin. apply IH in Hin.
    destruct Hin as [Hin | (q & w' & td & Hq & Hrest)].
    + destruct made as [t|]; [| now left].
      apply in_app_iff in Hin as [Hin | [<- | []]]; [now left |].
      right. destruct (Hsome t eq_refl) as (Hid & Hdeps & td & Hreply & Hname).
      exists pattern, w, td. split; [now left | auto].
    + right. exists q, w', td. split; [now right | exact Hrest].
Qed.

(** X9.  The dependencies of a resolved configuration are closed under its
    tools: every generated tool stems from one of the selected patterns,
    carries that pattern's dependency list and the name the service gave
    it, and each of its dependencies is listed in the configuration. *)
Theorem resolved_tools_bring_no_new_dependency
    (not_a_function : string) (openai : OpenAI)
    (description : string) (w : World) (cfg : ServerConfig)
    (tool : GeneratedTool) :
  Reference.resolved not_a_function openai description w cfg ->
  In tool (config_customTools cfg) ->
  (exists pattern w' toolData,
      In pattern (config_patterns cfg)
      /\ tool_reply openai w' (aiAnalysis (config_metadata cfg)) pattern
         = Some toolData
      /\ tool_patternId tool = pattern_id pattern
      /\ tool_dependencies tool = pattern_dependencies pattern
      /\ tool_name tool = data_name toolData)
  /\ forall dep, In dep (tool_dependencies tool) ->
                 In dep (config_dependencies cfg).
Proof.
  intros Hres Hin.
  destruct (resolved_inv _ _ _ _ _ Hres)
    as (a & w1 & _ & Hpat & _ & Htools & Hdeps & _ & Hmeta).
  rewrite Htools in Hin. unfold generateCustomTools in Hin.
  apply generateCustomTools_from_origin in Hin
    as [[] | (pattern & w' & td & Hp & Hreply & Hid & Hd & Hname)].
  rewrite <- Hpat in Hp. rewrite <- Hmeta in Hreply.
  split; [exists pattern, w', td; auto |].
  intros dep Hdep. rewrite Hdeps.
  apply (proj2 (calculateDependencies_union _ _)).
  right. right. left. exists pattern. split; [exact Hp | now rewrite <- Hd].
Qed.

Lemma resolved_tools_bring_no_new_dependency_witness :
  exists cfg tool,
    Reference.resolved Reference.call_error Reference.repetitive
      Reference.report_request Reference.boot cfg
    /\ In tool (config_customTools cfg)
    /\ tool_patternId tool = "notification-sender"
    /\ forall dep, In dep (tool_dependencies tool) ->
                   In dep (config_dependencies cfg).
Proof.
  eexists. eexists. split; [reflexivity |].
  split; [right; right; left; reflexivity |]. split; [reflexivity |].
  apply (resolved_tools_bring_no_new_dependency
           Reference.call_error Reference.repetitive
           Reference.report_request Reference.boot _ _ eq_refl).
  right. right. left. reflexivity.
Defined.

Lemma analyzeRequiredTools_sent (openai : OpenAI) (description : string)
    (w : World) :
  sent (snd (analyzeRequiredTools openai description w))
  = sent w ++ [AnalysisRequest description]
  /\ (fst (analyzeRequiredTools openai description w) = AnalysisNull ->
      analysis_reply openai w description = Some AnalysisNull).
Proof.
  unfold analyzeRequiredTools, bind, request, ret.
  destruct (analysis_reply openai w description) as [[a|]|]; simpl;
    split; try reflexivity; discriminate.
Qed.

(** X10.  When the analysis request fails, one call of
    [generateServerConfig] goes one of two ways.  For a description that
    mentions neither [github] nor [slack] it returns, having sent the
    analysis request and then one synthesis request per selected pattern,
    in selection order, and nothing else: between two and six requests,
    none repeated after a failure.  For a description that mentions one of
    them it throws, the analysis request being the only one sent.  When
    the analysis reply parses to [null] it throws as well, on the first
    member it reads, after the same single request. *)
Theorem resolver_sends_one_request_per_step
    (not_a_function : string) (openai : OpenAI)
    (description : string) (w : World) :
  (analysis_reply openai w description = None ->
   match generateServerConfig not_a_function openai description w with
   | (inr cfg, w') =>
       Reference.names_a_service description = false
       /\ sent w'
          = sent w
            ++ AnalysisRequest description
               :: map (ToolRequest (createFallbackAnalysis description))
                      (config_patterns cfg)
       /\ config_patterns cfg
          = selectToolPatterns (createFallbackAnalysis description)
       /\ List.length (sent w) + 2 <= List.length (sent w')
          <= List.length (sent w) + 6
   | (inl message, w') =>
       Reference.names_a_service description = true
       /\ sent w' = sent w ++ [AnalysisRequest description]
       /\ message = "AI Generation failed: " +:+ not_a_function
   end)
  /\ (analysis_reply openai w description = Some AnalysisNull ->
      generateServerConfig not_a_function openai description w
      = (inl ("AI Generation failed: " +:+ null_member_error),
         {| sent := sent w ++ [AnalysisRequest description];
            now := (now w
                    + elapsed openai w (AnalysisRequest description))%Z |})).
Proof.
  split.
  - intros Hreply.
    pose proof (analyzeRequiredTools_fallback openai description w Hreply)
      as Hfb.
    pose proof (analyzeRequiredTools_world openai description w) as Hworld.
    destruct (analyzeRequiredTools openai description w) as [parsed w1] eqn:Han.
    cbn [fst snd] in Hfb, Hworld. subst parsed.
    destruct (Reference.names_a_service description) eqn:Hnames.
    + rewrite (generateServerConfig_raises not_a_function openai description
                 w w1 _ Han).
      * rewrite Hworld. auto.
      * intros Hnone. apply fallback_names_a_service in Hnone. congruence.
    + apply fallback_names_a_service in Hnames.
      unfold generateServerConfig, bind. rewrite Han.
      rewrite (proj2 (selectIntegrations_returns not_a_function _ _)
                 (conj Hnames eq_refl)).
      destruct (generateCustomTools_from_spec openai
                  (createFallbackAnalysis description)
                  (selectToolPatterns (createFallbackAnalysis description))
                  [] w1) as [Hlog _].
      unfold generateCustomTools.
      destruct (generateCustomTools_from openai []
                  (createFallbackAnalysis description)
                  (selectToolPatterns (createFallbackAnalysis description)) w1)
        as [tools w2].
      cbn [fst snd] in Hlog. unfold Date_now, ret.
      cbn [config_patterns]. split; [reflexivity |].
      rewrite Hlog, Hworld. cbn [sent]. rewrite <- app_assoc.
      split; [reflexivity |]. split; [reflexivity |].
      rewrite !length_app, length_map. cbn [List.length app].
      pose proof (limitPatterns_length
                    (matchedPatterns (createFallbackAnalysis description)))
        as Hcap.
      pose proof (limitPatterns_nonempty
                    (matchedPatterns (createFallbackAnalysis description)))
        as Hsome.
      unfold selectToolPatterns.
      destruct (limitPatterns
                  (matchedPatterns (createFallbackAnalysis description)))
        as [|p rest]; [congruence |].
      cbn [List.length] in *. lia.
  - intros Hreply.
    unfold generateServerConfig, analyzeRequiredTools, bind, request, ret.
    now rewrite Hreply.
Qed.

Lemma slice0_length (n : nat) (s : string) :
  String.length (JS.slice0 n s) <= n.
Proof.
  revert s. induction n as [|n IH]; intros [|c s]; simpl; try lia.
  specialize (IH s). lia.
Qed.

Lemma slice0_all (n : nat) (s : string) :
  String.length s <= n -> JS.slice0 n s = s.
Proof.
  revert s. induction n as [|n IH]; intros [|c s]; simpl; intros Hlen;
    try reflexivity; try lia.
  f_equal. apply IH. lia.
Qed.

Lemma string_app_length (s t : string) :
  String.length (s +:+ t) = String.length s + String.length t.
Proof.
  induction s as [|c s IH]; [reflexivity |].
  change (S (String.length (s +:+ t)) = S (String.length s + String.length t)).
  now rewrite IH.
Qed.

Lemma fallback_suggestions (description : string) :
  exists ids,
    suggestedIntegrations (createFallbackAnalysis description) = Some ids
    /\ sublist ids ["github"; "slack"; "postgresql"; "sendgrid"].
Proof.
  unfold createFallbackAnalysis.
  fallback_cases description; eexists; (split; [reflexivity |]);
    repeat first [apply sublist_nil | apply sublist_skip | apply sublist_cons].
Qed.

Lemma slice0_split (n : nat) (s : string) :
  exists tail,
    s = JS.slice0 n s +:+ tail
    /\ String.length (JS.slice0 n s) = Nat.min n (String.length s)
    /\ (tail = "" <-> String.length s <= n).
Proof.
  revert s. induction n as [|n IH]; intros [|c s].
  - exists "". repeat split; auto.
  - exists (String c s). split; [reflexivity |]. split; [reflexivity |].
    cbn [String.length]. split; [discriminate | lia].
  - exists "". repeat split; cbn; auto; lia.
  - destruct (IH s) as (tail & Heq & Hlen & Htail). exists tail.
    cbn [JS.slice0 String.length Nat.min].
    change (String c (JS.slice0 n s) +:+ tail)
      with (String c (JS.slice0 n s +:+ tail)).
    rewrite <- Heq, Hlen. split; [reflexivity |]. split; [reflexivity |].
    rewrite Htail. lia.
Qed.

(** X11.  The fallback analysis is always usable.  Its summary is the
    description cut behind its first 100 characters, with three dots
    added exactly when something was cut off.  It names at least one tool
    category and only categories of the catalog; the integration ids it
    suggests are pairwise distinct catalog ids, so that each of them
    resolves; and it names the services [GitHub] and [Slack], in this
    order, for the descriptions that mention them, and no other. *)
Theorem fallback_analysis_is_well_formed (description : string) :
  (exists head tail,
      description = head +:+ tail
      /\ String.length head = Nat.min 100 (String.length description)
      /\ summary (createFallbackAnalysis description)
         = Some (head +:+ (if String.eqb tail "" then "" else "...")))
  /\ (exists cats,
        toolCategories (createFallbackAnalysis description) = Some cats
        /\ cats <> []
        /\ forall c, In c cats -> In c Patterns.getToolCategories)
  /\ (exists ids,
        suggestedIntegrations (createFallbackAnalysis description) = Some ids
        /\ List.NoDup ids
        /\ forall id, In id ids ->
                      is_Some (Integrations.getIntegrationById id))
  /\ services (createFallbackAnalysis description)
     = Some ((if JS.includes (JS.toLowerCase description) "github"
              then ["GitHub"] else [])
             ++ (if JS.includes (JS.toLowerCase description) "slack"
                 then ["Slack"] else []))
  /\ primaryActions (createFallbackAnalysis description) = Some []
  /\ estimatedTools (createFallbackAnalysis description) = Some 1%Z.
Proof.
  destruct (fallback_suggestions description) as (ids & Hids & Hsub).
  pose proof (fallback_services description) as Hservices.
  destruct (createFallbackAnalysis_fields description) as (svc & sug & Hfields).
  rewrite Hfields in *. cbn [summary toolCategories suggestedIntegrations
    primaryActions estimatedTools services] in *.
  split; [| split; [| split; [| split; [exact Hservices | split; reflexivity]]]].
  - destruct (slice0_split 100 description) as (tail & Heq & Hlen & Htail).
    exists (JS.slice0 100 description), tail.
    split; [exact Heq |]. split; [exact Hlen |]. do 2 f_equal.
    destruct (String.eqb_spec tail "") as [Hempty | Hrest].
    + apply Htail in Hempty.
      now destruct (Nat.ltb_spec 100 (String.length description)); [lia |].
    + destruct (Nat.ltb_spec 100 (String.length description)) as [_ | Hle];
        [reflexivity |].
      apply Htail in Hle. contradiction.
  - exists (Reference.table_categories description). split; [reflexivity |].
    unfold Reference.table_categories, Reference.keyword_table.
    cbn [List.filter fst snd map].
    destruct (existsb (JS.includes (JS.toLowerCase description)) ["github"]),
      (existsb (JS.includes (JS.toLowerCase description)) ["slack"]),
      (existsb (JS.includes (JS.toLowerCase description)) ["database"; "sql"]),
      (existsb (JS.includes (JS.toLowerCase description)) ["file"; "upload"]),
      (existsb (JS.includes (JS.toLowerCase description)) ["email"]);
      (split; [discriminate |]); intros c Hc; vm_compute in Hc; vm_compute;
      tauto.
  - injection Hids as ->. exists ids. split; [reflexivity |]. split.
    + apply (sublist_ListNoDup _ _ Hsub).
      apply NoDup_ListNoDup, (bool_decide_unpack _). vm_compute. exact I.
    + intros id Hid. apply (sublist_In _ _ _ Hsub) in Hid.
      destruct Hid as [<- | [<- | [<- | [<- | []]]]]; eexists; reflexivity.
Qed.

End ResolverMore.

(** ** Characters and normal forms *)

(** Facts about single characters, by inspection of the 256 of them. *)
Ltac by_ascii c :=
  destruct c as [[] [] [] [] [] [] [] []]; vm_compute; intros; congruence.

Section Characters.

Lemma all_chars_weaken (P Q : ascii -> bool) (s : string) :
  (forall c, P c = true -> Q c = true) ->
  Reference.all_chars P s = true -> Reference.all_chars Q s = true.
Proof.
  intros HPQ. induction s as [|c s IH]; simpl; [reflexivity |].
  rewrite !andb_true_iff. intros [Hc Hs]. auto.
Qed.

Lemma all_chars_map (f : ascii -> ascii) (P Q : ascii -> bool) (s : string) :
  (forall c, P c = true -> Q (f c) = true) ->
  Reference.all_chars P s = true ->
  Reference.all_chars Q (JS.map_chars f s) = true.
Proof.
  intros HPQ. induction s as [|c s IH]; simpl; [reflexivity |].
  rewrite !andb_true_iff. intros [Hc Hs]. auto.
Qed.

Lemma all_chars_filter (P : ascii -> bool) (s : string) :
  Reference.all_chars P (JS.filter_chars P s) = true.
Proof.
  induction s as [|c s IH]; simpl; [reflexivity |].
  destruct (P c) eqn:Hc; simpl; [now rewrite Hc |]. exact IH.
Qed.

Lemma all_chars_app (P : ascii -> bool) (s t : string) :
  Reference.all_chars P (s +:+ t)
  = Reference.all_chars P s && Reference.all_chars P t.
Proof.
  induction s as [|c s IH]; [reflexivity |].
  change (P c && Reference.all_chars P (s +:+ t)
          = P c && Reference.all_chars P s && Reference.all_chars P t).
  rewrite IH. now rewrite andb_assoc.
Qed.

Lemma all_chars_replace_runs (cls Q : ascii -> bool) (r s : string) :
  Reference.all_chars (fun c => cls c || Q c) s = true ->
  Reference.all_chars Q r = true ->
  Reference.all_chars Q (JS.replace_runs cls r s) = true.
Proof.
  intros Hs Hr. induction s as [|c s IH]; [reflexivity |].
  cbn [Reference.all_chars] in Hs. apply andb_true_iff in Hs as [Hc Hs].
  specialize (IH Hs). cbn [JS.replace_runs].
  destruct (cls c) eqn:Hcls.
  - destruct s as [|c' s']; [exact Hr |].
    destruct (cls c'); [exact IH |].
    rewrite all_chars_app, Hr. exact IH.
  - cbn [Reference.all_chars]. simpl in Hc. now rewrite Hc.
Qed.

Lemma replace_runs_id (cls : ascii -> bool) (r s : string) :
  Reference.all_chars (fun c => negb (cls c)) s = true ->
  JS.replace_runs cls r s = s.
Proof.
  induction s as [|c s IH]; [reflexivity |].
  cbn [Reference.all_chars JS.replace_runs]. rewrite andb_true_iff.
  intros [Hc Hs]. apply negb_true_iff in Hc. rewrite Hc. f_equal. auto.
Qed.

Lemma filter_chars_id (P : ascii -> bool) (s : string) :
  Reference.all_chars P s = true -> JS.filter_chars P s = s.
Proof.
  induction s as [|c s IH]; [reflexivity |].
  cbn [Reference.all_chars JS.filter_chars]. rewrite andb_true_iff.
  intros [Hc Hs]. rewrite Hc. f_equal. auto.
Qed.

Lemma map_chars_id (f : ascii -> ascii) (P : ascii -> bool) (s : string) :
  (forall c, P c = true -> f c = c) ->
  Reference.all_chars P s = true -> JS.map_chars f s = s.
Proof.
  intros Hf. induction s as [|c s IH]; [reflexivity |].
  cbn [Reference.all_chars JS.map_chars]. rewrite andb_true_iff.
  intros [Hc Hs]. rewrite (Hf c Hc). f_equal. auto.
Qed.

Lemma trimStart_id (s : string) :
  Reference.all_chars (fun c => negb (JS.is_space c)) s = true ->
  JS.trimStart s = s.
Proof.
  destruct s as [|c s]; [reflexivity |].
  cbn [Reference.all_chars JS.trimStart]. rewrite andb_true_iff.
  intros [Hc _]. apply negb_true_iff in Hc. now rewrite Hc.
Qed.

Lemma trimEnd_id (s : string) :
  Reference.all_chars (fun c => negb (JS.is_space c)) s = true ->
  JS.trimEnd s = s.
Proof.
  induction s as [|c s IH]; [reflexivity |].
  cbn [Reference.all_chars JS.trimEnd]. rewrite andb_true_iff.
  intros [Hc Hs]. apply negb_true_iff in Hc. rewrite (IH Hs), Hc.
  destruct s; reflexivity.
Qed.

Lemma split_humps_id (sep : ascii) (s : string) :
  Reference.all_chars (fun c => negb (JS.is_upper c)) s = true
  \/ Reference.all_chars (fun c => negb (JS.is_lower c)) s = true ->
  JS.split_humps sep s = s.
Proof.
  induction s as [|c1 s IH]; [reflexivity |].
  intros Hs. cbn [JS.split_humps].
  assert (Htail :
    Reference.all_chars (fun c => negb (JS.is_upper c)) s = true
    \/ Reference.all_chars (fun c => negb (JS.is_lower c)) s = true).
  { destruct Hs as [Hs | Hs]; cbn [Reference.all_chars] in Hs;
      apply andb_true_iff in Hs as [_ Hs]; auto. }
  destruct s as [|c2 rest]; [reflexivity |].
  assert (Hpair : JS.is_lower c1 && JS.is_upper c2 = false).
  { destruct Hs as [Hs | Hs]; cbn [Reference.all_chars] in Hs;
      repeat rewrite andb_true_iff in Hs.
    - destruct Hs as (_ & Hc2 & _). apply negb_true_iff in Hc2.
      rewrite Hc2. apply andb_false_r.
    - destruct Hs as (Hc1 & _). apply negb_true_iff in Hc1. now rewrite Hc1. }
  rewrite Hpair. f_equal. exact (IH Htail).
Qed.

Lemma lower_char_slug (c : ascii) :
  (JS.is_lower c || JS.is_upper c || JS.is_digit c || JS.is_space c
   || Ascii.eqb c "-" || Ascii.eqb c "_")
  && negb (JS.is_space c) = true ->
  Reference.slug_char (JS.lower_char c) = true.
Proof. by_ascii c. Qed.

Lemma slug_char_plain (c : ascii) :
  Reference.slug_char c = true ->
  (JS.is_lower c || JS.is_upper c || JS.is_digit c || JS.is_space c
   || Ascii.eqb c "-" || Ascii.eqb c "_") = true
  /\ negb (JS.is_space c) = true
  /\ JS.lower_char c = c.
Proof.
  destruct c as [[] [] [] [] [] [] [] []]; vm_compute; intros;
    repeat split; congruence.
Qed.

Lemma sanitizeName_slug (s : string) :
  Reference.all_chars Reference.slug_char (MCPServerGenerator.sanitizeName s)
  = true.
Proof.
  unfold MCPServerGenerator.sanitizeName, JS.toLowerCase.
  set (keep := fun c : ascii =>
         JS.is_lower c || JS.is_upper c || JS.is_digit c || JS.is_space c
         || Ascii.eqb c "-" || Ascii.eqb c "_").
  apply (all_chars_map JS.lower_char
           (fun c => keep c && negb (JS.is_space c))).
  { intros c. apply lower_char_slug. }
  apply all_chars_replace_runs; [| reflexivity].
  apply (all_chars_weaken keep); [| apply all_chars_filter].
  intros c Hc. rewrite Hc. now destruct (JS.is_space c).
Qed.

Lemma sanitizeName_fixes_slugs (s : string) :
  Reference.all_chars Reference.slug_char s = true ->
  MCPServerGenerator.sanitizeName s = s.
Proof.
  intros Hslug. unfold MCPServerGenerator.sanitizeName, JS.toLowerCase, JS.trim.
  assert (Hspace : Reference.all_chars (fun c => negb (JS.is_space c)) s = true).
  { revert Hslug. apply all_chars_weaken. intros c Hc.
    now apply slug_char_plain in Hc. }
  rewrite (trimStart_id s Hspace), (trimEnd_id s Hspace).
  rewrite filter_chars_id.
  2:{ revert Hslug. apply all_chars_weaken. intros c Hc.
      now apply slug_char_plain in Hc. }
  rewrite (replace_runs_id _ _ _ Hspace).
  apply (map_chars_id _ Reference.slug_char); [| exact Hslug].
  intros c Hc. now apply slug_char_plain in Hc.
Qed.

End Characters.

(** ** More about [index.ts] *)

Section GeneratorMore.

Import Core MCPServerGenerator.

(** X12.  [sanitizeName] yields a slug, made of lower-case letters, digits,
    hyphens and underscores only, and the slugs are exactly the texts it
    leaves as they are; so sanitizing twice is sanitizing once.  The names
    that [createBasicConfig] and [createIntegration] store are the
    sanitized ones: slugs, and equal to the given name when that is a
    slug already. *)
Theorem sanitizeName_yields_a_slug (text description : string)
    (envVars : option (list string)) (methods : option (list Method)) :
  Reference.all_chars Reference.slug_char (sanitizeName text) = true
  /\ (sanitizeName text = text
      <-> Reference.all_chars Reference.slug_char text = true)
  /\ sanitizeName (sanitizeName text) = sanitizeName text
  /\ Reference.all_chars Reference.slug_char
       (name (createBasicConfig text description)) = true
  /\ Reference.all_chars Reference.slug_char
       (integration_name (createIntegration text description envVars methods))
     = true
  /\ (Reference.all_chars Reference.slug_char text = true ->
      name (createBasicConfig text description) = text
      /\ integration_name (createIntegration text description envVars methods)
         = text).
Proof.
  pose proof (sanitizeName_slug text) as Hslug.
  pose proof (sanitizeName_fixes_slugs _ Hslug) as Hfix.
  split; [exact Hslug |]. split.
  { split; [intros Heq; now rewrite <- Heq | apply sanitizeName_fixes_slugs]. }
  split; [exact Hfix |]. split; [exact Hslug |]. split; [exact Hslug |].
  intros Htext. cbn [name createBasicConfig integration_name createIntegration].
  split; now apply sanitizeName_fixes_slugs.
Qed.

Lemma app_nil_iff {A} (l k : list A) : l ++ k = [] <-> l = [] /\ k = [].
Proof.
  split; [apply app_eq_nil | intros [-> ->]; reflexivity].
Qed.

Lemma when_nil (condition : bool) (message : string) :
  when condition message = [] <-> condition = false.
Proof. unfold when. destruct condition; split; congruence. Qed.

Lemma concat_imap_nil {A B} (f : nat -> A -> list B) (P : A -> Prop)
    (l : list A) :
  (forall i y, f i y = [] <-> P y) ->
  (concat (imap f l) = [] <-> forall y, In y l -> P y).
Proof.
  revert f. induction l as [|a l IH]; intros f Hf; simpl.
  - split; [intros _ y [] | reflexivity].
  - rewrite app_nil_iff, Hf, (IH (fun i => f (S i))) by (intros; apply Hf).
    split.
    + intros [Ha Hl] y [<- | Hy]; auto.
    + intros H. split; [apply H; now left | intros y Hy; apply H; now right].
Qed.

Lemma duplicate_check (names : list string) :
  negb (Nat.eqb (List.length names) (JS.Set_size (JS.Set_of names))) = false
  <-> List.NoDup names.
Proof.
  rewrite negb_false_iff, Nat.eqb_eq, <- Set_of_size_NoDup.
  split; intros H; now symmetry.
Qed.

(** X13.  [validateConfig] returns no message exactly when the server name
    and description are not blank, every tool has a name and a description
    that are not blank and an input schema, every integration has a name
    and a description that are not blank, and, if there is an integration
    at all, neither the tool names nor the integration names repeat up to
    letter case.  [generateValidatedServer] renders in exactly that case
    and otherwise throws the messages, joined by line breaks. *)
Theorem validateConfig_accepts_exactly (config : ServerConfig)
    (handlebars : TemplateEngine.Helpers -> TemplateEngine.Template ->
                  TemplateEngine.Context -> string)
    (JSON_stringify : JSON -> string) (outputDir : string)
    (fs : TemplateEngine.FileSystem) :
  (validateConfig config = []
   <-> blank (name config) = false
       /\ blank (description config) = false
       /\ (forall tool,
             In tool (customTools config) ->
             blank (tool_name tool) = false
             /\ blank (tool_description tool) = false
             /\ JSON_falsy (tool_inputSchema tool) = false)
       /\ (forall i,
             In i (integrations config) ->
             blank (integration_name i) = false
             /\ blank (integration_description i) = false
             /\ List.NoDup (map (fun t => JS.toLowerCase (tool_name t))
                                (customTools config))
             /\ List.NoDup (map (fun i => JS.toLowerCase (integration_name i))
                                (integrations config))))
  /\ generateValidatedServer handlebars JSON_stringify config outputDir fs
     = match validateConfig config with
       | [] => inr (generateServer handlebars JSON_stringify config outputDir fs)
       | errors =>
           inl ("Configuration validation failed:" +:+ TemplateEngine.newline
                +:+ JS.join TemplateEngine.newline errors)
       end.
Proof.
  split.
  - unfold validateConfig. rewrite !app_nil_iff, !when_nil.
    rewrite (concat_imap_nil validateTool
               (fun tool =>
                  blank (tool_name tool) = false
                  /\ blank (tool_description tool) = false
                  /\ JSON_falsy (tool_inputSchema tool) = false)).
    2:{ intros i tool. unfold validateTool.
        rewrite !app_nil_iff, !when_nil. tauto. }
    rewrite (concat_imap_nil (validateIntegration config)
               (fun i =>
                  blank (integration_name i) = false
                  /\ blank (integration_description i) = false
                  /\ List.NoDup (map (fun t => JS.toLowerCase (tool_name t))
                                     (customTools config))
                  /\ List.NoDup
                       (map (fun i => JS.toLowerCase (integration_name i))
                            (integrations config)))).
    2:{ intros i y. unfold validateIntegration. cbv zeta.
        rewrite !app_nil_iff, !when_nil, !duplicate_check. tauto. }
    tauto.
  - unfold generateValidatedServer. cbv zeta.
    destruct (validateConfig config); reflexivity.
Qed.

Lemma count_occ_concat_imap {A} (f : nat -> A -> list string) (x : string)
    (k : nat) (l : list A) :
  (forall i y, count_occ string_dec (f i y) x = k) ->
  count_occ string_dec (concat (imap f l)) x = k * List.length l.
Proof.
  revert f. induction l as [|a l IH]; intros f Hf; [simpl; lia |].
  rewrite imap_cons. cbn [concat List.length].
  rewrite count_occ_app, Hf, (IH (f ∘ S)) by (intros; apply Hf).
  lia.
Qed.

Lemma count_occ_when (condition : bool) (message x : string) :
  count_occ string_dec (when condition message) x
  = if condition then (if string_dec message x then 1 else 0) else 0.
Proof. unfold when. destruct condition; reflexivity. Qed.

Lemma validateTool_count (index : nat) (tool : GeneratedTool) :
  count_occ string_dec (validateTool index tool) Reference.duplicate_tools = 0.
Proof.
  apply count_occ_not_In, validateTool_not_duplicate.
Qed.

Lemma validateIntegration_count (config : ServerConfig) (index : nat)
    (integration : IntegrationConfig) :
  count_occ string_dec (validateIntegration config index integration)
            Reference.duplicate_tools
  = if Nat.eqb (List.length (customTools config))
               (JS.Set_size
                  (JS.Set_of (map (fun t => JS.toLowerCase (tool_name t))
                                  (customTools config))))
    then 0 else 1.
Proof.
  unfold validateIntegration. cbv zeta.
  rewrite !count_occ_app, !count_occ_when, length_map.
  repeat match goal with
         | |- context [string_dec ?a ?b] =>
             let e := fresh "e" in
             let n := fresh "n" in
             destruct (string_dec a b) as [e | n];
             [try (vm_compute in e; discriminate e)
             | try (exfalso; apply n; reflexivity)]
         end.
  destruct (Nat.eqb (List.length (customTools config)) _); cbn [negb];
    repeat match goal with
           | |- context [if ?b then _ else _] => destruct b
           end;
    reflexivity.
Qed.

Lemma validateConfig_count (config : ServerConfig) :
  count_occ string_dec (validateConfig config) Reference.duplicate_tools
  = (if Nat.eqb (List.length (customTools config))
                (JS.Set_size
                   (JS.Set_of (map (fun t => JS.toLowerCase (tool_name t))
                                   (customTools config))))
     then 0 else 1)
    * List.length (integrations config).
Proof.
  unfold validateConfig. rewrite !count_occ_app, !count_occ_when.
  rewrite (count_occ_concat_imap validateTool _ 0) by apply validateTool_count.
  rewrite (count_occ_concat_imap (validateIntegration config) _ _ _
             (validateIntegration_count config)).
  repeat match goal with
         | |- context [string_dec ?a ?b] =>
             let e := fresh "e" in
             let n := fresh "n" in
             destruct (string_dec a b) as [e | n];
             [try (vm_compute in e; discriminate e) |]
         end.
  destruct (blank (name config)), (blank (description config)); lia.
Qed.

(** X14.  [validateConfig] runs its duplicate checks once per integration:
    when two tool names agree up to letter case, the message
    [Duplicate tool names detected] is filed as many times as the
    configuration has integrations, hence not at all when it has none;
    when the tool names are distinct it is never filed. *)
Theorem duplicate_tool_names_are_reported_per_integration
    (config : ServerConfig) :
  (List.NoDup (map (fun t => JS.toLowerCase (tool_name t)) (customTools config)) ->
   count_occ string_dec (validateConfig config) Reference.duplicate_tools = 0)
  /\ (~ List.NoDup (map (fun t => JS.toLowerCase (tool_name t))
                        (customTools config)) ->
      count_occ string_dec (validateConfig config) Reference.duplicate_tools
      = List.length (integrations config)).
Proof.
  rewrite validateConfig_count.
  pose proof (Set_of_size_NoDup
                (map (fun t => JS.toLowerCase (tool_name t)) (customTools config)))
    as Hset.
  rewrite length_map in Hset.
  destruct (Nat.eqb_spec
              (List.length (customTools config))
              (JS.Set_size
                 (JS.Set_of (map (fun t => JS.toLowerCase (tool_name t))
                                 (customTools config))))) as [Heq | Hne].
  - split; [intros _; lia |]. intros Hdup. exfalso. apply Hdup, Hset.
    now symmetry.
  - split; [| intros _; lia]. intros Hnd. exfalso. apply Hne.
    symmetry. now apply Hset.
Qed.

Lemma duplicate_tool_names_are_reported_per_integration_witness :
  count_occ string_dec
    (validateConfig
       (addIntegration
          (addIntegration
             (addTool
                (addTool Reference.weather_config
                         (Reference.weather_tool "Get Weather"))
                (Reference.weather_tool "get weather"))
             Reference.weather_integration)
          (createIntegration "Geo Coder" "Place names" None None)))
    Reference.duplicate_tools
  = 2.
Proof.
  apply (proj2 (duplicate_tool_names_are_reported_per_integration
                  (addIntegration
                     (addIntegration
                        (addTool
                           (addTool Reference.weather_config
                                    (Reference.weather_tool "Get Weather"))
                           (Reference.weather_tool "get weather"))
                        Reference.weather_integration)
                     (createIntegration "Geo Coder" "Place names" None None)))).
  intros Hnd. inversion Hnd as [|? ? Hin _]; subst. apply Hin. now left.
Defined.

Lemma Set_add_all_fresh (l : list string) (s : JS.StringSet) :
  List.NoDup (s ++ l) -> fold_left JS.Set_add l s = s ++ l.
Proof.
  revert s. induction l as [|x l IH]; intros s Hnd; simpl.
  - now rewrite app_nil_r.
  - assert (Hx : JS.Set_add s x = s ++ [x]).
    { unfold JS.Set_add. destruct (JS.Set_has s x) eqn:Hhas; [| reflexivity].
      apply Set_has_In in Hhas. apply NoDup_remove_2 in Hnd.
      exfalso. apply Hnd. apply in_app_iff. now left. }
    rewrite Hx, IH; rewrite <- app_assoc; [reflexivity | exact Hnd].
Qed.

Lemma Set_add_all_extends (l : list string) (s : JS.StringSet) :
  exists rest, fold_left JS.Set_add l s = s ++ rest.
Proof.
  revert s. induction l as [|x l IH]; intros s; cbn [fold_left].
  - exists []. now rewrite app_nil_r.
  - unfold JS.Set_add at 2. destruct (JS.Set_has s x); [apply IH |].
    destruct (IH (s ++ [x])) as [rest ->]. exists (x :: rest).
    now rewrite <- app_assoc.
Qed.

Lemma Set_of_NoDup (l : list string) : List.NoDup l -> JS.Set_of l = l.
Proof. intros Hnd. unfold JS.Set_of. now rewrite Set_add_all_fresh. Qed.

Lemma Set_of_snoc (l : list string) (x : string) :
  JS.Set_of (l ++ [x]) = JS.Set_add (JS.Set_of l) x.
Proof. unfold JS.Set_of. now rewrite fold_left_app. Qed.

Lemma Set_of_NoDup_list (l : list string) : List.NoDup (JS.Set_of l).
Proof. apply Set_add_all_NoDup. constructor. Qed.

Lemma Set_add_present (s : JS.StringSet) (x : string) :
  In x s -> JS.Set_add s x = s.
Proof.
  intros Hin. unfold JS.Set_add. apply Set_has_In in Hin. now rewrite Hin.
Qed.

Lemma Set_add_absent (s : JS.StringSet) (x : string) :
  ~ In x s -> JS.Set_add s x = s ++ [x].
Proof.
  intros Hnot. unfold JS.Set_add.
  destruct (JS.Set_has s x) eqn:Hhas; [| reflexivity].
  apply Set_has_In in Hhas. contradiction.
Qed.

(** X15.  [addDependency] adds a dependency at most once: adding the same
    name again changes nothing.  On a list without repetition it appends a
    name that is new and returns the list unchanged for a name that is
    already there; a list with repetitions comes back reduced to the first
    occurrence of every name. *)
Theorem addDependency_adds_at_most_once (config : ServerConfig)
    (dependency : string) :
  addDependency (addDependency config dependency) dependency
  = addDependency config dependency
  /\ dependencies (addDependency config dependency)
     = JS.Set_add (JS.Set_of (dependencies config)) dependency
  /\ (List.NoDup (dependencies config) ->
      dependencies (addDependency config dependency)
      = if JS.Set_has (dependencies config) dependency
        then dependencies config
        else dependencies config ++ [dependency]).
Proof.
  assert (Hdeps : dependencies (addDependency config dependency)
                  = JS.Set_add (JS.Set_of (dependencies config)) dependency).
  { unfold addDependency, JS.Array_from. cbn [dependencies]. apply Set_of_snoc. }
  split; [| split; [exact Hdeps |]].
  - unfold addDependency at 1 3. unfold JS.Array_from. f_equal.
    rewrite Set_of_snoc. rewrite Hdeps.
    assert (Hnd : List.NoDup
                    (JS.Set_add (JS.Set_of (dependencies config)) dependency)).
    { apply Set_add_NoDup, Set_of_NoDup_list. }
    rewrite (Set_of_NoDup _ Hnd). cbn [dependencies].
    rewrite Set_of_snoc. symmetry. rewrite <- Set_add_present at 1.
    + reflexivity.
    + apply Set_add_In. now right.
  - intros Hnd. rewrite Hdeps, (Set_of_NoDup _ Hnd). reflexivity.
Qed.

Lemma addDependency_adds_at_most_once_witness :
  dependencies
    (addDependency (addDependency Reference.weather_config "axios") "zod")
  = ["@modelcontextprotocol/sdk"; "zod"; "axios"].
Proof.
  destruct (addDependency_adds_at_most_once
              (addDependency Reference.weather_config "axios") "zod")
    as (_ & _ & Hnodup).
  rewrite Hnodup; [reflexivity |].
  apply NoDup_ListNoDup, (bool_decide_unpack _). vm_compute. exact I.
Defined.

Lemma fold_addTool (tools : list GeneratedTool) (config : ServerConfig) :
  fold_left addTool tools config
  = {| name := name config;
       description := description config;
       dependencies := dependencies config;
       customTools := customTools config ++ tools;
       integrations := integrations config |}.
Proof.
  revert config. induction tools as [|t tools IH]; intros config.
  - cbn [fold_left]. rewrite app_nil_r. now destruct config.
  - cbn [fold_left]. rewrite IH. cbn. now rewrite <- app_assoc.
Qed.

Lemma fold_addIntegration (selected : list IntegrationConfig)
    (config : ServerConfig) :
  fold_left addIntegration selected config
  = {| name := name config;
       description := description config;
       dependencies := dependencies config;
       customTools := customTools config;
       integrations := integrations config ++ selected |}.
Proof.
  revert config. induction selected as [|i selected IH]; intros config.
  - cbn [fold_left]. rewrite app_nil_r. now destruct config.
  - cbn [fold_left]. rewrite IH. cbn. now rewrite <- app_assoc.
Qed.

Lemma fold_addDependency (deps : list string) (config : ServerConfig) :
  List.NoDup (dependencies config) ->
  fold_left addDependency deps config
  = {| name := name config;
       description := description config;
       dependencies := fold_left JS.Set_add deps (dependencies config);
       customTools := customTools config;
       integrations := integrations config |}.
Proof.
  revert config. induction deps as [|d deps IH]; intros config Hnd.
  - cbn [fold_left]. now destruct config.
  - cbn [fold_left]. rewrite IH.
    + unfold addDependency, JS.Array_from. cbn.
      now rewrite Set_of_snoc, (Set_of_NoDup _ Hnd).
    + unfold addDependency, JS.Array_from. cbn. apply Set_of_NoDup_list.
Qed.

(** X16.  [generateMCPServer] validates and renders the configuration made
    of the sanitized name, the description, the given tools and
    integrations in the order given, and a dependency list that starts
    with the two core packages and continues with the given dependencies,
    each name once. *)
Theorem generateMCPServer_builds_from_its_options
    (handlebars : TemplateEngine.Helpers -> TemplateEngine.Template ->
                  TemplateEngine.Context -> string)
    (JSON_stringify : JSON -> string)
    (text description outputDir : string) (options : Options)
    (fs : TemplateEngine.FileSystem) :
  generateMCPServer handlebars JSON_stringify text description outputDir
    options fs
  = generateValidatedServer handlebars JSON_stringify
      {| name := sanitizeName text;
         description := description;
         dependencies :=
           JS.Set_of (["@modelcontextprotocol/sdk"; "zod"]
                      ++ JS.or_nil (options_dependencies options));
         customTools := JS.or_nil (options_tools options);
         integrations := JS.or_nil (options_integrations options) |}
      outputDir fs
  /\ List.NoDup (dependencies (buildConfig text description options))
  /\ exists rest,
       dependencies (buildConfig text description options)
       = "@modelcontextprotocol/sdk" :: "zod" :: rest.
Proof.
  assert (Hconfig :
    buildConfig text description options
    = {| name := sanitizeName text;
         description := description;
         dependencies :=
           JS.Set_of (["@modelcontextprotocol/sdk"; "zod"]
                      ++ JS.or_nil (options_dependencies options));
         customTools := JS.or_nil (options_tools options);
         integrations := JS.or_nil (options_integrations options) |}).
  { unfold buildConfig. cbv zeta.
    assert (Hcore : List.NoDup ["@modelcontextprotocol/sdk"; "zod"]).
    { apply NoDup_ListNoDup, (bool_decide_unpack _). vm_compute. exact I. }
    destruct (options_tools options) as [tools|],
      (options_integrations options) as [selected|],
      (options_dependencies options) as [deps|];
      rewrite ?fold_addTool, ?fold_addIntegration;
      try rewrite fold_addDependency by exact Hcore;
      unfold JS.Set_of; rewrite ?fold_left_app; cbn; rewrite ?app_nil_r;
      reflexivity. }
  split; [unfold generateMCPServer; now rewrite Hconfig |].
  rewrite Hconfig. cbn [dependencies].
  split; [apply Set_of_NoDup_list |].
  unfold JS.Set_of. rewrite fold_left_app.
  destruct (Set_add_all_extends
              (JS.or_nil (options_dependencies options))
              (fold_left JS.Set_add ["@modelcontextprotocol/sdk"; "zod"] []))
    as [rest ->].
  now exists rest.
Qed.

(** X17.  [createTool] raises only for the schema [null].  Otherwise its
    tool has a slug for a name and an input schema of type [object] that
    holds the given schema as its properties and requires every one of its
    keys, so that [validateConfig] never misses the schema of a tool made
    this way. *)
Theorem createTool_requires_every_property (text description : string)
    (inputSchema : JSON) (implementation : option string) :
  (createTool text description inputSchema implementation = None
   <-> inputSchema = JNull)
  /\ (forall tool,
        createTool text description inputSchema implementation = Some tool ->
        Reference.all_chars Reference.slug_char (tool_name tool) = true
        /\ tool_name tool = sanitizeName text
        /\ (exists keys,
              Object_keys inputSchema = Some keys
              /\ tool_inputSchema tool
                 = Some (JObj [("type", JStr "object");
                               ("properties", inputSchema);
                               ("required", JArr (map JStr keys))]))
        /\ (forall fields,
              inputSchema = JObj fields ->
              Object_keys inputSchema = Some (map fst fields))
        /\ forall index message,
             In message (validateTool index tool) ->
             blank (tool_name tool) = true
             \/ blank (tool_description tool) = true).
Proof.
  unfold createTool. split.
  - destruct inputSchema; simpl; split; congruence.
  - intros tool Hmade.
    destruct (Object_keys inputSchema) as [keys|] eqn:Hkeys; [| discriminate].
    injection Hmade as <-. cbn [tool_name tool_inputSchema tool_description].
    split; [apply sanitizeName_slug |]. split; [reflexivity |].
    split; [now exists keys |]. split.
    + intros fields ->. simpl in Hkeys. now rewrite Hkeys.
    + intros index message. unfold validateTool.
      cbn [tool_name tool_inputSchema tool_description JSON_falsy].
      rewrite !in_app_iff, !when_In. intros [[H _] | [[H _] | [H _]]]; auto.
      discriminate.
Qed.

Lemma createTool_requires_every_property_witness :
  exists tool,
    createTool "Get Weather" "Current weather"
      (JObj [("city", JObj [("type", JStr "string")]);
             ("units", JObj [("type", JStr "string")])])
      None = Some tool
    /\ tool_name tool = "get-weather"
    /\ validateTool 0 tool = [].
Proof.
  eexists. split; [reflexivity |]. split; [reflexivity |].
  destruct (createTool_requires_every_property "Get Weather" "Current weather"
              (JObj [("city", JObj [("type", JStr "string")]);
                     ("units", JObj [("type", JStr "string")])])
              None) as [_ Hmade].
  destruct (Hmade _ eq_refl) as (_ & _ & _ & _ & Hmsg).
  destruct (validateTool 0 _) as [|message rest] eqn:Hv; [reflexivity |].
  exfalso. destruct (Hmsg 0 message) as [Hblank | Hblank].
  - rewrite Hv. now left.
  - vm_compute in Hblank. discriminate.
  - vm_compute in Hblank. discriminate.
Defined.

End GeneratorMore.

(** ** The naming helpers of the template engine *)

Section Naming.

Import TemplateEngine.

Lemma all_chars_either (cls : ascii -> bool) (s : string) :
  Reference.all_chars (fun c => cls c || negb (cls c)) s = true.
Proof.
  induction s as [|c s IH]; [reflexivity |].
  cbn [Reference.all_chars]. rewrite IH. now destruct (cls c).
Qed.

Lemma kebab_char_lower (c : ascii) :
  negb (JS.is_space c || Ascii.eqb c "_") = true ->
  negb (JS.is_upper (JS.lower_char c) || JS.is_space (JS.lower_char c)
        || Ascii.eqb (JS.lower_char c) "_") = true.
Proof. by_ascii c. Qed.

Lemma kebab_char_plain (c : ascii) :
  negb (JS.is_upper c || JS.is_space c || Ascii.eqb c "_") = true ->
  negb (JS.is_upper c) = true
  /\ negb (JS.is_space c || Ascii.eqb c "_") = true
  /\ JS.lower_char c = c.
Proof.
  destruct c as [[] [] [] [] [] [] [] []]; vm_compute; intros;
    repeat split; congruence.
Qed.

Lemma constant_char_upper (c : ascii) :
  negb (Ascii.eqb c "-" || JS.is_space c) = true ->
  negb (JS.is_lower (JS.upper_char c) || JS.is_space (JS.upper_char c)
        || Ascii.eqb (JS.upper_char c) "-") = true.
Proof. by_ascii c. Qed.

Lemma constant_char_plain (c : ascii) :
  negb (JS.is_lower c || JS.is_space c || Ascii.eqb c "-") = true ->
  negb (JS.is_lower c) = true
  /\ negb (Ascii.eqb c "-" || JS.is_space c) = true
  /\ JS.upper_char c = c.
Proof.
  destruct c as [[] [] [] [] [] [] [] []]; vm_compute; intros;
    repeat split; congruence.
Qed.

Lemma kebabCase_plain (s : string) :
  Reference.all_chars
    (fun c => negb (JS.is_upper c || JS.is_space c || Ascii.eqb c "_"))
    (kebabCase s) = true.
Proof.
  unfold kebabCase, JS.toLowerCase.
  apply (all_chars_map JS.lower_char
           (fun c => negb (JS.is_space c || Ascii.eqb c "_"))).
  { exact kebab_char_lower. }
  apply all_chars_replace_runs; [apply all_chars_either | reflexivity].
Qed.

Lemma kebabCase_fixes (s : string) :
  Reference.all_chars
    (fun c => negb (JS.is_upper c || JS.is_space c || Ascii.eqb c "_")) s
  = true ->
  kebabCase s = s.
Proof.
  intros Hs. unfold kebabCase, JS.toLowerCase.
  rewrite split_humps_id.
  2:{ left. revert Hs. apply all_chars_weaken. intros c Hc.
      now apply kebab_char_plain in Hc. }
  rewrite replace_runs_id.
  2:{ revert Hs. apply all_chars_weaken. intros c Hc.
      now apply kebab_char_plain in Hc. }
  apply (map_chars_id _ _ _ (fun c Hc => proj2 (proj2 (kebab_char_plain c Hc)))).
  exact Hs.
Qed.

(** X18.  [kebabCase] returns a string without capital letters, white
    space and underscores, and it leaves exactly the strings of that kind
    as they are; so it changes nothing when applied a second time. *)
Theorem kebabCase_normal_form (s : string) :
  Reference.all_chars
    (fun c => negb (JS.is_upper c || JS.is_space c || Ascii.eqb c "_"))
    (kebabCase s) = true
  /\ (kebabCase s = s
      <-> Reference.all_chars
            (fun c => negb (JS.is_upper c || JS.is_space c || Ascii.eqb c "_"))
            s = true)
  /\ kebabCase (kebabCase s) = kebabCase s.
Proof.
  split; [apply kebabCase_plain |]. split.
  - split; [| apply kebabCase_fixes].
    intros Hfix. rewrite <- Hfix. apply kebabCase_plain.
  - apply kebabCase_fixes, kebabCase_plain.
Qed.

Lemma constantCase_plain (s : string) :
  Reference.all_chars
    (fun c => negb (JS.is_lower c || JS.is_space c || Ascii.eqb c "-"))
    (constantCase s) = true.
Proof.
  unfold constantCase, JS.toUpperCase.
  apply (all_chars_map JS.upper_char
           (fun c => negb (Ascii.eqb c "-" || JS.is_space c))).
  { exact constant_char_upper. }
  apply all_chars_replace_runs; [apply all_chars_either | reflexivity].
Qed.

Lemma constantCase_fixes (s : string) :
  Reference.all_chars
    (fun c => negb (JS.is_lower c || JS.is_space c || Ascii.eqb c "-")) s
  = true ->
  constantCase s = s.
Proof.
  intros Hs. unfold constantCase, JS.toUpperCase.
  rewrite split_humps_id.
  2:{ right. revert Hs. apply all_chars_weaken. intros c Hc.
      now apply constant_char_plain in Hc. }
  rewrite replace_runs_id.
  2:{ revert Hs. apply all_chars_weaken. intros c Hc.
      now apply constant_char_plain in Hc. }
  apply (map_chars_id _ _ _
           (fun c Hc => proj2 (proj2 (constant_char_plain c Hc)))).
  exact Hs.
Qed.

(** X19.  [constantCase] returns a string without small letters, white
    space and hyphens, and it leaves exactly the strings of that kind as
    they are; so it changes nothing when applied a second time. *)
Theorem constantCase_normal_form (s : string) :
  Reference.all_chars
    (fun c => negb (JS.is_lower c || JS.is_space c || Ascii.eqb c "-"))
    (constantCase s) = true
  /\ (constantCase s = s
      <-> Reference.all_chars
            (fun c => negb (JS.is_lower c || JS.is_space c || Ascii.eqb c "-"))
            s = true)
  /\ constantCase (constantCase s) = constantCase s.
Proof.
  split; [apply constantCase_plain |]. split.
  - split; [| apply constantCase_fixes].
    intros Hfix. rewrite <- Hfix. apply constantCase_plain.
  - apply constantCase_fixes, constantCase_plain.
Qed.

Lemma upper_char_no_separator (c : ascii) :
  is_separator c = false -> is_separator (JS.upper_char c) = false.
Proof. by_ascii c. Qed.

Lemma lower_char_no_separator (c : ascii) :
  is_separator c = false -> is_separator (JS.lower_char c) = false.
Proof. by_ascii c. Qed.

Lemma lower_char_twice (c : ascii) :
  JS.lower_char (JS.lower_char c) = JS.lower_char c.
Proof. by_ascii c. Qed.

Lemma upper_char_twice (c : ascii) :
  JS.upper_char (JS.upper_char c) = JS.upper_char c.
Proof. by_ascii c. Qed.

Lemma upper_lower_char (c : ascii) :
  JS.upper_char (JS.lower_char c) = JS.upper_char c.
Proof. by_ascii c. Qed.

Lemma lower_upper_char (c : ascii) :
  JS.lower_char (JS.upper_char c) = JS.lower_char c.
Proof. by_ascii c. Qed.

Lemma lower_char_not_upper (c : ascii) : JS.is_upper (JS.lower_char c) = false.
Proof. by_ascii c. Qed.

Lemma upper_char_not_lower (c : ascii) : JS.is_lower (JS.upper_char c) = false.
Proof. by_ascii c. Qed.

Lemma capitalize_no_separator (s : string) :
  Reference.all_chars (fun c => negb (is_separator c))
    (capitalize_after_separators s) = true.
Proof.
  induction s as [|c s IH]; [reflexivity |].
  cbn [capitalize_after_separators].
  destruct (is_separator c) eqn:Hc.
  - destruct s as [|c' rest]; [reflexivity |].
    destruct (is_separator c') eqn:Hc'; [exact IH |].
    cbn [capitalize_after_separators] in IH. rewrite Hc' in IH.
    cbn [Reference.all_chars] in IH |- *.
    apply andb_true_iff in IH as [_ IH].
    now rewrite (upper_char_no_separator c' Hc'), IH.
  - cbn [Reference.all_chars]. now rewrite Hc, IH.
Qed.

Lemma capitalize_fixes (s : string) :
  Reference.all_chars (fun c => negb (is_separator c)) s = true ->
  capitalize_after_separators s = s.
Proof.
  induction s as [|c s IH]; [reflexivity |].
  cbn [Reference.all_chars capitalize_after_separators].
  rewrite andb_true_iff. intros [Hc Hs]. apply negb_true_iff in Hc.
  rewrite Hc. f_equal. auto.
Qed.

Lemma map_first_no_separator (f : ascii -> ascii) (s : string) :
  (forall c, is_separator c = false -> is_separator (f c) = false) ->
  Reference.all_chars (fun c => negb (is_separator c)) s = true ->
  Reference.all_chars (fun c => negb (is_separator c)) (map_first f s) = true.
Proof.
  intros Hf. destruct s as [|c s]; [reflexivity |].
  cbn [map_first Reference.all_chars]. rewrite !andb_true_iff.
  intros [Hc Hs]. split; [| exact Hs].
  apply negb_true_iff. apply Hf. now apply negb_true_iff.
Qed.

Lemma map_first_map_first (f g : ascii -> ascii) (s : string) :
  map_first f (map_first g s) = map_first (fun c => f (g c)) s.
Proof. now destruct s. Qed.

Lemma map_first_ext (f g : ascii -> ascii) (s : string) :
  (forall c, f c = g c) -> map_first f s = map_first g s.
Proof. intros Hfg. destruct s; [reflexivity |]. cbn. now rewrite Hfg. Qed.

(** X20.  [camelCase] and [pascalCase] leave no hyphen, underscore or white
    space in their result, which differs between the two in the case of the
    first character only: it is never a capital letter for [camelCase] and
    never a small letter for [pascalCase].  Either function changes nothing
    when applied a second time. *)
Theorem camelCase_and_pascalCase_agree_after_the_first_letter (s : string) :
  Reference.all_chars (fun c => negb (is_separator c)) (camelCase s) = true
  /\ Reference.all_chars (fun c => negb (is_separator c)) (pascalCase s) = true
  /\ pascalCase s = map_first JS.upper_char (camelCase s)
  /\ camelCase s = map_first JS.lower_char (pascalCase s)
  /\ (forall c, Reference.first_char (camelCase s) = Some c ->
                JS.is_upper c = false)
  /\ (forall c, Reference.first_char (pascalCase s) = Some c ->
                JS.is_lower c = false)
  /\ camelCase (camelCase s) = camelCase s
  /\ pascalCase (pascalCase s) = pascalCase s.
Proof.
  pose proof (capitalize_no_separator s) as Hplain.
  pose proof (map_first_no_separator JS.lower_char _
                lower_char_no_separator Hplain) as Hcamel.
  pose proof (map_first_no_separator JS.upper_char _
                upper_char_no_separator Hplain) as Hpascal.
  unfold camelCase, pascalCase in *.
  repeat split.
  - exact Hcamel.
  - exact Hpascal.
  - rewrite map_first_map_first. symmetry.
    apply map_first_ext, upper_lower_char.
  - rewrite map_first_map_first. symmetry.
    apply map_first_ext, lower_upper_char.
  - destruct (capitalize_after_separators s) as [|c' r]; [discriminate |].
    cbn. intros c [= <-]. apply lower_char_not_upper.
  - destruct (capitalize_after_separators s) as [|c' r]; [discriminate |].
    cbn. intros c [= <-]. apply upper_char_not_lower.
  - rewrite (capitalize_fixes _ Hcamel), map_first_map_first.
    apply map_first_ext, lower_char_twice.
  - rewrite (capitalize_fixes _ Hpascal), map_first_map_first.
    apply map_first_ext, upper_char_twice.
Qed.

End Naming.

(** ** Rendering over an existing directory *)

Section RenderingMore.

Import Core TemplateEngine.

Variable handlebars : Helpers -> Template -> Context -> string.
Variable JSON_stringify : JSON -> string.

Lemma under_eqb (outputDir r1 r2 : string) :
  String.eqb (Reference.under outputDir r1) (Reference.under outputDir r2)
  = String.eqb r1 r2.
Proof.
  destruct (String.eqb_spec r1 r2) as [-> | Hne].
  - apply String.eqb_refl.
  - apply String.eqb_neq. intros Heq. apply Hne.
    unfold Reference.under in Heq.
    apply (inj (String.app outputDir)) in Heq.
    now apply (inj (String.app "/")) in Heq.
Qed.

Lemma write_entries_last (entries : list (string * string))
    (tree : gmap string string) (path : string) :
  fold_left Reference.write_entry entries tree !! path
  = match Reference.assoc_last path entries with
    | Some content => Some content
    | None => tree !! path
    end.
Proof.
  revert tree. induction entries as [|[k v] entries IH]; intros tree;
    [reflexivity |].
  cbn [fold_left Reference.assoc_last]. rewrite IH.
  destruct (Reference.assoc_last path entries); [reflexivity |].
  unfold Reference.write_entry. cbn [fst snd].
  destruct (String.eqb_spec k path) as [-> | Hne].
  - apply lookup_insert_eq.
  - now apply lookup_insert_ne.
Qed.

Lemma assoc_last_app (path : string) (front back : list (string * string)) :
  Reference.assoc_last path (front ++ back)
  = match Reference.assoc_last path back with
    | Some content => Some content
    | None => Reference.assoc_last path front
    end.
Proof.
  induction front as [|[k v] front IH]; cbn [app Reference.assoc_last].
  - now destruct (Reference.assoc_last path back).
  - rewrite IH. destruct (Reference.assoc_last path back); reflexivity.
Qed.

Lemma assoc_last_None (path : string) (entries : list (string * string)) :
  (forall entry, In entry entries -> fst entry <> path) ->
  Reference.assoc_last path entries = None.
Proof.
  induction entries as [|[k v] entries IH]; intros Hkeys; [reflexivity |].
  cbn [Reference.assoc_last]. rewrite IH.
  - destruct (String.eqb_spec k path) as [Heq | Hne]; [| reflexivity].
    exfalso. apply (Hkeys (k, v)); [now left | exact Heq].
  - intros entry Hin. apply Hkeys. now right.
Qed.

Lemma assoc_last_under (outputDir path : string)
    (entries : list (string * string)) :
  Reference.assoc_last (Reference.under outputDir path)
    (map (fun entry => (Reference.under outputDir (fst entry), snd entry))
         entries)
  = Reference.assoc_last path entries.
Proof.
  induction entries as [|[k v] entries IH]; [reflexivity |].
  cbn [map Reference.assoc_last fst snd]. rewrite IH, under_eqb. reflexivity.
Qed.

(** What a run leaves, whatever the directory held before. *)
Lemma generateServer_over (config : ServerConfig) (outputDir : string)
    (fs : FileSystem) :
  let out := generateServer handlebars JSON_stringify config outputDir fs in
  files out
  = fold_left Reference.write_entry
      (map (fun entry => (Reference.under outputDir (fst entry), snd entry))
           (Reference.relative_files handlebars JSON_stringify config))
      (files fs)
  /\ dirs out
     = {[ outputDir ]}
       ∪ set_map (D := gset string) (Reference.under outputDir)
                 Reference.relative_folders
       ∪ dirs fs.
Proof.
  cbv zeta. unfold generateServer. cbv zeta.
  unfold generateTypesFile, generateIntegrationFiles, generateToolFiles.
  match goal with
  | |- context [fold_left _ (integrations config) ?fs] =>
      destruct (generateIntegrationFiles_files handlebars JSON_stringify
                  outputDir (integrations config) fs)
        as [Hdi Hfi]
  end.
  match type of Hfi with
  | context [fold_left _ (customTools config) ?fs] =>
      destruct (generateToolFiles_files handlebars JSON_stringify config
                  outputDir (customTools config) fs)
        as [Hdt Hft]
  end.
  cbv zeta in Hdi, Hfi, Hdt, Hft. split.
  - cbn [files writeFile]. rewrite Hfi, Hft.
    unfold Reference.relative_files.
    rewrite !map_app, !fold_left_app, !map_map.
    reflexivity.
  - cbn [dirs writeFile]. rewrite Hdi, Hdt. cbn.
    unfold Reference.relative_folders.
    rewrite !set_map_union_L, !set_map_singleton_L.
    unfold Reference.under, path_join. cbn.
    apply set_eq. intros path.
    rewrite !elem_of_union, !elem_of_singleton. tauto.
Qed.

Lemma generateServer_lookup (config : ServerConfig) (outputDir : string)
    (fs : FileSystem) (path : string) :
  files (generateServer handlebars JSON_stringify config outputDir fs)
    !! Reference.under outputDir path
  = match Reference.assoc_last path
            (Reference.relative_files handlebars JSON_stringify config) with
    | Some content => Some content
    | None => files fs !! Reference.under outputDir path
    end.
Proof.
  destruct (generateServer_over config outputDir fs) as [-> _].
  now rewrite write_entries_last, assoc_last_under.
Qed.

(** X21.  Rendering the same configuration into the same directory a
    second time changes nothing: every file and folder of the first run is
    written again with the same content, whatever the directory held before
    the first run. *)
Theorem generateServer_twice_is_once (config : ServerConfig)
    (outputDir : string) (fs : FileSystem) :
  generateServer handlebars JSON_stringify config outputDir
    (generateServer handlebars JSON_stringify config outputDir fs)
  = generateServer handlebars JSON_stringify config outputDir fs.
Proof.
  destruct (generateServer_over config outputDir
              (generateServer handlebars JSON_stringify config outputDir fs))
    as [Hfiles2 Hdirs2].
  destruct (generateServer_over config outputDir fs) as [Hfiles1 Hdirs1].
  cbv zeta in Hfiles1, Hdirs1, Hfiles2, Hdirs2.
  destruct (generateServer handlebars JSON_stringify config outputDir
              (generateServer handlebars JSON_stringify config outputDir fs))
    as [dirs2 files2].
  destruct (generateServer handlebars JSON_stringify config outputDir fs)
    as [dirs1 files1].
  cbn [dirs files] in *. f_equal.
  - rewrite Hdirs2, Hdirs1. apply set_eq. intros path.
    rewrite !elem_of_union. tauto.
  - rewrite Hfiles2. apply map_eq. intros path.
    rewrite write_entries_last. rewrite Hfiles1, write_entries_last.
    now destruct (Reference.assoc_last path _).
Qed.

Lemma tool_files_miss (config : ServerConfig) (tools : list GeneratedTool)
    (path : string) :
  (forall tool, In tool tools ->
                "src/tools/" +:+ kebabCase (tool_name tool) +:+ ".ts" <> path) ->
  Reference.assoc_last path
    (map (fun tool =>
            ("src/tools/" +:+ kebabCase (tool_name tool) +:+ ".ts",
             compiled handlebars JSON_stringify ToolFileTemplate
                      (ToolContext tool (integrations config))))
         tools)
  = None.
Proof.
  intros Hmiss. apply assoc_last_None. intros entry Hin.
  apply in_map_iff in Hin as (tool & <- & Hin). cbn [fst]. now apply Hmiss.
Qed.

Lemma integration_files_miss (selected : list IntegrationConfig)
    (path : string) :
  (forall i, In i selected ->
             "src/integrations/" +:+ kebabCase (integration_name i) +:+ ".ts"
             <> path) ->
  Reference.assoc_last path
    (map (fun integration =>
            ("src/integrations/"
             +:+ kebabCase (integration_name integration) +:+ ".ts",
             compiled handlebars JSON_stringify IntegrationFileTemplate
                      (IntegrationContext integration)))
         selected)
  = None.
Proof.
  intros Hmiss. apply assoc_last_None. intros entry Hin.
  apply in_map_iff in Hin as (i & <- & Hin). cbn [fst]. now apply Hmiss.
Qed.

(** X22.  The four files that are not TypeScript sources are safe from the
    tool and integration files, whose names all end in [.ts]: after a run
    [package.json], [tsconfig.json], [.env.example] and [README.md] hold
    what their own step wrote, whatever the tools and integrations are
    called and whatever the directory held before. *)
Theorem project_files_survive_the_parts (config : ServerConfig)
    (outputDir : string) (fs : FileSystem) :
  let out := generateServer handlebars JSON_stringify config outputDir fs in
  files out !! path_join [outputDir; "package.json"]
  = Some (JSON_stringify (packageJson config))
  /\ files out !! path_join [outputDir; "tsconfig.json"]
     = Some (JSON_stringify tsConfig)
  /\ files out !! path_join [outputDir; ".env.example"]
     = Some (envContent config)
  /\ files out !! path_join [outputDir; "README.md"]
     = Some (compiled handlebars JSON_stringify ReadmeTemplate
                      (ConfigContext config)).
Proof.
  cbv zeta.
  change (path_join [outputDir; "package.json"])
    with (Reference.under outputDir "package.json").
  change (path_join [outputDir; "tsconfig.json"])
    with (Reference.under outputDir "tsconfig.json").
  change (path_join [outputDir; ".env.example"])
    with (Reference.under outputDir ".env.example").
  change (path_join [outputDir; "README.md"])
    with (Reference.under outputDir "README.md").
  rewrite !generateServer_lookup. unfold Reference.relative_files.
  rewrite !assoc_last_app.
  rewrite !tool_files_miss by (intros tool _ Heq; discriminate Heq).
  rewrite !integration_files_miss by (intros i _ Heq; discriminate Heq).
  repeat split; reflexivity.
Qed.

Lemma string_app_inj_r (s1 s2 t : string) : s1 +:+ t = s2 +:+ t -> s1 = s2.
Proof.
  revert s2. induction s1 as [|c1 s1 IH]; intros [|c2 s2] Heq.
  - reflexivity.
  - apply (f_equal String.length) in Heq.
    rewrite !string_app_length in Heq. simpl in Heq. lia.
  - apply (f_equal String.length) in Heq.
    rewrite !string_app_length in Heq. simpl in Heq. lia.
  - change (String c1 (s1 +:+ t) = String c2 (s2 +:+ t)) in Heq.
    injection Heq as -> Heq. f_equal. now apply IH.
Qed.

(** X23.  Tool files are named after the kebab-cased tool name, and a later
    write replaces an earlier one.  So, for tools and integrations named by
    slugs (the names [createTool] and [createIntegration] give; path
    segments are joined as they are), the file of a kebab-cased name holds
    the last tool of that name: a tool called [get-weather] takes the file
    of an earlier [get_weather], and a tool called [index] takes the place
    of the tools index, which is otherwise found in [src/tools/index.ts]. *)
Theorem last_tool_of_a_file_name_wins (config : ServerConfig)
    (outputDir : string) (fs : FileSystem)
    (earlier later : list GeneratedTool) (tool : GeneratedTool) :
  customTools config = earlier ++ tool :: later ->
  (forall other, In other later ->
                 kebabCase (tool_name other) <> kebabCase (tool_name tool)) ->
  (forall other, In other (customTools config) ->
                 Reference.all_chars Reference.slug_char (tool_name other)
                 = true) ->
  (forall i, In i (integrations config) ->
             Reference.all_chars Reference.slug_char (integration_name i)
             = true) ->
  let out := generateServer handlebars JSON_stringify config outputDir fs in
  files out
    !! path_join [outputDir; "src"; "tools";
                  kebabCase (tool_name tool) +:+ ".ts"]
  = Some (compiled handlebars JSON_stringify ToolFileTemplate
                   (ToolContext tool (integrations config)))
  /\ ((forall other, In other (customTools config) ->
                     kebabCase (tool_name other) <> "index") ->
      files out !! path_join [outputDir; "src"; "tools"; "index.ts"]
      = Some (compiled handlebars JSON_stringify ToolsIndexTemplate
                       (ConfigContext config))).
Proof.
  intros Htools Hlater _ _. cbv zeta.
  change (path_join [outputDir; "src"; "tools";
                     kebabCase (tool_name tool) +:+ ".ts"])
    with (Reference.under outputDir
            ("src/tools/" +:+ kebabCase (tool_name tool) +:+ ".ts")).
  change (path_join [outputDir; "src"; "tools"; "index.ts"])
    with (Reference.under outputDir "src/tools/index.ts").
  rewrite !generateServer_lookup. unfold Reference.relative_files.
  rewrite !assoc_last_app.
  rewrite !integration_files_miss by (intros i _ Heq; discriminate Heq).
  split.
  - rewrite Htools, map_app. cbn [map]. rewrite assoc_last_app.
    cbn [Reference.assoc_last]. rewrite tool_files_miss.
    + now rewrite String.eqb_refl.
    + intros other Hin Heq. apply (Hlater other Hin).
      injection Heq as Heq.
      apply (string_app_inj_r (kebabCase (tool_name other))
               (kebabCase (tool_name tool)) ".ts").
      exact Heq.
  - intros Hindex. rewrite tool_files_miss; [reflexivity |].
    intros other Hin Heq. apply (Hindex other Hin).
    injection Heq as Heq.
    apply (string_app_inj_r (kebabCase (tool_name other)) "index" ".ts").
    exact Heq.
Qed.

End RenderingMore.

Lemma last_tool_of_a_file_name_wins_witness :
  TemplateEngine.files
    (TemplateEngine.generateServer
       (fun _ _ context =>
          match context with
          | TemplateEngine.ToolContext tool _ => Core.tool_name tool
          | _ => "other"
          end)
       (fun _ => "json")
       (MCPServerGenerator.addTool
          (MCPServerGenerator.addTool Reference.weather_config
             (Reference.weather_tool "get_weather"))
          (Reference.weather_tool "get-weather"))
       "out" TemplateEngine.empty_fs)
    !! "out/src/tools/get-weather.ts"
  = Some "get-weather".
Proof.
  refine (proj1 (last_tool_of_a_file_name_wins
                   (fun _ _ context =>
                      match context with
                      | TemplateEngine.ToolContext tool _ => Core.tool_name tool
                      | _ => "other"
                      end)
                   (fun _ => "json")
                   (MCPServerGenerator.addTool
                      (MCPServerGenerator.addTool Reference.weather_config
                         (Reference.weather_tool "get_weather"))
                      (Reference.weather_tool "get-weather"))
                   "out" TemplateEngine.empty_fs
                   [Reference.weather_tool "get_weather"] []
                   (Reference.weather_tool "get-weather")
                   eq_refl _ _ _)).
  - intros other [].
  - intros other [<- | [<- | []]]; reflexivity.
  - intros i [].
Defined.

(** ** The package manifest and the server name *)

Section Manifest.

Import Core TemplateEngine.

Lemma object_set_keys (obj : list (string * JSON)) (key : string)
    (value : JSON) :
  map fst (object_set obj key value) = JS.Set_add (map fst obj) key.
Proof.
  induction obj as [|[k v] obj IH]; [reflexivity |].
  cbn [object_set map fst]. unfold JS.Set_add, JS.Set_has.
  cbn [existsb]. rewrite (String.eqb_sym key k).
  destruct (String.eqb k key) eqn:Hk; [reflexivity |].
  cbn [orb map fst]. rewrite IH. unfold JS.Set_add, JS.Set_has.
  now destruct (existsb (String.eqb key) (map fst obj)).
Qed.

Lemma object_set_values (obj : list (string * JSON)) (key : string)
    (value : JSON) :
  Forall (fun field => snd field = value) obj ->
  Forall (fun field => snd field = value) (object_set obj key value).
Proof.
  induction 1 as [|[k v] obj Hv Hobj IH]; cbn [object_set].
  - now constructor.
  - destruct (String.eqb k key); constructor; auto.
Qed.

Lemma object_set_all (keys : list string) (value : JSON)
    (obj : list (string * JSON)) :
  Forall (fun field => snd field = value) obj ->
  map fst (fold_left (fun acc key => object_set acc key value) keys obj)
  = fold_left JS.Set_add keys (map fst obj)
  /\ Forall (fun field => snd field = value)
            (fold_left (fun acc key => object_set acc key value) keys obj).
Proof.
  revert obj. induction keys as [|key keys IH]; intros obj Hobj;
    cbn [fold_left]; [now split |].
  destruct (IH (object_set obj key value) (object_set_values _ _ _ Hobj))
    as [Hkeys Hvalues].
  split; [| exact Hvalues]. now rewrite Hkeys, object_set_keys.
Qed.

(** X24.  The [dependencies] member of the package manifest names every
    dependency of the configuration once, also one the configuration lists
    twice, each with the version [latest], and nothing else.  (The key
    [__proto__], which an assignment does not store, is set aside.) *)
Theorem packageJson_lists_each_dependency_once (config : ServerConfig) :
  exists listed,
    Reference.member "dependencies" (packageJson config) = Some (JObj listed)
    /\ List.NoDup (map fst listed)
    /\ (forall dependency version,
          In (dependency, version) listed ->
          In dependency (dependencies config) /\ version = JStr "latest")
    /\ (forall dependency,
          In dependency (dependencies config) ->
          dependency <> "__proto__" ->
          In (dependency, JStr "latest") listed).
Proof.
  eexists. split; [reflexivity |].
  destruct (object_set_all (dependencies config) (JStr "latest") [])
    as [Hkeys Hvalues]; [constructor |].
  cbn [map] in Hkeys. rewrite List.Forall_forall in Hvalues.
  split; [| split].
  - rewrite Hkeys. apply Set_add_all_NoDup. constructor.
  - intros dependency version Hin. split.
    + apply (in_map fst) in Hin. rewrite Hkeys in Hin.
      apply Set_add_all_In in Hin as [[] | Hin]. exact Hin.
    + exact (Hvalues _ Hin).
  - intros dependency Hin _.
    assert (Hkey : In dependency
                     (map fst
                        (fold_left
                           (fun acc dep => object_set acc dep (JStr "latest"))
                           (dependencies config) []))).
    { rewrite Hkeys. apply Set_add_all_In. now right. }
    apply in_map_iff in Hkey as ([k v] & Hk & Hfield). cbn [fst] in Hk. subst k.
    now rewrite <- (Hvalues _ Hfield) at 1.
Qed.

End Manifest.

Section ServerName.

Import AIGenerator.

Lemma no_adjacent_replace_runs (cls : ascii -> bool) (d : ascii) (s : string) :
  cls d = true ->
  Reference.no_adjacent cls (JS.replace_runs cls (String d EmptyString) s)
  = true.
Proof.
  intros Hd. induction s as [|c s IH]; [reflexivity |].
  cbn [JS.replace_runs]. destruct (cls c) eqn:Hc.
  - destruct s as [|c' s']; [reflexivity |].
    destruct (cls c') eqn:Hc'; [exact IH |].
    cbn [JS.replace_runs] in IH |- *. rewrite Hc' in IH |- *.
    change (Reference.no_adjacent cls
              (String d (String c' (JS.replace_runs cls (String d EmptyString) s')))
            = true).
    cbn [Reference.no_adjacent] in IH |- *. rewrite Hc', andb_false_r.
    rewrite Hc' in IH. exact IH.
  - cbn [Reference.no_adjacent].
    destruct (JS.replace_runs cls (String d EmptyString) s); [reflexivity |].
    rewrite Hc. exact IH.
Qed.

Lemma no_adjacent_tail (cls : ascii -> bool) (c : ascii) (s : string) :
  Reference.no_adjacent cls (String c s) = true ->
  Reference.no_adjacent cls s = true.
Proof.
  cbn [Reference.no_adjacent]. destruct s as [|c' s']; [reflexivity |].
  rewrite andb_true_iff. tauto.
Qed.

Lemma strip_leading_hyphen_spec (P : ascii -> bool) (s : string) :
  Reference.all_chars P s = true ->
  Reference.no_adjacent (Ascii.eqb "-") s = true ->
  Reference.all_chars P (Reference.strip_leading_hyphen s) = true
  /\ Reference.no_adjacent (Ascii.eqb "-") (Reference.strip_leading_hyphen s)
     = true
  /\ forall c, Reference.first_char (Reference.strip_leading_hyphen s) = Some c ->
               Ascii.eqb "-" c = false.
Proof.
  destruct s as [|c s]; [intros _ _; repeat split; discriminate |].
  intros Hall Hadj. cbn [Reference.strip_leading_hyphen].
  destruct (Ascii.eqb "-" c) eqn:Hc.
  - cbn [Reference.all_chars] in Hall. apply andb_true_iff in Hall as [_ Hall].
    split; [exact Hall |]. split; [exact (no_adjacent_tail _ _ _ Hadj) |].
    destruct s as [|c' s']; [discriminate |].
    cbn [Reference.no_adjacent] in Hadj. rewrite Hc in Hadj.
    intros c0 [= <-]. now destruct (Ascii.eqb "-" c').
  - split; [exact Hall |]. split; [exact Hadj |].
    intros c0 [= <-]. exact Hc.
Qed.

Lemma strip_trailing_hyphen_chars (P : ascii -> bool) (s : string) :
  Reference.all_chars P s = true ->
  Reference.all_chars P (Reference.strip_trailing_hyphen s) = true.
Proof.
  induction s as [|c s IH]; [reflexivity |].
  cbn [Reference.all_chars]. rewrite andb_true_iff. intros [Hc Hs].
  destruct s as [|c' r].
  - cbn [Reference.strip_trailing_hyphen].
    destruct (Ascii.eqb "-" c); [reflexivity |].
    cbn [Reference.all_chars]. now rewrite Hc.
  - change (Reference.strip_trailing_hyphen (String c (String c' r)))
      with (String c (Reference.strip_trailing_hyphen (String c' r))).
    cbn [Reference.all_chars]. now rewrite Hc, (IH Hs).
Qed.

Lemma strip_trailing_hyphen_first (s : string) (c : ascii) :
  Reference.first_char (Reference.strip_trailing_hyphen s) = Some c ->
  Reference.first_char s = Some c.
Proof.
  destruct s as [|c0 [|c' r]]; [discriminate | |].
  - cbn [Reference.strip_trailing_hyphen].
    destruct (Ascii.eqb "-" c0); [discriminate | auto].
  - change (Reference.strip_trailing_hyphen (String c0 (String c' r)))
      with (String c0 (Reference.strip_trailing_hyphen (String c' r))).
    auto.
Qed.

Lemma strip_trailing_hyphen_adjacent (cls : ascii -> bool) (s : string) :
  Reference.no_adjacent cls s = true ->
  Reference.no_adjacent cls (Reference.strip_trailing_hyphen s) = true.
Proof.
  induction s as [|c s IH]; [reflexivity |].
  intros Hadj. pose proof (no_adjacent_tail _ _ _ Hadj) as Htail.
  destruct s as [|c' r].
  - cbn [Reference.strip_trailing_hyphen].
    now destruct (Ascii.eqb "-" c).
  - change (Reference.strip_trailing_hyphen (String c (String c' r)))
      with (String c (Reference.strip_trailing_hyphen (String c' r))).
    specialize (IH Htail).
    pose proof (strip_trailing_hyphen_first (String c' r)) as Hfirst.
    destruct (Reference.strip_trailing_hyphen (String c' r)) as [|x rest];
      [reflexivity |].
    specialize (Hfirst x eq_refl). injection Hfirst as <-.
    cbn [Reference.no_adjacent] in Hadj |- *.
    apply andb_true_iff in Hadj as [Hpair _].
    rewrite Hpair. exact IH.
Qed.

Lemma strip_trailing_hyphen_last (s : string) (c : ascii) :
  Reference.no_adjacent (Ascii.eqb "-") s = true ->
  Reference.last_char (Reference.strip_trailing_hyphen s) = Some c ->
  Ascii.eqb "-" c = false.
Proof.
  induction s as [|c0 s IH]; [discriminate |].
  intros Hadj. pose proof (no_adjacent_tail _ _ _ Hadj) as Htail.
  destruct s as [|c' r].
  - cbn [Reference.strip_trailing_hyphen].
    destruct (Ascii.eqb "-" c0) eqn:Hc0; [discriminate |].
    now intros [= <-].
  - change (Reference.strip_trailing_hyphen (String c0 (String c' r)))
      with (String c0 (Reference.strip_trailing_hyphen (String c' r))).
    destruct r as [|c'' r'].
    + cbn [Reference.strip_trailing_hyphen].
      cbn [Reference.no_adjacent] in Hadj.
      destruct (Ascii.eqb "-" c') eqn:Hc'; cbn [Reference.last_char].
      * intros [= <-].
        destruct (Ascii.eqb "-" c0); [discriminate Hadj | reflexivity].
      * now intros [= <-].
    + specialize (IH Htail). revert IH.
      change (Reference.strip_trailing_hyphen (String c' (String c'' r')))
        with (String c' (Reference.strip_trailing_hyphen (String c'' r'))).
      cbn [Reference.last_char]. auto.
Qed.

Lemma no_adjacent_app (cls : ascii -> bool) (s t : string) :
  Reference.no_adjacent cls s = true ->
  Reference.no_adjacent cls t = true ->
  (forall a b, Reference.last_char s = Some a ->
               Reference.first_char t = Some b ->
               cls a && cls b = false) ->
  Reference.no_adjacent cls (s +:+ t) = true.
Proof.
  induction s as [|c s IH]; [auto |].
  intros Hs Ht Hjoin. pose proof (no_adjacent_tail _ _ _ Hs) as Htail.
  destruct s as [|c' r].
  - change (Reference.no_adjacent cls (String c t) = true).
    cbn [Reference.no_adjacent]. destruct t as [|b t']; [reflexivity |].
    rewrite (Hjoin c b eq_refl eq_refl). exact Ht.
  - change (Reference.no_adjacent cls (String c (String c' (r +:+ t))) = true).
    cbn [Reference.no_adjacent] in Hs.
    apply andb_true_iff in Hs as [Hpair _].
    change (negb (cls c && cls c')
            && Reference.no_adjacent cls (String c' r +:+ t) = true).
    rewrite Hpair. apply IH; [exact Htail | exact Ht |].
    intros a b Ha. apply Hjoin. exact Ha.
Qed.

(** X25.  [generateServerName] always yields a usable name: small letters,
    digits and hyphens only, no two hyphens in a row, and the ending
    [-mcp-server] behind a stem that neither starts nor ends with a hyphen.
    The stem is empty when the summary has no letter or digit in its first
    three words; a missing or empty summary gives [mcp-server-mcp-server]. *)
Theorem generateServerName_is_well_formed (analysis : Analysis) :
  Reference.all_chars Reference.name_char (generateServerName analysis) = true
  /\ Reference.no_adjacent (Ascii.eqb "-") (generateServerName analysis) = true
  /\ (exists stem,
        generateServerName analysis = stem +:+ "-mcp-server"
        /\ (forall c, Reference.first_char stem = Some c ->
                      Ascii.eqb "-" c = false)
        /\ (forall c, Reference.last_char stem = Some c ->
                      Ascii.eqb "-" c = false))
  /\ (JS.or_else (summary analysis) "" = "" ->
      generateServerName analysis = "mcp-server-mcp-server").
Proof.
  unfold generateServerName. cbv zeta.
  match goal with
  | |- context [JS.replace_runs ?cls ?r ?s] =>
      set (collapsed := JS.replace_runs cls r s)
  end.
  change (Reference.all_chars Reference.name_char
            (Reference.strip_trailing_hyphen
               (Reference.strip_leading_hyphen collapsed) +:+ "-mcp-server")
          = true
          /\ Reference.no_adjacent (Ascii.eqb "-")
               (Reference.strip_trailing_hyphen
                  (Reference.strip_leading_hyphen collapsed) +:+ "-mcp-server")
             = true
          /\ (exists stem,
                Reference.strip_trailing_hyphen
                  (Reference.strip_leading_hyphen collapsed) +:+ "-mcp-server"
                = stem +:+ "-mcp-server"
                /\ (forall c, Reference.first_char stem = Some c ->
                              Ascii.eqb "-" c = false)
                /\ (forall c, Reference.last_char stem = Some c ->
                              Ascii.eqb "-" c = false))
          /\ (JS.or_else (summary analysis) "" = "" ->
              Reference.strip_trailing_hyphen
                (Reference.strip_leading_hyphen collapsed) +:+ "-mcp-server"
              = "mcp-server-mcp-server")).
  assert (Hchars : Reference.all_chars Reference.name_char collapsed = true).
  { subst collapsed. apply all_chars_replace_runs; [| reflexivity].
    eapply all_chars_weaken; [| apply all_chars_filter].
    intros c Hc. unfold Reference.name_char. cbv beta in Hc.
    rewrite Hc. apply orb_true_r. }
  assert (Hadj : Reference.no_adjacent (Ascii.eqb "-") collapsed = true).
  { subst collapsed. now apply no_adjacent_replace_runs. }
  destruct (strip_leading_hyphen_spec _ _ Hchars Hadj)
    as (Hchars1 & Hadj1 & Hfirst1).
  pose proof (strip_trailing_hyphen_chars _ _ Hchars1) as Hchars2.
  pose proof (strip_trailing_hyphen_adjacent _ _ Hadj1) as Hadj2.
  pose proof (fun c => strip_trailing_hyphen_last _ c Hadj1) as Hlast2.
  assert (Hfirst2 : forall c,
             Reference.first_char
               (Reference.strip_trailing_hyphen
                  (Reference.strip_leading_hyphen collapsed)) = Some c ->
             Ascii.eqb "-" c = false).
  { intros c Hc. apply Hfirst1. now apply strip_trailing_hyphen_first. }
  split; [| split; [| split]].
  - rewrite all_chars_app, Hchars2. reflexivity.
  - apply no_adjacent_app; [exact Hadj2 | reflexivity |].
    intros a b Ha _. now rewrite (Hlast2 a Ha).
  - eexists. split; [reflexivity |]. split; assumption.
  - intros Hsummary. subst collapsed.
    assert (Hdefault : JS.or_else (summary analysis) "MCP Server" = "MCP Server").
    { destruct (summary analysis) as [[|c s]|]; [reflexivity | | reflexivity].
      discriminate Hsummary. }
    rewrite Hdefault. reflexivity.
Qed.

End ServerName.
